(** * Valeur-K: the card-prediction bot, embedded and verified

    Shallow embedding of [card_predictor.py] (class [CardPredictor]) and of the
    channel-message path of [handlers.py].

    - Python [str] values are sequences of Unicode code points ([pystr]).
    - Python [int] is [Z]; floats are IEEE values ([spec_float]).
    - The interpreter's Unicode tables (decimal digits for [\d] and [int()],
      white space for [str.strip]) are an interface, [PyRuntime].
    - Methods that touch the disk, the clock or the logger run in a small
      state-and-exception monad [M] over a [World].
    Interpreter resource limits (recursion depth, memory, the digit limit of
    int/str conversions) are outside the model: integers are unbounded. *)

From Stdlib Require Import ZArith NArith Ascii String Floats.SpecFloat.
From stdpp Require Import gmap strings list fin_maps sorting.

Local Open Scope Z_scope.
Set Warnings "-register-all".

(* ===================================================================== *)
(** * Python strings *)
(* ===================================================================== *)

Module PyStr.

(** A Python string: its code points. *)
Abbreviation pystr := (list N).

(** UTF-8 decoding of a literal, so that messages can be written as they
  appear in the source channel. *)
Fixpoint utf8 (bs : list N) : pystr :=
match bs with
| [] => []
| b0 :: t0 =>
  if (b0 <? 128)%N then b0 :: utf8 t0 else
  match t0 with
  | [] => []
  | b1 :: t1 =>
    if (b0 <? 224)%N then ((b0 - 192) * 64 + (b1 - 128))%N :: utf8 t1 else
    match t1 with
    | [] => []
    | b2 :: t2 =>
      if (b0 <? 240)%N
      then ((b0 - 224) * 4096 + (b1 - 128) * 64 + (b2 - 128))%N :: utf8 t2
      else
        match t2 with
        | [] => []
        | b3 :: t3 =>
          ((b0 - 240) * 262144 + (b1 - 128) * 4096
           + (b2 - 128) * 64 + (b3 - 128))%N :: utf8 t3
        end
    end
  end
end.

Definition py (s : string) : pystr :=
utf8 (map Ascii.N_of_ascii (String.list_ascii_of_string s)).

(** [needle in haystack] for a one-code-point needle. *)
Definition contains_char (c : N) (s : pystr) : bool := existsb (N.eqb c) s.

(** [s.startswith(p)], returning what follows the prefix. *)
Fixpoint strip_prefix (p s : pystr) : option pystr :=
match p, s with
| [], _ => Some s
| a :: p', b :: s' => if (a =? b)%N then strip_prefix p' s' else None
| _ :: _, [] => None
end.

(** [s.replace(old, new)]: non-overlapping occurrences, left to right
  ([old] non-empty). *)
Fixpoint replace_skip (old new : pystr) (skip : nat) (s : pystr) : pystr :=
match s with
| [] => []
| c :: s' =>
  match skip with
  | S k => replace_skip old new k s'
  | O =>
    match strip_prefix old s with
    | Some _ => new ++ replace_skip old new (length old - 1) s'
    | None => c :: replace_skip old new 0 s'
    end
  end
end.

Definition replace (old new s : pystr) : pystr := replace_skip old new 0 s.

(** ASCII letters to upper case, everything else unchanged. On the text a
  card pattern captures (decimal digits, the letters of [[AKQJ]] in either
  case, the Kelvin sign) this is [str.upper]. *)
Definition upper_char (c : N) : N :=
if ((97 <=? c) && (c <=? 122))%N then (c - 32)%N else c.

Definition upper (s : pystr) : pystr := map upper_char s.

End PyStr.
Export PyStr.

(* ===================================================================== *)
(** * The interpreter's Unicode tables *)
(* ===================================================================== *)

(** Decimal value of an ASCII digit. *)
Definition ascii_decimal (c : N) : option Z :=
  if ((48 <=? c) && (c <=? 57))%N then Some (Z.of_N c - 48) else None.

(** ASCII white space as [str.isspace] has it. *)
Definition ascii_isspace (c : N) : bool :=
  ((9 <=? c) && (c <=? 13) || (28 <=? c) && (c <=? 32))%N.

(** The symbols the bot's message grammar uses: the four suits, the heavy
    heart, variation selector 16, the status glyphs, the blue circle and the
    Kelvin sign. None is a digit or white space. *)
Definition bot_symbols : list N :=
  [0x2660; 0x2663; 0x2665; 0x2666; 0x2764; 0xFE0F;
   0x1F550; 0x23F0; 0x2705; 0x1F530; 0x1F535; 0x212A]%N.

(** What the model needs from the interpreter: the decimal-digit table
    (category Nd, with digit values) behind [\d] and [int()], and the
    white-space table behind [str.strip()]. Both depend on the Unicode
    version; their ASCII part and their value on the bot's symbols do not. *)
Class PyRuntime := {
  py_decimal : N -> option Z;
  py_isspace : N -> bool;
  py_decimal_ascii : forall c, (c < 128)%N -> py_decimal c = ascii_decimal c;
  py_isspace_ascii : forall c, (c < 128)%N -> py_isspace c = ascii_isspace c;
  py_decimal_symbol : forall c, In c bot_symbols -> py_decimal c = None;
  py_isspace_symbol : forall c, In c bot_symbols -> py_isspace c = false
}.

(** White space outside ASCII (Unicode 15). *)
Definition unicode_space (c : N) : bool :=
  ((c =? 0x85) || (c =? 0xA0) || (c =? 0x1680)
   || (0x2000 <=? c) && (c <=? 0x200A)
   || (c =? 0x2028) || (c =? 0x2029) || (c =? 0x202F)
   || (c =? 0x205F) || (c =? 0x3000))%N.

(** A runtime whose only decimal digits are the ASCII ones. *)
#[export, refine] Instance basic_runtime : PyRuntime := {
  py_decimal c := if (c <? 128)%N then ascii_decimal c else None;
  py_isspace c := if (c <? 128)%N then ascii_isspace c else unicode_space c
}.
Proof.
  - intros c Hc. apply N.ltb_lt in Hc. now rewrite Hc.
  - intros c Hc. apply N.ltb_lt in Hc. now rewrite Hc.
  - intros c Hc. simpl in Hc.
    repeat (destruct Hc as [<- | Hc]; [reflexivity |]). destruct Hc.
  - intros c Hc. simpl in Hc.
    repeat (destruct Hc as [<- | Hc]; [reflexivity |]). destruct Hc.
Defined.

(* ===================================================================== *)
(** * Regular-expression pieces *)
(* ===================================================================== *)

Module Re.
Section Combinators.
Context {A : Type}.

(** Greedy [p*] followed by the continuation [k], with backtracking:
    the longest run first, then shorter ones. [k] receives the text matched
    by the star and what follows it. *)
Fixpoint star (p : N -> bool) (k : pystr -> pystr -> option A)
    (acc s : pystr) : option A :=
  match s with
  | c :: s' =>
    if p c then
      match star p k (acc ++ [c]) s' with
      | Some r => Some r
      | None => k acc s
      end
    else k acc s
  | [] => k acc s
  end.

(** Greedy [p+]. *)
Definition plus (p : N -> bool) (k : pystr -> pystr -> option A)
    (s : pystr) : option A :=
  match s with
  | c :: s' => if p c then star p k [c] s' else None
  | [] => None
  end.

(** [re.search]: the match at the leftmost position that has one. *)
Fixpoint search (m : pystr -> option A) (s : pystr) : option A :=
  match m s with
  | Some r => Some r
  | None => match s with [] => None | _ :: s' => search m s' end
  end.

(** [re.findall] for a pattern that never matches the empty string: [m]
    returns the captured value and the number of code points matched. *)
Fixpoint findall_skip (m : pystr -> option (A * nat)) (skip : nat)
    (s : pystr) : list A :=
  match s with
  | [] => []
  | _ :: s' =>
    match skip with
    | S k => findall_skip m k s'
    | O =>
      match m s with
      | Some (a, n) => a :: findall_skip m (n - 1) s'
      | None => findall_skip m 0 s'
      end
    end
  end.

Definition findall (m : pystr -> option (A * nat)) (s : pystr) : list A :=
  findall_skip m 0 s.
End Combinators.
End Re.

(* ===================================================================== *)
(** * Conversions between [int] and [str] *)
(* ===================================================================== *)

Section IntStr.
Context `{PyRuntime}.

(** [\d] *)
Definition is_digit (c : N) : bool :=
  match py_decimal c with Some _ => true | None => false end.

Fixpoint lstrip (s : pystr) : pystr :=
  match s with
  | c :: s' => if py_isspace c then lstrip s' else s
  | [] => []
  end.

(** [str.strip()] *)
Definition strip (s : pystr) : pystr := rev (lstrip (rev (lstrip s))).

(** The digits of an integer literal after its first digit: digits, each
    optionally preceded by one underscore. *)
Fixpoint int_body (acc : Z) (s : pystr) : option Z :=
  match s with
  | [] => Some acc
  | c :: s' =>
    match py_decimal c with
    | Some d => int_body (10 * acc + d) s'
    | None =>
      if (c =? 95)%N then
        match s' with
        | c' :: s'' =>
          match py_decimal c' with
          | Some d => int_body (10 * acc + d) s''
          | None => None
          end
        | [] => None
        end
      else None
    end
  end.

Definition int_unsigned (s : pystr) : option Z :=
  match s with
  | c :: s' =>
    match py_decimal c with
    | Some d => int_body d s'
    | None => None
    end
  | [] => None
  end.

(** [int(s)] for a string [s]; [None] is [ValueError]. *)
Definition py_int (s : pystr) : option Z :=
  match strip s with
  | c :: s' =>
    if (c =? 45)%N then Z.opp <$> int_unsigned s'
    else if (c =? 43)%N then int_unsigned s'
    else int_unsigned (c :: s')
  | [] => None
  end.
End IntStr.

(** [str(n)] for a natural number, most significant digit first. The fuel is
    the bit length, which bounds the number of decimal digits. *)
Fixpoint digits_fuel (fuel : nat) (n : N) (acc : pystr) : pystr :=
  match fuel with
  | O => acc
  | S f =>
    let acc' := (48 + n mod 10)%N :: acc in
    if (n <? 10)%N then acc' else digits_fuel f (n / 10)%N acc'
  end.

Definition digits_of (n : N) : pystr := digits_fuel (S (N.size_nat n)) n [].

(** [str(z)] for an [int]. *)
Definition py_str_int (z : Z) : pystr :=
  (if z <? 0 then [45%N] else []) ++ digits_of (Z.abs_N z).

(* ===================================================================== *)
(** * Tokenizer: the extraction methods of [CardPredictor] *)
(* ===================================================================== *)

Section Tokenizer.
Context `{PyRuntime}.

(** What must follow a captured group: one given code point. *)
Definition then_char (c : N) (g rest : pystr) : option pystr :=
  match rest with
  | d :: _ => if (d =? c)%N then Some g else None
  | [] => None
  end.

(** [#N(\d+)\.] with [re.IGNORECASE], anchored at the head of [s]. *)
Definition match_hash_n (s : pystr) : option pystr :=
  match s with
  | h :: n :: s' =>
    if ((h =? 35) && ((n =? 78) || (n =? 110)))%N
    then Re.plus is_digit (then_char 46) s' else None
  | _ => None
  end.

(** The prediction format: a number between two blue circles. *)
Definition match_blue (s : pystr) : option pystr :=
  match s with
  | b :: s' =>
    if (b =? 0x1F535)%N then Re.plus is_digit (then_char 0x1F535) s'
    else None
  | [] => None
  end.

Definition extract_game_number (message : pystr) : option Z :=
  let m :=
    match Re.search match_hash_n message with
    | Some g => Some g
    | None => Re.search match_blue message
    end in
  match m with
  | Some g => py_int g
  | None => None
  end.

(** [#T(\d+)] with [re.IGNORECASE]. *)
Definition match_hash_t (s : pystr) : option pystr :=
  match s with
  | h :: t :: s' =>
    if ((h =? 35) && ((t =? 84) || (t =? 116)))%N
    then Re.plus is_digit (fun g _ => Some g) s' else None
  | _ => None
  end.

Definition extract_total_score (message : pystr) : option Z :=
  match Re.search match_hash_t message with
  | Some g => py_int g
  | None => None
  end.

(** The parenthesis pattern, anchored: an opening parenthesis, the longest
    run of code points other than a closing parenthesis (the group), a
    closing parenthesis. Returns the group and the length of the match. *)
Definition match_paren (s : pystr) : option (pystr * nat) :=
  match s with
  | o :: s' =>
    if (o =? 40)%N
    then Re.star (fun c => negb (c =? 41)%N)
           (fun g rest =>
              match then_char 41 g rest with
              | Some g => Some (g, length g + 2)%nat
              | None => None
              end) [] s'
    else None
  | [] => None
  end.

Definition extract_first_parentheses_content (message : pystr)
    : option pystr :=
  match Re.search match_paren message with
  | Some (g, _) => Some (strip g)
  | None => None
  end.

(** [(♠️|♥️|♦️|♣️)]: a suit sign followed by variation selector 16. *)
Definition match_suit (s : pystr) : option pystr :=
  match s with
  | a :: b :: _ =>
    if ((b =? 0xFE0F)
        && ((a =? 0x2660) || (a =? 0x2665) || (a =? 0x2666)
            || (a =? 0x2663)))%N
    then Some [a; b] else None
  | _ => None
  end.

(** [[AKQJ]] under [re.IGNORECASE]: either case, and the Kelvin sign,
    which lower-cases to [k]. *)
Definition is_face (c : N) : bool :=
  ((c =? 65) || (c =? 97) || (c =? 75) || (c =? 107) || (c =? 0x212A)
   || (c =? 81) || (c =? 113) || (c =? 74) || (c =? 106))%N.

(** [(\d+|[AKQJ])(♠️|♥️|♦️|♣️)], anchored. *)
Definition match_card (s : pystr) : option ((pystr * pystr) * nat) :=
  let digits :=
    Re.plus is_digit
      (fun g rest =>
         match match_suit rest with
         | Some su => Some ((g, su), length g + 2)%nat
         | None => None
         end) s in
  match digits with
  | Some r => Some r
  | None =>
    match s with
    | c :: rest =>
      if is_face c then
        match match_suit rest with
        | Some su => Some (([c], su), 3%nat)
        | None => None
        end
      else None
    | [] => None
    end
  end.

Definition heavy_heart : pystr := [0x2764; 0xFE0F]%N.
Definition heart : pystr := [0x2665; 0xFE0F]%N.

Definition extract_card_details (content : pystr) : list (pystr * pystr) :=
  let normalized_content := replace heavy_heart heart content in
  let matches := Re.findall match_card normalized_content in
  map (fun '(value, costume) => (upper value, costume)) matches.

Definition get_first_two_cards (content : pystr) : list pystr :=
  let card_details := extract_card_details content in
  let first_two := take 2 card_details in
  map (fun '(v, c) => v ++ c) first_two.

Definition K : pystr := [75%N].

(** The search of [check_value_K_in_first_parentheses]; the method itself,
    which also logs, is below. *)
Definition first_K_card (message : pystr) : option (pystr * pystr) :=
  match extract_first_parentheses_content message with
  | None | Some [] => None
  | Some first_parentheses_content =>
    let card_details := extract_card_details first_parentheses_content in
    find (fun '(value, _) => bool_decide (value = K)) card_details
  end.

Definition has_pending_indicators (message : pystr) : bool :=
  contains_char 0x1F550 message || contains_char 0x23F0 message.

Definition has_completion_indicators (message : pystr) : bool :=
  contains_char 0x2705 message || contains_char 0x1F530 message.
End Tokenizer.

(* ===================================================================== *)
(** * Python values and JSON documents *)
(* ===================================================================== *)

(** The members of a set: the hashable scalars. Numbers of different types
    that Python hashes alike ([True], [1], [1.0]) are kept apart here; the
    identifiers the bot stores are all integers or all strings. *)
Inductive pyatom :=
  | ANone
  | ABool (b : bool)
  | AInt (z : Z)
  | AFloat (f : spec_float)
  | AStr (s : pystr).

(** The keys of the bot's dictionaries: integers and strings. *)
Inductive pykey :=
  | KInt (z : Z)
  | KStr (s : pystr).

#[export] Instance spec_float_eq_dec : EqDecision spec_float.
Proof. solve_decision. Defined.
#[export] Instance pyatom_eq_dec : EqDecision pyatom.
Proof. solve_decision. Defined.
#[export] Instance pykey_eq_dec : EqDecision pykey.
Proof. solve_decision. Defined.

#[export] Instance spec_float_countable : Countable spec_float.
Proof.
  apply (inj_countable'
    (fun f => match f with
              | S754_zero s => inl (inl s)
              | S754_infinity s => inl (inr s)
              | S754_nan => inr (inl ())
              | S754_finite s m e => inr (inr (s, m, e))
              end)
    (fun x => match x with
              | inl (inl s) => S754_zero s
              | inl (inr s) => S754_infinity s
              | inr (inl _) => S754_nan
              | inr (inr (s, m, e)) => S754_finite s m e
              end)).
  now intros [].
Defined.

#[export] Instance pyatom_countable : Countable pyatom.
Proof.
  apply (inj_countable'
    (fun a => match a with
              | ANone => inl (inl ())
              | ABool b => inl (inr b)
              | AInt z => inr (inl z)
              | AFloat f => inr (inr (inl f))
              | AStr s => inr (inr (inr s))
              end)
    (fun x => match x with
              | inl (inl _) => ANone
              | inl (inr b) => ABool b
              | inr (inl z) => AInt z
              | inr (inr (inl f)) => AFloat f
              | inr (inr (inr s)) => AStr s
              end)).
  now intros [].
Defined.

Inductive pyval :=
  | PyNone
  | PyBool (b : bool)
  | PyInt (z : Z)
  | PyFloat (f : spec_float)
  | PyStr (s : pystr)
  | PyList (l : list pyval)
  | PyDict (d : list (pykey * pyval))
  | PySet (s : gset pyatom).

(** A JSON document, as [json.load] reads it and [json.dump] writes it. The
    text layer of the [json] library is not modelled: a file holds the
    document itself. Python's [json] writes and reads [NaN] and [Infinity],
    so a number may be any float. *)
Inductive json :=
  | JNull
  | JBool (b : bool)
  | JInt (z : Z)
  | JFloat (f : spec_float)
  | JStr (s : pystr)
  | JArr (l : list json)
  | JObj (o : list (pystr * json)).

Module Dict.
Section Ops.
Context {Key V : Type} `{EqDecision Key}.

(** [d.get(k)] *)
Fixpoint get (d : list (Key * V)) (k : Key) : option V :=
  match d with
  | [] => None
  | (k', v) :: d' => if decide (k' = k) then Some v else get d' k
  end.

(** [d[k] = v]: an existing key keeps its position, a new one goes last. *)
Fixpoint set (d : list (Key * V)) (k : Key) (v : V) : list (Key * V) :=
  match d with
  | [] => [(k, v)]
  | (k', v') :: d' =>
    if decide (k' = k) then (k, v) :: d' else (k', v') :: set d' k v
  end.

(** A dictionary built by inserting the pairs in order. *)
Definition of_pairs (l : list (Key * V)) : list (Key * V) :=
  fold_left (fun d '(k, v) => set d k v) l [].
End Ops.
End Dict.

Definition atom_value (a : pyatom) : pyval :=
  match a with
  | ANone => PyNone
  | ABool b => PyBool b
  | AInt z => PyInt z
  | AFloat f => PyFloat f
  | AStr s => PyStr s
  end.

(** The hashable values: [None] for a list or a dictionary ([TypeError:
    unhashable type]). *)
Definition value_atom (v : pyval) : option pyatom :=
  match v with
  | PyNone => Some ANone
  | PyBool b => Some (ABool b)
  | PyInt z => Some (AInt z)
  | PyFloat f => Some (AFloat f)
  | PyStr s => Some (AStr s)
  | PyList _ | PyDict _ | PySet _ => None
  end.

(** The key of a JSON object member, as [json.dump] writes it. *)
Definition json_key (k : pykey) : pystr :=
  match k with
  | KInt z => py_str_int z
  | KStr s => s
  end.

(** What [json.dump] writes for a value; [None] is its [TypeError] (a set is
    not serializable). *)
Fixpoint py_to_json (v : pyval) : option json :=
  match v with
  | PyNone => Some JNull
  | PyBool b => Some (JBool b)
  | PyInt z => Some (JInt z)
  | PyFloat f => Some (JFloat f)
  | PyStr s => Some (JStr s)
  | PyList l =>
    JArr <$>
      (fix go (l : list pyval) : option (list json) :=
         match l with
         | [] => Some []
         | x :: l' =>
           match py_to_json x, go l' with
           | Some j, Some js => Some (j :: js)
           | _, _ => None
           end
         end) l
  | PyDict d =>
    JObj <$>
      (fix go (d : list (pykey * pyval)) : option (list (pystr * json)) :=
         match d with
         | [] => Some []
         | (k, x) :: d' =>
           match py_to_json x, go d' with
           | Some j, Some js => Some ((json_key k, j) :: js)
           | _, _ => None
           end
         end) d
  | PySet _ => None
  end.

(** What [json.load] builds from a document: arrays become lists, objects
    become dictionaries with string keys (a repeated key keeps its first
    position and its last value). *)
Fixpoint json_to_py (j : json) : pyval :=
  match j with
  | JNull => PyNone
  | JBool b => PyBool b
  | JInt z => PyInt z
  | JFloat f => PyFloat f
  | JStr s => PyStr s
  | JArr l => PyList (map json_to_py l)
  | JObj o =>
    PyDict (Dict.of_pairs
      ((fix go (o : list (pystr * json)) : list (pykey * pyval) :=
          match o with
          | [] => []
          | (k, x) :: o' => (KStr k, json_to_py x) :: go o'
          end) o))
  end.

(** ** Numbers *)

(** The integer a float is exactly equal to, if any. *)
Definition float_exact_int (f : spec_float) : option Z :=
  match f with
  | S754_zero _ => Some 0
  | S754_infinity _ | S754_nan => None
  | S754_finite s m e =>
    let sign (a : Z) := if s then - a else a in
    if 0 <=? e then Some (sign (Z.pos m * 2 ^ e))
    else if Z.pos m mod 2 ^ (- e) =? 0 then Some (sign (Z.pos m / 2 ^ (- e)))
    else None
  end.

Definition num_of (v : pyval) : option (Z + spec_float) :=
  match v with
  | PyBool b => Some (inl (if b then 1 else 0))
  | PyInt z => Some (inl z)
  | PyFloat f => Some (inr f)
  | _ => None
  end.

Definition num_eq (a b : Z + spec_float) : bool :=
  match a, b with
  | inl x, inl y => x =? y
  | inl x, inr f | inr f, inl x =>
    match float_exact_int f with
    | Some y => x =? y
    | None => false
    end
  | inr f, inr g => SFeqb f g
  end.

(** Python's [==] on values: numbers by numeric value across [bool], [int]
    and [float]; lists element by element; dictionaries and sets whatever the
    order of their entries. *)
Fixpoint py_eq (a b : pyval) {struct a} : bool :=
  match num_of a, num_of b with
  | Some x, Some y => num_eq x y
  | _, _ =>
    match a, b with
    | PyNone, PyNone => true
    | PyStr s, PyStr t => bool_decide (s = t)
    | PyList l, PyList l' =>
      (fix go (l l' : list pyval) : bool :=
         match l, l' with
         | [], [] => true
         | x :: l, y :: l' => py_eq x y && go l l'
         | _, _ => false
         end) l l'
    | PyDict d, PyDict d' =>
      (length d =? length d')%nat &&
      (fix go (d : list (pykey * pyval)) : bool :=
         match d with
         | [] => true
         | (k, v) :: d =>
           match Dict.get d' k with
           | Some v' => py_eq v v'
           | None => false
           end && go d
         end) d
    | PySet s, PySet t => bool_decide (s = t)
    | _, _ => false
    end
  end.

(* ===================================================================== *)
(** * The predictor's state and its world *)
(* ===================================================================== *)

(** An entry of [sequential_history]: [{'cartes': ..., 'date': ...}]. *)
Record GameRecord := {
  cartes : list pystr;
  date : pystr
}.

(** An entry of [inter_data]. *)
Record TriggerSample := {
  numero_resultat : Z;
  declencheur : list pystr;
  numero_declencheur : Z;
  carte_k : pystr;
  date_resultat : pystr
}.

(** An entry of [smart_rules]: [{'cards': ..., 'count': ...}]. *)
Record SmartRule := {
  cards : list pystr;
  count : Z
}.

#[export] Instance GameRecord_eq_dec : EqDecision GameRecord.
Proof. solve_decision. Defined.
#[export] Instance TriggerSample_eq_dec : EqDecision TriggerSample.
Proof. solve_decision. Defined.
#[export] Instance SmartRule_eq_dec : EqDecision SmartRule.
Proof. solve_decision. Defined.

(** The attributes of a [CardPredictor]. [predictions] and
    [last_prediction_time] stay dynamic values: the methods that fill them
    ([make_prediction], [_verify_prediction_common]) are not in the source at
    hand. *)
Record CardPredictor := {
  predictions : pyval;
  processed_messages : gset pyatom;
  last_prediction_time : pyval;
  config_data : list (pykey * pyval);
  target_channel_id : option Z;
  prediction_channel_id : option Z;
  sequential_history : gmap Z GameRecord;
  inter_data : list TriggerSample;
  is_inter_mode_active : bool;
  smart_rules : list SmartRule;
  prediction_cooldown : Z
}.

(** What a file holds: a JSON document, text that is not JSON (an empty or
    cut-off file among them), or bytes that are not text. *)
Inductive file_content :=
  | FJson (j : json)
  | FGarbled
  | FUndecodable.

(** What the environment does to a write of a given file. *)
Inductive write_fault :=
  | NoFault
  | OpenFails      (* [open(filename, 'w')] raises; the file is untouched *)
  | WriteFails.    (* the file is opened, hence emptied, then writing raises *)

Inductive log_level := INFO | WARNING | ERROR.

Inductive pyexn :=
  | FileNotFoundError
  | JSONDecodeError
  | UnicodeDecodeError
  | OSError
  | TypeError
  | ValueError
  | OverflowError
  | AttributeError
  | IndexError.

(** Everything a method can read or change: the predictor object, the disk,
    the clock (the [n]-th reading of [datetime.now().isoformat()]) and the
    log. *)
Record World := {
  self : CardPredictor;
  disk : gmap string file_content;
  wfault : string -> write_fault;
  clock : nat -> pystr;
  tick : nat;
  journal : list log_level
}.

Definition with_self (f : CardPredictor -> CardPredictor) (w : World) : World :=
  {| self := f (self w); disk := disk w; wfault := wfault w;
     clock := clock w; tick := tick w; journal := journal w |}.

Definition with_disk (f : gmap string file_content -> gmap string file_content)
    (w : World) : World :=
  {| self := self w; disk := f (disk w); wfault := wfault w;
     clock := clock w; tick := tick w; journal := journal w |}.

Definition with_tick (f : nat -> nat) (w : World) : World :=
  {| self := self w; disk := disk w; wfault := wfault w;
     clock := clock w; tick := f (tick w); journal := journal w |}.

Definition with_journal (f : list log_level -> list log_level) (w : World)
    : World :=
  {| self := self w; disk := disk w; wfault := wfault w;
     clock := clock w; tick := tick w; journal := f (journal w) |}.

Definition set_sequential_history (h : gmap Z GameRecord) (p : CardPredictor)
    : CardPredictor :=
  {| predictions := predictions p;
     processed_messages := processed_messages p;
     last_prediction_time := last_prediction_time p;
     config_data := config_data p;
     target_channel_id := target_channel_id p;
     prediction_channel_id := prediction_channel_id p;
     sequential_history := h;
     inter_data := inter_data p;
     is_inter_mode_active := is_inter_mode_active p;
     smart_rules := smart_rules p;
     prediction_cooldown := prediction_cooldown p |}.

Definition set_inter_data (l : list TriggerSample) (p : CardPredictor)
    : CardPredictor :=
  {| predictions := predictions p;
     processed_messages := processed_messages p;
     last_prediction_time := last_prediction_time p;
     config_data := config_data p;
     target_channel_id := target_channel_id p;
     prediction_channel_id := prediction_channel_id p;
     sequential_history := sequential_history p;
     inter_data := l;
     is_inter_mode_active := is_inter_mode_active p;
     smart_rules := smart_rules p;
     prediction_cooldown := prediction_cooldown p |}.

Definition set_is_inter_mode_active (b : bool) (p : CardPredictor)
    : CardPredictor :=
  {| predictions := predictions p;
     processed_messages := processed_messages p;
     last_prediction_time := last_prediction_time p;
     config_data := config_data p;
     target_channel_id := target_channel_id p;
     prediction_channel_id := prediction_channel_id p;
     sequential_history := sequential_history p;
     inter_data := inter_data p;
     is_inter_mode_active := b;
     smart_rules := smart_rules p;
     prediction_cooldown := prediction_cooldown p |}.

Definition set_smart_rules (r : list SmartRule) (p : CardPredictor)
    : CardPredictor :=
  {| predictions := predictions p;
     processed_messages := processed_messages p;
     last_prediction_time := last_prediction_time p;
     config_data := config_data p;
     target_channel_id := target_channel_id p;
     prediction_channel_id := prediction_channel_id p;
     sequential_history := sequential_history p;
     inter_data := inter_data p;
     is_inter_mode_active := is_inter_mode_active p;
     smart_rules := r;
     prediction_cooldown := prediction_cooldown p |}.

Definition set_channels (cfg : list (pykey * pyval)) (t pr : option Z)
    (p : CardPredictor) : CardPredictor :=
  {| predictions := predictions p;
     processed_messages := processed_messages p;
     last_prediction_time := last_prediction_time p;
     config_data := cfg;
     target_channel_id := t;
     prediction_channel_id := pr;
     sequential_history := sequential_history p;
     inter_data := inter_data p;
     is_inter_mode_active := is_inter_mode_active p;
     smart_rules := smart_rules p;
     prediction_cooldown := prediction_cooldown p |}.

(* ===================================================================== *)
(** * The monad of methods: state and exceptions *)
(* ===================================================================== *)

Inductive result (A : Type) :=
  | Ret (a : A)
  | Raise (e : pyexn).
Arguments Ret {A} a.
Arguments Raise {A} e.

Definition M (A : Type) : Type := World -> World * result A.

#[export] Instance M_ret : MRet M := fun A a w => (w, Ret a).

#[export] Instance M_bind : MBind M := fun A B f m w =>
  match m w with
  | (w', Ret a) => f a w'
  | (w', Raise e) => (w', Raise e)
  end.

Definition raise {A} (e : pyexn) : M A := fun w => (w, Raise e).

Definition get_world : M World := fun w => (w, Ret w).

Definition modify (f : World -> World) : M () := fun w => (f w, Ret ()).

(** Lifting of a pure computation that may raise. *)
Definition lift {A} (r : result A) : M A := fun w => (w, r).

(** The [except] clauses of a [try]: the first clause whose classes accept
    the exception runs; with none, the exception goes on. *)
Fixpoint dispatch {A} (clauses : list ((pyexn -> bool) * M A)) (e : pyexn)
    : M A :=
  match clauses with
  | [] => raise e
  | (catches, handler) :: rest =>
    if catches e then handler else dispatch rest e
  end.

(** [try: body  except ...]; the effects of the body up to the exception
    stay. *)
Definition try_except {A} (body : M A) (clauses : list ((pyexn -> bool) * M A))
    : M A := fun w =>
  match body w with
  | (w', Ret a) => (w', Ret a)
  | (w', Raise e) => dispatch clauses e w'
  end.

(** [except Exception]: every class of [pyexn] derives from [Exception]. *)
Definition Exception (e : pyexn) : bool := true.

Definition logger (l : log_level) : M () := modify (with_journal (cons l)).

(** [datetime.now().isoformat()] *)
Definition now : M pystr := fun w => (with_tick S w, Ret (clock w (tick w))).

(* ===================================================================== *)
(** * Persistence: [_load_data] and [_save_data] *)
(* ===================================================================== *)

Module Files.
Definition predictions_json : string := "predictions.json".
Definition processed_json : string := "processed.json".
Definition last_prediction_time_json : string := "last_prediction_time.json".
Definition channels_config_json : string := "channels_config.json".
Definition sequential_history_json : string := "sequential_history.json".
Definition inter_data_json : string := "inter_data.json".
Definition inter_mode_status_json : string := "inter_mode_status.json".
Definition smart_rules_json : string := "smart_rules.json".
End Files.
Import Files.

Section Persistence.
Context `{PyRuntime}.

(** [open(filename, 'r')] and [json.load]. *)
Definition json_load (filename : string) : M pyval := fun w =>
  match disk w !! filename with
  | None => (w, Raise FileNotFoundError)
  | Some FGarbled => (w, Raise JSONDecodeError)
  | Some FUndecodable => (w, Raise UnicodeDecodeError)
  | Some (FJson j) => (w, Ret (json_to_py j))
  end.

Definition key_atom (k : pykey) : pyatom :=
  match k with
  | KInt z => AInt z
  | KStr s => AStr s
  end.

(** [set(data)] *)
Definition py_set (data : pyval) : result pyval :=
  match data with
  | PyList l =>
    match mapM value_atom l with
    | Some atoms => Ret (PySet (list_to_set atoms))
    | None => Raise TypeError
    end
  | PyStr s => Ret (PySet (list_to_set (map (fun c => AStr [c]) s)))
  | PyDict d => Ret (PySet (list_to_set (map (fun kv => key_atom kv.1) d)))
  | PySet s => Ret (PySet s)
  | PyNone | PyBool _ | PyInt _ | PyFloat _ => Raise TypeError
  end.

(** [isinstance(data, (int, float))]; [bool] is a subclass of [int]. *)
Definition is_int_or_float (data : pyval) : bool :=
  match data with
  | PyBool _ | PyInt _ | PyFloat _ => true
  | _ => false
  end.

(** [int(f)] for a float: truncation toward zero. *)
Definition float_to_int (f : spec_float) : result Z :=
  match f with
  | S754_zero _ => Ret 0
  | S754_infinity _ => Raise OverflowError
  | S754_nan => Raise ValueError
  | S754_finite s m e =>
    let a := if 0 <=? e then Z.pos m * 2 ^ e else Z.pos m / 2 ^ (- e) in
    Ret (if s then - a else a)
  end.

(** [int(data)] for a number. *)
Definition int_of_number (data : pyval) : result Z :=
  match data with
  | PyBool b => Ret (if b then 1 else 0)
  | PyInt z => Ret z
  | PyFloat f => float_to_int f
  | _ => Raise TypeError
  end.

(** [data.get(key, fallback)]: only a dictionary has the method. *)
Definition py_get (data : pyval) (key : pykey) (fallback : pyval)
    : result pyval :=
  match data with
  | PyDict d => Ret (default fallback (Dict.get d key))
  | _ => Raise AttributeError
  end.

(** [{int(k): v for k, v in data.items()}] *)
Definition int_keys (data : pyval) : result pyval :=
  match data with
  | PyDict d =>
    let entry (kv : pykey * pyval) : option (pykey * pyval) :=
      match kv.1 with
      | KStr s => (fun z => (KInt z, kv.2)) <$> py_int s
      | KInt z => Some (KInt z, kv.2)
      end in
    match mapM entry d with
    | Some l => Ret (PyDict (Dict.of_pairs l))
    | None => Raise ValueError
    end
  | _ => Raise AttributeError
  end.

Definition active : pykey := KStr (py "active").

(** The empty float, [0.0]. *)
Definition float_zero : spec_float := S754_zero false.

(** The statements of [_load_data] between [json.load] and the end of
    the [with] block: the value returned for the loaded [data]. *)
Definition load_value (filename : string) (is_set is_scalar : bool)
    (data : pyval) : result pyval :=
  if is_set then py_set data
  else if is_scalar then
    if decide (filename = inter_mode_status_json)
    then py_get data active (PyBool false)
    else if is_int_or_float data
         then match int_of_number data with
              | Ret z => Ret (PyInt z)
              | Raise e => Raise e
              end
         else Ret data
  else if decide (filename = inter_data_json) then Ret data
  else if decide (filename = sequential_history_json) then int_keys data
  else if decide (filename = smart_rules_json) then Ret data
  else Ret data.

(** The defaults of the first [except] clause (file missing or not
    JSON). *)
Definition default_value (filename : string) (is_set is_scalar : bool)
    : pyval :=
  if is_set then PySet ∅
  else if is_scalar && bool_decide (filename = inter_mode_status_json)
       then PyBool false
  else if is_scalar then PyFloat float_zero
  else if decide (filename = inter_data_json) then PyList []
  else if decide (filename = sequential_history_json) then PyDict []
  else if decide (filename = smart_rules_json) then PyList []
  else PyDict [].

(** The value of the second [except] clause (any other exception). *)
Definition critical_value (filename : string) (is_set : bool) : pyval :=
  if is_set then PySet ∅
  else if decide (filename = inter_mode_status_json) then PyBool false
  else if decide (filename = inter_data_json) then PyList []
  else PyDict [].

Definition _load_data (filename : string) (is_set is_scalar : bool)
    : M pyval :=
  try_except
    (data ← json_load filename;
     lift (load_value filename is_set is_scalar data))
    [ (fun e => match e with
                | FileNotFoundError | JSONDecodeError => true
                | _ => false
                end,
       logger WARNING;;
       mret (default_value filename is_set is_scalar));
      (Exception,
       logger ERROR;;
       mret (critical_value filename is_set)) ].

(** [open(filename, 'w')]: empties the file unless opening fails. *)
Definition open_write (filename : string) : M () := fun w =>
  match wfault w filename with
  | OpenFails => (w, Raise OSError)
  | NoFault | WriteFails =>
    (with_disk (insert filename FGarbled) w, Ret ())
  end.

(** [json.dump(value, f, indent=4)] into the opened file: a value that is
    not serializable, or a failing write, leaves cut-off text. *)
Definition json_dump (value : pyval) (filename : string) : M () := fun w =>
  match py_to_json value with
  | None => (w, Raise TypeError)
  | Some j =>
    match wfault w filename with
    | NoFault => (with_disk (insert filename (FJson j)) w, Ret ())
    | OpenFails | WriteFails => (w, Raise OSError)
    end
  end.

(** The local [data_to_save] of [_save_data]. *)
Definition data_to_save (data : pyval) (filename : string) (w : World)
    : pyval :=
  if decide (filename = inter_mode_status_json)
  then PyDict [(active, PyBool (is_inter_mode_active (self w)))]
  else match data with
       | PySet s => PyList (atom_value <$> elements s)
       | _ => data
       end.

Definition _save_data (data : pyval) (filename : string) : M () :=
  w ← get_world;
  try_except
    (open_write filename;; json_dump (data_to_save data filename w) filename)
    [ (Exception, logger ERROR) ].

(** ** The aggregates as Python values *)

Definition py_strs (l : list pystr) : pyval := PyList (PyStr <$> l).

Definition py_of_record (r : GameRecord) : pyval :=
  PyDict [ (KStr (py "cartes"), py_strs (cartes r));
           (KStr (py "date"), PyStr (date r)) ].

Definition py_of_history (h : gmap Z GameRecord) : pyval :=
  PyDict ((fun kr : Z * GameRecord => (KInt kr.1, py_of_record kr.2))
            <$> map_to_list h).

Definition py_of_sample (e : TriggerSample) : pyval :=
  PyDict [ (KStr (py "numero_resultat"), PyInt (numero_resultat e));
           (KStr (py "declencheur"), py_strs (declencheur e));
           (KStr (py "numero_declencheur"), PyInt (numero_declencheur e));
           (KStr (py "carte_k"), PyStr (carte_k e));
           (KStr (py "date_resultat"), PyStr (date_resultat e)) ].

Definition py_of_inter_data (l : list TriggerSample) : pyval :=
  PyList (py_of_sample <$> l).

Definition py_of_rule (r : SmartRule) : pyval :=
  PyDict [ (KStr (py "cards"), py_strs (cards r));
           (KStr (py "count"), PyInt (count r)) ].

Definition py_of_rules (l : list SmartRule) : pyval :=
  PyList (py_of_rule <$> l).

Definition py_of_channel (c : option Z) : pyval :=
  match c with
  | Some z => PyInt z
  | None => PyNone
  end.

Definition _save_all_data : M () :=
  w ← get_world;
  _save_data (predictions (self w)) predictions_json;;
  _save_data (PySet (processed_messages (self w))) processed_json;;
  _save_data (last_prediction_time (self w)) last_prediction_time_json;;
  _save_data (py_of_inter_data (inter_data (self w))) inter_data_json;;
  _save_data (py_of_history (sequential_history (self w)))
    sequential_history_json;;
  _save_data (PyBool (is_inter_mode_active (self w)))
    inter_mode_status_json;;
  _save_data (py_of_rules (smart_rules (self w))) smart_rules_json.

Definition _save_channels_config : M () :=
  w ← get_world;
  let p := self w in
  let cfg :=
    Dict.set
      (Dict.set (config_data p) (KStr (py "target_channel_id"))
         (py_of_channel (target_channel_id p)))
      (KStr (py "prediction_channel_id"))
      (py_of_channel (prediction_channel_id p)) in
  modify (with_self
            (set_channels cfg (target_channel_id p)
               (prediction_channel_id p)));;
  _save_data (PyDict cfg) channels_config_json.

Definition set_channel_id (channel_id : Z) (channel_type : pystr) : M bool :=
  if decide (channel_type = py "source") then
    modify (with_self (fun p =>
      set_channels (config_data p) (Some channel_id)
        (prediction_channel_id p) p));;
    logger INFO;;
    _save_channels_config;;
    mret true
  else if decide (channel_type = py "prediction") then
    modify (with_self (fun p =>
      set_channels (config_data p) (target_channel_id p)
        (Some channel_id) p));;
    logger INFO;;
    _save_channels_config;;
    mret true
  else mret false.
End Persistence.

(* ===================================================================== *)
(** * Trigger-result correlation: [collect_inter_data] *)
(* ===================================================================== *)

Section Correlator.
Context `{PyRuntime}.

Definition check_value_K_in_first_parentheses (message : pystr)
    : M (option (pystr * pystr)) :=
  match first_K_card message with
  | Some card => logger INFO;; mret (Some card)
  | None => mret None
  end.

Definition record_game (game_number : Z) (r : GameRecord) : M () :=
  modify (with_self (fun p =>
    set_sequential_history (<[game_number := r]> (sequential_history p)) p)).

(** Step 4 of [collect_inter_data]: the dictionary comprehension that keeps
    the games not older than fifty games before the current one. *)
Definition drop_obsolete (game_number : Z) : M () :=
  let obsolete_game_limit := game_number - 50 in
  modify (with_self (fun p =>
    set_sequential_history
      (filter (fun kr : Z * GameRecord => obsolete_game_limit <= kr.1)
         (sequential_history p)) p)).

Definition collect_inter_data (game_number : Z) (message : pystr) : M () :=
  match extract_first_parentheses_content message with
  | None | Some [] => mret ()
  | Some first_group_content =>
    let first_two_cards := get_first_two_cards first_group_content in
    (if (length first_two_cards =? 2)%nat then
       d ← now;
       record_game game_number {| cartes := first_two_cards; date := d |}
     else mret ());;
    k_card_details ← check_value_K_in_first_parentheses message;
    match k_card_details with
    | Some (k_value, k_costume) =>
      let n_minus_2_game := game_number - 2 in
      w ← get_world;
      match sequential_history (self w) !! n_minus_2_game with
      | Some trigger_entry =>
        let trigger_cards := cartes trigger_entry in
        let is_duplicate :=
          existsb (fun entry => numero_resultat entry =? game_number)
            (inter_data (self w)) in
        if is_duplicate then mret ()
        else
          d ← now;
          let new_entry :=
            {| numero_resultat := game_number;
               declencheur := trigger_cards;
               numero_declencheur := n_minus_2_game;
               carte_k := k_value ++ k_costume;
               date_resultat := d |} in
          modify (with_self (fun p =>
            set_inter_data (inter_data p ++ [new_entry]) p));;
          _save_all_data;;
          logger INFO;;
          drop_obsolete game_number
      | None => drop_obsolete game_number
      end
    | None => drop_obsolete game_number
    end
  end.
End Correlator.

(* ===================================================================== *)
(** * Learned rules: [analyze_and_set_smart_rules] *)
(* ===================================================================== *)

Section SmartRules.
Context `{PyRuntime}.

(** The counting loop: [declencheur_counts[key] = declencheur_counts.get(key, 0) + 1]. *)
Definition count_step (counts : list (list pystr * Z)) (data : TriggerSample)
    : list (list pystr * Z) :=
  let declencheur_key := declencheur data in
  Dict.set counts declencheur_key
    (default 0 (Dict.get counts declencheur_key) + 1).

Definition declencheur_counts (log : list TriggerSample)
    : list (list pystr * Z) :=
  fold_left count_step log [].

(** [sorted(items, key=lambda item: item[1], reverse=True)]: Python's sort
    is stable, also with [reverse=True]. Insertion of an item before the
    first item of the sorted rest that does not count more. *)
Fixpoint insert_desc (x : list pystr * Z) (l : list (list pystr * Z))
    : list (list pystr * Z) :=
  match l with
  | [] => [x]
  | y :: l' => if y.2 <=? x.2 then x :: y :: l' else y :: insert_desc x l'
  end.

Definition sorted_desc (l : list (list pystr * Z)) : list (list pystr * Z) :=
  foldr insert_desc [] l.

Definition top_rules (log : list TriggerSample) : list SmartRule :=
  (fun dc : list pystr * Z => {| cards := dc.1; count := dc.2 |})
    <$> take 3 (sorted_desc (declencheur_counts log)).

(** [f"{cards['cards'][0]} {cards['cards'][1]} (x{cards['count']})"] *)
Definition rule_text (r : SmartRule) : result pystr :=
  match cards r with
  | c0 :: c1 :: _ =>
    Ret (c0 ++ py " " ++ c1 ++ py " (x" ++ py_str_int (count r) ++ py ")")
  | _ => Raise IndexError
  end.

Fixpoint rule_texts (l : list SmartRule) : result (list pystr) :=
  match l with
  | [] => Ret []
  | r :: l' =>
    match rule_text r with
    | Raise e => Raise e
    | Ret t =>
      match rule_texts l' with
      | Raise e => Raise e
      | Ret ts => Ret (t :: ts)
      end
    end
  end.

Definition analyze_and_set_smart_rules (initial_load : bool)
    : M (list pystr) :=
  w ← get_world;
  let top_3 := top_rules (inter_data (self w)) in
  modify (with_self (set_smart_rules top_3));;
  (match top_3 with
   | _ :: _ => modify (with_self (set_is_inter_mode_active true))
   | [] =>
     if negb initial_load
     then modify (with_self (set_is_inter_mode_active false))
     else mret ()
   end);;
  w ← get_world;
  _save_data (PyBool (is_inter_mode_active (self w))) inter_mode_status_json;;
  _save_data (py_of_rules (smart_rules (self w))) smart_rules_json;;
  lift (rule_texts top_3).
End SmartRules.


(* ===================================================================== *)
(** * Rule engine: [should_predict] *)
(* ===================================================================== *)

(** Truth value of a channel identifier: [None] and [0] are false. *)
Definition channel_set (c : option Z) : bool :=
  match c with
  | Some z => negb (z =? 0)
  | None => false
  end.

(** Truth value of [predicted_value]: [None] and the empty string are
    false. *)
Definition value_set (v : option pystr) : bool :=
  match v with
  | Some (_ :: _) => true
  | _ => false
  end.

Definition decision : Type := bool * option Z * option pystr.

(** [return False, None, None] *)
Definition no_prediction : decision := (false, None, None).

(** Modelled from the spec: the end of [should_predict], which the source at
    hand cuts off inside the gap rule. Section 4.3 of the specification: "If
    none match, no prediction is made", and a firing decision carries the
    message's game number and the predicted rank. *)
Definition final_decision (game_number : Z) (predicted_value : option pystr)
    : decision :=
  if value_set predicted_value
  then (true, Some game_number, predicted_value)
  else no_prediction.

Section RuleEngine.
Context `{PyRuntime}.

(** The body of the third static rule (absence of K), of which the source
    at hand keeps only the first lines: whatever it computes for
    [predicted_value]. *)
Variable gap_rule : Z -> pystr -> M (option pystr).

Definition ten : pystr := py "10".

Definition should_predict (message : pystr) : M decision :=
  w ← get_world;
  if negb (channel_set (target_channel_id (self w))) then mret no_prediction
  else
  match extract_game_number message with
  | None | Some 0 => mret no_prediction
  | Some game_number =>
    collect_inter_data game_number message;;
    if has_pending_indicators message then mret no_prediction
    else if negb (has_completion_indicators message)
    then logger INFO;; mret no_prediction
    else
      let predicted_value : option pystr := None in
      predicted_value ←
        match extract_first_parentheses_content message with
        | None | Some [] => mret predicted_value
        | Some first_group_content =>
          let card_details := extract_card_details first_group_content in
          let card_values := fst <$> card_details in
          let all_matches := Re.findall match_paren message in
          let second_group_content := default [] (all_matches !! 1%nat) in
          let second_group_details :=
            extract_card_details second_group_content in
          let second_group_values := fst <$> second_group_details in
          w ← get_world;
          predicted_value ←
            (if is_inter_mode_active (self w)
                && bool_decide (smart_rules (self w) <> [])
             then
               let current_trigger_cards :=
                 get_first_two_cards first_group_content in
               if existsb
                    (fun rule =>
                       bool_decide (cards rule = current_trigger_cards))
                    (smart_rules (self w))
               then logger INFO;; mret (Some K)
               else mret predicted_value
             else mret predicted_value);
          if negb (value_set predicted_value) then
            let has_10_heart :=
              existsb
                (fun vc : pystr * pystr =>
                   bool_decide (vc.1 = ten) && bool_decide (vc.2 = heart))
                card_details in
            if has_10_heart then logger INFO;; mret (Some K)
            else if negb (value_set predicted_value) then
              match extract_total_score message with
              | Some total_score =>
                if negb (total_score =? 0) && (45 <=? total_score)
                then logger INFO;; mret (Some K)
                else mret predicted_value
              | None => mret predicted_value
              end
            else if negb (value_set predicted_value)
                    && bool_decide (inter_data (self w) <> [])
            then gap_rule game_number message
            else mret predicted_value
          else mret predicted_value
        end;
      mret (final_decision game_number predicted_value)
  end.
End RuleEngine.

(* ===================================================================== *)
(** * The channel-message path of [handlers.py] *)
(* ===================================================================== *)

(** The action dictionary handed to [process_prediction_action]. *)
Record Action := {
  type : pystr;
  predicted_game : Z;
  new_message : pystr
}.

Section Handlers.
Context `{PyRuntime}.
Variable gap_rule : Z -> pystr -> M (option pystr).

(** The [inter_default] branch of [_handle_callback_query]: back to the
    static rules. *)
Definition inter_default : M () :=
  modify (with_self (set_is_inter_mode_active false));;
  w ← get_world;
  _save_data (PyBool (is_inter_mode_active (self w))) inter_mode_status_json.

(** Methods of [CardPredictor] the handler calls that are not in the
    source at hand, and the delivery of an action (HTTP). *)
Variable _verify_prediction_common : pystr -> bool -> M (option Action).
Variable make_prediction : Z -> pystr -> M pystr.
Variable process_prediction_action : Action -> M ().

(** Returns the new-prediction action it hands to
    [process_prediction_action], if any. *)
Definition _process_channel_message (message_text : pystr) (is_edited : bool)
    : M (option Action) :=
  match message_text with
  | [] => mret None
  | _ :: _ =>
    verification_action ← _verify_prediction_common message_text is_edited;
    (match verification_action with
     | Some a => process_prediction_action a
     | None => mret ()
     end);;
    d ← should_predict gap_rule message_text;
    let '(should_predict, game_number, predicted_value) := d in
    if should_predict : bool then
      match game_number, predicted_value with
      | Some game_number, Some predicted_value =>
        new_prediction_message ← make_prediction game_number predicted_value;
        let action :=
          {| type := py "new_prediction";
             predicted_game := game_number + 2;
             new_message := new_prediction_message |} in
        process_prediction_action action;;
        mret (Some action)
      | _, _ => raise TypeError
      end
    else mret None
  end.
End Handlers.

(* ===================================================================== *)
(** * Reasoning about methods *)
(* ===================================================================== *)

(** [frame w w']: from [w] to [w'] only the disk and the log changed. *)
Definition frame (w w' : World) : Prop :=
  self w' = self w /\ wfault w' = wfault w /\ clock w' = clock w
  /\ tick w' = tick w.

(** [returns m Q w]: run in [w], the method [m] returns normally, with a
    value and a final world that satisfy [Q]. *)
Definition returns {A} (m : M A) (Q : A -> World -> Prop) (w : World) : Prop :=
  match m w with
  | (w', Ret a) => Q a w'
  | (_, Raise _) => False
  end.


(** The predictor [__init__] builds when no file exists yet: every load
    falls back to its default, and no channel is bound. *)
Definition fresh_predictor : CardPredictor :=
  {| predictions := PyDict [];
     processed_messages := ∅;
     last_prediction_time := PyFloat float_zero;
     config_data := [];
     target_channel_id := None;
     prediction_channel_id := None;
     sequential_history := ∅;
     inter_data := [];
     is_inter_mode_active := false;
     smart_rules := [];
     prediction_cooldown := 30 |}.

(** The outcome games of the sample log. *)
Definition outcome_games (p : CardPredictor) : list Z :=
  numero_resultat <$> inter_data p.

Section Reachability.
Context `{PyRuntime}.
Variable gap_rule : Z -> pystr -> M (option pystr).

(** The states the bot can be in: it starts fresh, then runs the methods
    of the source at hand on messages and operator actions; between two
    of them anything but the predictor object may change (disk, faults,
    clock, log). *)
Inductive reachable : World -> Prop :=
  | reach_fresh w :
      self w = fresh_predictor -> reachable w
  | reach_message message w :
      reachable w -> reachable (should_predict gap_rule message w).1
  | reach_collect game_number message w :
      reachable w -> reachable (collect_inter_data game_number message w).1
  | reach_analyze initial_load w :
      reachable w -> reachable (analyze_and_set_smart_rules initial_load w).1
  | reach_channel channel_id channel_type w :
      reachable w -> reachable (set_channel_id channel_id channel_type w).1
  | reach_default w :
      reachable w -> reachable (inter_default w).1
  | reach_env w w' :
      reachable w -> self w' = self w -> reachable w'.
End Reachability.

(** [same_but_log w w']: the two worlds differ at most in their log. *)
Definition same_but_log (w w' : World) : Prop :=
  self w' = self w /\ disk w' = disk w /\ tick w' = tick w
  /\ wfault w' = wfault w /\ clock w' = clock w.

(** A world without write faults, with an empty disk and log, whose clock
    reads the number of the reading. *)
Definition quiet_world (p : CardPredictor) : World :=
  {| self := p;
     disk := ∅;
     wfault := fun _ => NoFault;
     clock := fun n => digits_of (N.of_nat n);
     tick := 0;
     journal := [] |}.

(** A gap rule for the examples. *)
Definition no_gap_rule : Z -> pystr -> M (option pystr) :=
  fun _ _ => mret None.

(** The guards of [should_predict] that come before the Correlator step:
    the game number the step will run with, if they let the message
    through. *)
Definition passes_guards `{PyRuntime} (message : pystr) (w : World)
    : option Z :=
  if channel_set (target_channel_id (self w)) then
    match extract_game_number message with
    | Some 0 | None => None
    | Some game_number => Some game_number
    end
  else None.

Arguments extract_first_parentheses_content : simpl never.
Arguments extract_game_number : simpl never.
Arguments extract_total_score : simpl never.
Arguments extract_card_details : simpl never.
Arguments get_first_two_cards : simpl never.
Arguments first_K_card : simpl never.
Arguments has_pending_indicators : simpl never.
Arguments has_completion_indicators : simpl never.
Arguments _save_data : simpl never.
Arguments _save_all_data : simpl never.
Arguments top_rules : simpl never.
Arguments py : simpl never.

(** [ends m P w]: however [m] ends when run in [w], normally or with an
    exception, the world it leaves satisfies [P]. *)
Definition ends {A} (m : M A) (P : World -> Prop) (w : World) : Prop :=
  P (m w).1.

(** The ASCII digits, and the evaluation of a digit string, most significant
    digit first. *)
Definition ascii_digit (c : N) : Prop := (48 <= c <= 57)%N.
Definition horner (a : Z) (c : N) : Z := 10 * a + (Z.of_N c - 48).

(** A value that [json.dump] then [json.load] give back unchanged. *)
Definition json_stable (v : pyval) : Prop :=
  exists j, py_to_json v = Some j /\ json_to_py j = v.

Definition is_str_key (k : pykey) : Prop :=
  match k with KStr _ => True | KInt _ => False end.

(** [round_trip data filename is_set is_scalar v w]: in [w], saving [data]
    under [filename] and loading the file back gives [v]. *)
Definition round_trip `{PyRuntime} (data : pyval) (filename : string)
    (is_set is_scalar : bool) (v : pyval) (w : World) : Prop :=
  returns (_save_data data filename;; _load_data filename is_set is_scalar)
    (fun v' _ => v' = v) w.

(** The message of the specification's static-rule scenario. *)
Definition scenario_message : pystr := py "#N50. (10♥️ 3♦️) ✅".

(** ** Samples for the examples, and the ranking of triggers *)

(** ** Ranking of the triggers, in the words of the specification *)

(** The trigger pairs of the log, in log order. *)
Definition triggers (log : list TriggerSample) : list (list pystr) :=
  declencheur <$> log.

(** How often a trigger occurs. *)
Definition occurrences (t : list pystr) (ts : list (list pystr)) : Z :=
  Z.of_nat (length (filter (fun x => x = t) ts)).

(** Where a trigger is first seen. *)
Fixpoint first_index (t : list pystr) (ts : list (list pystr)) : nat :=
  match ts with
  | [] => 0
  | x :: ts' => if decide (x = t) then 0 else S (first_index t ts')
  end.

(** [t1] ranks before [t2]: it occurs more often, or as often and it is
    seen first. *)
Definition ranks_before (ts : list (list pystr)) (t1 t2 : list pystr) : Prop :=
  occurrences t2 ts < occurrences t1 ts
  \/ (occurrences t1 ts = occurrences t2 ts
      /\ (first_index t1 ts < first_index t2 ts)%nat).

(** The counting step on a key. *)
Definition bump (counts : list (list pystr * Z)) (key : list pystr)
    : list (list pystr * Z) :=
  Dict.set counts key (default 0 (Dict.get counts key) + 1).

(** The keys a counting loop over [ks] adds to a dictionary whose keys are
    [seen], in the order it adds them. *)
Fixpoint new_keys (seen ks : list (list pystr)) : list (list pystr) :=
  match ks with
  | [] => []
  | t :: ks' =>
    if decide (t ∈ seen) then new_keys seen ks'
    else t :: new_keys (seen ++ [t]) ks'
  end.

(** [x] is placed before [y] by the descending stable sort of the counted
    triggers of [ts]. *)
Definition outranks (ts : list (list pystr)) (x y : list pystr * Z) : Prop :=
  y.2 < x.2
  \/ (x.2 = y.2 /\ (first_index x.1 ts < first_index y.1 ts)%nat).

(** The trigger pair of the specification's learning scenario. *)
Definition seven_nine : list pystr := [py "7♦️"; py "9♠️"].

(** [x] is first seen before [y]. *)
Definition first_seen (ts : list (list pystr)) (x y : list pystr * Z) : Prop :=
  (first_index x.1 ts < first_index y.1 ts)%nat.

(** The rule made of a counted trigger. *)
Definition to_rule (dc : list pystr * Z) : SmartRule :=
  {| cards := dc.1; count := dc.2 |}.

(** Three samples triggered by (7♦️, 9♠️) and one by another pair. *)
Definition learning_log : list TriggerSample :=
  let sample (n : Z) (d : list pystr) :=
    {| numero_resultat := n; declencheur := d; numero_declencheur := n - 2;
       carte_k := py "K♠️"; date_resultat := py "2024-01-01T00:00:00" |} in
  [ sample 3 seven_nine; sample 7 [py "2♣️"; py "5♥️"];
    sample 12 seven_nine; sample 20 seven_nine ].

(** A game record for the examples. *)
Definition sample_record : GameRecord :=
  {| cartes := [py "A♠️"; py "2♥️"]; date := py "2024-01-01T00:00:00" |}.

(** A world whose source channel has been bound by the operator. *)
Definition bound_world : World :=
  (set_channel_id (-1001) (py "source") (quiet_world fresh_predictor)).1.

(** The world after two games: a lead pair at game 1, a King at game 3. *)
Definition two_games_world : World :=
  (should_predict no_gap_rule (py "#N3. (K♥️ 2♣️) ✅")
     (should_predict no_gap_rule (py "#N1. (7♦️ 9♠️) ✅") bound_world).1).1.

(** A world that remembers game 1. *)
Definition old_game_world : World :=
  quiet_world (set_sequential_history {[ 1 := sample_record ]} fresh_predictor).


(** ** Cards, samples and records as the bot builds them *)

(** The four alternatives of the suit group of the card pattern. *)
Definition suits : list pystr := [py "♠️"; py "♥️"; py "♦️"; py "♣️"].

(** The ranks the letter class of the card pattern gives once in upper
    case: the four letters, and the Kelvin sign, which [re.IGNORECASE]
    lets through and [str.upper] leaves alone. *)
Definition faces : list pystr := [py "A"; py "K"; py "Q"; py "J"; [0x212A%N]].

(** A rank as [extract_card_details] returns it: a run of decimal digits or
    a face. *)
Definition is_rank `{PyRuntime} (value : pystr) : Prop :=
  (value <> [] /\ forallb is_digit value = true) \/ value ∈ faces.

(** A card as [get_first_two_cards] writes it: a rank then a suit. *)
Definition is_card `{PyRuntime} (card : pystr) : Prop :=
  exists value costume,
    card = value ++ costume /\ is_rank value /\ costume ∈ suits.

(** A sample as [collect_inter_data] builds it: a King two games after a
    lead pair. *)
Definition sample_ok `{PyRuntime} (e : TriggerSample) : Prop :=
  numero_declencheur e = numero_resultat e - 2
  /\ length (declencheur e) = 2%nat
  /\ Forall is_card (declencheur e)
  /\ exists costume, costume ∈ suits /\ carte_k e = K ++ costume.

(** A game record as [collect_inter_data] builds it: a lead pair. *)
Definition record_ok `{PyRuntime} (r : GameRecord) : Prop :=
  length (cartes r) = 2%nat /\ Forall is_card (cartes r).

(** The learning state holds only what the Correlator builds. *)
Definition learning_ok `{PyRuntime} (p : CardPredictor) : Prop :=
  (forall k r, sequential_history p !! k = Some r -> record_ok r)
  /\ Forall sample_ok (inter_data p).

(** [stored filename is_set is_scalar v w]: in [w] the file holds a document
    that [_load_data] turns into [v]. *)
Definition stored `{PyRuntime} (filename : string) (is_set is_scalar : bool)
    (v : pyval) (w : World) : Prop :=
  exists j,
    disk w !! filename = Some (FJson j)
    /\ load_value filename is_set is_scalar (json_to_py j) = Ret v.

(** [only_learning p p']: from [p] to [p'] nothing changed but the history
    and the sample log. *)
Definition only_learning (p p' : CardPredictor) : Prop :=
  predictions p' = predictions p
  /\ processed_messages p' = processed_messages p
  /\ last_prediction_time p' = last_prediction_time p
  /\ config_data p' = config_data p
  /\ target_channel_id p' = target_channel_id p
  /\ prediction_channel_id p' = prediction_channel_id p
  /\ is_inter_mode_active p' = is_inter_mode_active p
  /\ smart_rules p' = smart_rules p
  /\ prediction_cooldown p' = prediction_cooldown p.

(** The world after one game: a lead pair at game 1. *)
Definition one_game_world : World :=
  (should_predict no_gap_rule (py "#N1. (7♦️ 9♠️) ✅") bound_world).1.

(* ===================================================================== *)
(** * Proofs *)
(* ===================================================================== *)

Section MonadLaws.
Lemma bind_run {A B} (m : M A) (f : A -> M B) (w : World) :
  (m ≫= f) w = match m w with
               | (w', Ret a) => f a w'
               | (w', Raise e) => (w', Raise e)
               end.
Proof. reflexivity. Qed.

Lemma returns_ret {A} (a : A) Q w : Q a w -> returns (mret a) Q w.
Proof. exact id. Qed.

Lemma returns_bind {A B} (m : M A) (f : A -> M B) Q w :
  returns m (fun a => returns (f a) Q) w -> returns (m ≫= f) Q w.
Proof.
  unfold returns. rewrite bind_run. destruct (m w) as [w' [a|e]]; auto.
Qed.

Lemma returns_bind_inv {A B} (m : M A) (f : A -> M B) Q w :
  returns (m ≫= f) Q w -> returns m (fun a => returns (f a) Q) w.
Proof.
  unfold returns. rewrite bind_run. destruct (m w) as [w' [a|e]]; auto.
Qed.

Lemma returns_mono {A} (m : M A) (Q Q' : A -> World -> Prop) w :
  returns m Q w -> (forall a w', Q a w' -> Q' a w') -> returns m Q' w.
Proof.
  unfold returns. destruct (m w) as [w' [a|e]]; auto.
Qed.

Lemma returns_run {A} (m : M A) Q w :
  returns m Q w <-> exists a w', m w = (w', Ret a) /\ Q a w'.
Proof.
  unfold returns. split.
  - destruct (m w) as [w' [a|e]]; [eauto | contradiction].
  - intros (a & w' & -> & HQ). exact HQ.
Qed.

Lemma returns_modify f (Q : () -> World -> Prop) w :
  Q () (f w) -> returns (modify f) Q w.
Proof. exact id. Qed.

Lemma returns_get_world (Q : World -> World -> Prop) w :
  Q w w -> returns get_world Q w.
Proof. exact id. Qed.

Lemma returns_logger l (Q : () -> World -> Prop) w :
  Q () (with_journal (cons l) w) -> returns (logger l) Q w.
Proof. exact id. Qed.

Lemma returns_now (Q : pystr -> World -> Prop) w :
  Q (clock w (tick w)) (with_tick S w) -> returns now Q w.
Proof. exact id. Qed.

Lemma ends_bind {A B} (m : M A) (f : A -> M B) P w :
  returns m (fun a => ends (f a) P) w -> ends (m ≫= f) P w.
Proof.
  unfold returns, ends. rewrite bind_run.
  destruct (m w) as [w' [a|e]]; [auto | contradiction].
Qed.

Lemma ends_returns {A} (m : M A) (Q : A -> World -> Prop) P w :
  returns m Q w -> (forall a w', Q a w' -> P w') -> ends m P w.
Proof.
  unfold returns, ends. destruct (m w) as [w' [a|e]]; [eauto | contradiction].
Qed.

Lemma frame_refl w : frame w w.
Proof. now unfold frame. Qed.

Lemma frame_trans w1 w2 w3 : frame w1 w2 -> frame w2 w3 -> frame w1 w3.
Proof.
  unfold frame. intros (?&?&?&?) (?&?&?&?). repeat split; congruence.
Qed.
End MonadLaws.

(** One step of symbolic execution of a method under [returns]. *)
Ltac run_step :=
  lazymatch goal with
  | |- returns (mret _) _ _ => apply returns_ret
  | |- returns (_ ≫= _) _ _ => apply returns_bind
  | |- returns (modify _) _ _ => apply returns_modify
  | |- returns get_world _ _ => apply returns_get_world
  | |- returns (logger _) _ _ => apply returns_logger
  | |- returns now _ _ => apply returns_now
  | |- returns (if ?b then _ else _) _ _ => destruct b eqn:?
  | |- returns (match ?x with _ => _ end) _ _ => destruct x eqn:?
  end.

Section PersistenceFrames.
Context `{PyRuntime}.

Lemma _save_data_frame data filename w :
  exists w', _save_data data filename w = (w', Ret ()) /\ frame w w'.
Proof.
  unfold _save_data, try_except, open_write, json_dump.
  rewrite bind_run. cbn. rewrite bind_run.
  destruct (wfault w filename) eqn:E; cbn.
  - destruct (py_to_json _); cbn; [rewrite E|];
      eexists; (split; [reflexivity | done]).
  - eexists; (split; [reflexivity | done]).
  - destruct (py_to_json _); cbn; [rewrite E|];
      eexists; (split; [reflexivity | done]).
Qed.

Lemma returns_save_data data filename (Q : () -> World -> Prop) w :
  (forall w', frame w w' -> Q () w') ->
  returns (_save_data data filename) Q w.
Proof.
  intros HQ. apply returns_run.
  destruct (_save_data_frame data filename w) as (w' & E & F). eauto.
Qed.

Lemma returns_save_all_data (Q : () -> World -> Prop) w :
  (forall w', frame w w' -> Q () w') -> returns _save_all_data Q w.
Proof.
  intros HQ. unfold _save_all_data.
  apply returns_bind, returns_get_world.
  do 6 (apply returns_bind, returns_save_data; intros ? ?).
  apply returns_save_data. intros ? ?. apply HQ.
  eauto 10 using frame_trans.
Qed.
End PersistenceFrames.

(* ===================================================================== *)
(** * The Correlator *)
(* ===================================================================== *)

Section CorrelatorFacts.
Context `{PyRuntime}.

Ltac run_collect :=
  unfold collect_inter_data, check_value_K_in_first_parentheses,
    record_game, drop_obsolete;
  repeat first [ run_step | apply returns_save_all_data; intros ? ? ].

(** The duplicate check of [collect_inter_data]. *)
Lemma is_duplicate_spec game_number (log : list TriggerSample) :
  existsb (fun entry => numero_resultat entry =? game_number) log = true
  <-> game_number ∈ numero_resultat <$> log.
Proof.
  rewrite existsb_exists, list_elem_of_fmap. split.
  - intros (e & Hin & He). exists e. apply Z.eqb_eq in He.
    split; [done | now apply list_elem_of_In].
  - intros (e & -> & Hin). exists e.
    split; [now apply list_elem_of_In | apply Z.eqb_refl].
Qed.

Lemma is_duplicate_false game_number (log : list TriggerSample) :
  existsb (fun entry => numero_resultat entry =? game_number) log = false
  <-> game_number ∉ numero_resultat <$> log.
Proof.
  rewrite <- is_duplicate_spec. now destruct (existsb _ _).
Qed.

(** What [collect_inter_data] does to the sample log: nothing, or one
    sample appended for the current game, which the log did not have as
    an outcome. Nothing but the history and the log changes. *)
Lemma collect_inter_data_log game_number message w :
  returns (collect_inter_data game_number message)
    (fun _ w' =>
       (inter_data (self w') = inter_data (self w)
        \/ exists e,
             inter_data (self w') = inter_data (self w) ++ [e]
             /\ numero_resultat e = game_number
             /\ game_number ∉ outcome_games (self w))
       /\ target_channel_id (self w') = target_channel_id (self w)
       /\ is_inter_mode_active (self w') = is_inter_mode_active (self w)
       /\ smart_rules (self w') = smart_rules (self w)) w.
Proof.
  run_collect; cbn in *.
  all: try (repeat split; auto; fail).
  all: match goal with
       | F : frame _ _ |- _ => destruct F as (Hs & _); rewrite Hs; cbn
       end.
  all: split; [right | auto].
  all: eexists; split; [reflexivity | split; [reflexivity |]].
  all: now apply is_duplicate_false.
Qed.

Lemma returns_of_run {A} (m : M A) (Q : A -> World -> Prop) w w' a :
  m w = (w', Ret a) -> Q a w' -> returns m Q w.
Proof. intros E HQ. apply returns_run. eauto. Qed.

(** After a message with a lead pair, the record of its game is that
    pair, stamped with the clock reading of this processing. *)
Lemma collect_inter_data_record game_number message w content :
  extract_first_parentheses_content message = Some content ->
  content <> [] ->
  length (get_first_two_cards content) = 2%nat ->
  returns (collect_inter_data game_number message)
    (fun _ w' =>
       sequential_history (self w') !! game_number
       = Some {| cartes := get_first_two_cards content;
                 date := clock w (tick w) |}) w.
Proof.
  intros Hc Hne Hlen. unfold collect_inter_data. rewrite Hc.
  destruct content as [|c0 content]; [done|].
  apply Nat.eqb_eq in Hlen. rewrite Hlen.
  unfold check_value_K_in_first_parentheses, record_game, drop_obsolete.
  repeat first [ run_step | apply returns_save_all_data; intros ? ? ].
  all: cbn in *.
  all: try match goal with
       | F : frame _ _ |- _ => destruct F as (Hs & _); rewrite Hs; cbn
       end.
  all: try (apply map_lookup_filter_Some; split; [| cbn; lia]).
  all: apply lookup_insert_eq.
Qed.

(** When the message has a first group and its game is not yet an outcome
    of the log, the history is pruned. *)
Lemma collect_inter_data_prunes game_number message w content :
  extract_first_parentheses_content message = Some content ->
  content <> [] ->
  game_number ∉ outcome_games (self w) ->
  returns (collect_inter_data game_number message)
    (fun _ w' =>
       forall k r, sequential_history (self w') !! k = Some r ->
                   game_number - 50 <= k) w.
Proof.
  intros Hc Hne Hnew. unfold collect_inter_data. rewrite Hc.
  destruct content as [|c0 content]; [done|].
  unfold check_value_K_in_first_parentheses, record_game, drop_obsolete.
  repeat first [ run_step | apply returns_save_all_data; intros ? ? ].
  all: cbn in *.
  all: try match goal with
       | E : existsb _ _ = true |- _ =>
         apply is_duplicate_spec in E; contradiction
       end.
  all: try match goal with
       | F : frame _ _ |- _ => destruct F as (Hs & _); rewrite Hs; cbn
       end.
  all: intros k r Hk; apply map_lookup_filter_Some in Hk as [_ Hk];
    exact Hk.
Qed.

(** Without a first group, nothing happens at all. *)
Lemma collect_inter_data_no_group game_number message w :
  extract_first_parentheses_content message = None
  \/ extract_first_parentheses_content message = Some [] ->
  collect_inter_data game_number message w = (w, Ret ()).
Proof.
  unfold collect_inter_data. now intros [-> | ->].
Qed.

Lemma collect_inter_data_returns game_number message w :
  exists w', collect_inter_data game_number message w = (w', Ret ()).
Proof.
  destruct (proj1 (returns_run _ _ _)
              (collect_inter_data_log game_number message w))
    as ([] & w' & E & _).
  eauto.
Qed.
End CorrelatorFacts.

(* ===================================================================== *)
(** * The rule engine *)
(* ===================================================================== *)

Section RuleEngineFacts.
Context `{PyRuntime}.
Variable gap_rule : Z -> pystr -> M (option pystr).

Lemma should_predict_guarded message w :
  passes_guards message w = None ->
  should_predict gap_rule message w = (w, Ret no_prediction).
Proof.
  unfold passes_guards, should_predict. rewrite bind_run. cbn.
  destruct (channel_set _); [| done].
  destruct (extract_game_number message) as [[| |]|]; done.
Qed.

(** Past the guards, [should_predict] runs the Correlator step first and
    changes nothing but the log afterwards. *)
Lemma should_predict_collects message w game_number :
  passes_guards message w = Some game_number ->
  exists w1,
    collect_inter_data game_number message w = (w1, Ret ())
    /\ returns (should_predict gap_rule message)
         (fun d w' =>
            same_but_log w1 w'
            /\ (has_pending_indicators message = true
                \/ has_completion_indicators message = false ->
                d = no_prediction)
            /\ (d = no_prediction
                \/ exists v, d = (true, Some game_number, Some v))) w.
Proof.
  unfold passes_guards. intros Hg.
  destruct (channel_set _) eqn:Hch; [| done].
  destruct (collect_inter_data_returns game_number message w) as (w1 & E).
  exists w1. split; [exact E|].
  unfold should_predict. apply returns_bind, returns_get_world.
  rewrite Hch. cbn [negb].
  destruct (extract_game_number message) as [[|g|g]|]; try done.
  all: injection Hg as <-.
  all: apply returns_bind, (returns_of_run _ _ _ _ _ E).
  all: repeat run_step.
  all: try congruence.
  all: try match goal with
       | E : negb (value_set (Some ?k)) = ?b |- _ => discriminate E
       end.
  all: repeat match goal with
       | E : negb _ = true |- _ => apply negb_true_iff in E
       | E : negb _ = false |- _ => apply negb_false_iff in E
       end.
  all: (split; [unfold same_but_log; cbn; tauto | split]).
  all: try (intros [? | ?]; congruence).
  all: try (intros _; reflexivity).
  all: unfold final_decision; cbn; try destruct (value_set _); eauto.
Qed.
End RuleEngineFacts.

(* ===================================================================== *)
(** * Reachable states *)
(* ===================================================================== *)

Section ReachableFacts.
Context `{PyRuntime}.
Variable gap_rule : Z -> pystr -> M (option pystr).

Lemma analyze_keeps_log initial_load w :
  ends (analyze_and_set_smart_rules initial_load)
    (fun w' => inter_data (self w') = inter_data (self w)
               /\ smart_rules (self w') = top_rules (inter_data (self w))) w.
Proof.
  unfold analyze_and_set_smart_rules.
  apply ends_bind, returns_get_world.
  apply ends_bind, returns_modify.
  apply ends_bind.
  eapply returns_mono with
    (Q := fun _ w' =>
            inter_data (self w') = inter_data (self w)
            /\ smart_rules (self w') = top_rules (inter_data (self w))).
  { repeat run_step; cbn; auto. }
  intros [] w1 [Hlog Hrules].
  apply ends_bind, returns_get_world.
  apply ends_bind, returns_save_data. intros w2 (Hs2 & _).
  apply ends_bind, returns_save_data. intros w3 (Hs3 & _).
  unfold ends, lift. cbn. now rewrite Hs3, Hs2.
Qed.

Lemma set_channel_id_keeps_log channel_id channel_type w :
  returns (set_channel_id channel_id channel_type)
    (fun _ w' => inter_data (self w') = inter_data (self w)) w.
Proof.
  unfold set_channel_id, _save_channels_config.
  repeat first [ run_step | apply returns_save_data; intros ? (Hs & _) ].
  all: cbn; try rewrite Hs; reflexivity.
Qed.

Lemma inter_default_keeps_log w :
  returns inter_default
    (fun _ w' => inter_data (self w') = inter_data (self w)) w.
Proof.
  unfold inter_default.
  repeat first [ run_step | apply returns_save_data; intros ? (Hs & _) ].
  now rewrite Hs.
Qed.

Lemma should_predict_log message w :
  returns (should_predict gap_rule message)
    (fun _ w' =>
       inter_data (self w') = inter_data (self w)
       \/ exists e game_number,
            extract_game_number message = Some game_number
            /\ inter_data (self w') = inter_data (self w) ++ [e]
            /\ numero_resultat e = game_number
            /\ game_number ∉ outcome_games (self w)) w.
Proof.
  destruct (passes_guards message w) as [g|] eqn:Hg.
  - destruct (should_predict_collects gap_rule _ _ _ Hg) as (w1 & E & Hr).
    eapply returns_mono; [exact Hr|]. cbn.
    intros d w' ((Hs & _) & _). rewrite Hs.
    pose proof (collect_inter_data_log g message w) as Hc.
    unfold returns in Hc. rewrite E in Hc.
    destruct Hc as ([Hc | (e & Hc & He & Hn)] & _); [now left | right].
    exists e, g. repeat split; try done.
    unfold passes_guards in Hg. destruct (channel_set _); [| done].
    destruct (extract_game_number message) as [[| |]|]; congruence.
  - unfold returns. rewrite (should_predict_guarded gap_rule _ _ Hg).
    now left.
Qed.

Lemma NoDup_snoc_outcome (log : list TriggerSample) e :
  NoDup (numero_resultat <$> log) ->
  numero_resultat e ∉ numero_resultat <$> log ->
  NoDup (numero_resultat <$> (log ++ [e])).
Proof.
  intros Hnd Hnew. rewrite fmap_app. apply NoDup_app. repeat split.
  - exact Hnd.
  - intros x Hx Hx'. cbn in Hx'. apply list_elem_of_singleton in Hx'.
    congruence.
  - cbn. apply NoDup_singleton.
Qed.

Lemma reachable_outcomes_unique w :
  reachable gap_rule w -> NoDup (outcome_games (self w)).
Proof.
  unfold outcome_games.
  induction 1 as [w Hw | m w _ IH | g m w _ IH | b w _ IH
                 | c t w _ IH | w _ IH | w w' _ IH Hs].
  - rewrite Hw. cbn. constructor.
  - pose proof (should_predict_log m w) as Hr.
    unfold returns in Hr.
    destruct (should_predict gap_rule m w) as [w' [d|e]]; [| done]. cbn.
    destruct Hr as [-> | (e & g & _ & -> & He & Hn)]; [done|].
    apply NoDup_snoc_outcome; [done | now rewrite He].
  - pose proof (collect_inter_data_log g m w) as Hr.
    unfold returns in Hr.
    destruct (collect_inter_data g m w) as [w' [d|e]]; [| done]. cbn.
    destruct Hr as ([-> | (e & -> & He & Hn)] & _); [done|].
    apply NoDup_snoc_outcome; [done | now rewrite He].
  - destruct (analyze_keeps_log b w) as [-> _]. exact IH.
  - pose proof (set_channel_id_keeps_log c t w) as Hr.
    unfold returns in Hr.
    destruct (set_channel_id c t w) as [w' [d|e]]; [| done].
    cbn. now rewrite Hr.
  - pose proof (inter_default_keeps_log w) as Hr.
    unfold returns in Hr.
    destruct (inter_default w) as [w' [d|e]]; [| done].
    cbn. now rewrite Hr.
  - now rewrite Hs.
Qed.
End ReachableFacts.

(* ===================================================================== *)
(** * Conversions between integers and strings *)
(* ===================================================================== *)

Section IntStrFacts.
Context `{PyRuntime}.

Lemma py_decimal_digit c : ascii_digit c -> py_decimal c = Some (Z.of_N c - 48).
Proof.
  intros [Hl Hu]. rewrite py_decimal_ascii by lia. unfold ascii_decimal.
  apply N.leb_le in Hl, Hu. now rewrite Hl, Hu.
Qed.

Lemma py_isspace_digit c : ascii_digit c -> py_isspace c = false.
Proof.
  intros [Hl Hu]. rewrite py_isspace_ascii by lia. unfold ascii_isspace.
  destruct (N.leb_spec 9 c), (N.leb_spec c 13), (N.leb_spec 28 c),
    (N.leb_spec c 32); cbn; try reflexivity; lia.
Qed.

Lemma lstrip_head c s : py_isspace c = false -> lstrip (c :: s) = c :: s.
Proof. intros E. cbn. now rewrite E. Qed.

(** A string that neither starts nor ends with white space is its own
    strip. *)
Lemma strip_id (s : pystr) :
  Forall (fun c => py_isspace c = false) s -> strip s = s.
Proof.
  intros Hs. unfold strip.
  assert (Hl : forall t : pystr, Forall (fun c => py_isspace c = false) t -> lstrip t = t).
  { intros [|c t] Ht; [done|]. apply lstrip_head. now inversion Ht. }
  rewrite (Hl s Hs), Hl by now apply Forall_rev.
  apply rev_involutive.
Qed.

Lemma int_body_digits (s : pystr) a :
  Forall ascii_digit s -> int_body a s = Some (fold_left horner s a).
Proof.
  revert a. induction s as [|c s IH]; intros a Hs; [done|].
  inversion Hs as [|? ? Hc Hs']; subst. cbn.
  rewrite (py_decimal_digit c Hc). now rewrite IH.
Qed.

Lemma int_unsigned_digits (s : pystr) :
  s <> [] -> Forall ascii_digit s ->
  int_unsigned s = Some (fold_left horner s 0).
Proof.
  destruct s as [|c s]; [done|]. intros _ Hs.
  inversion Hs as [|? ? Hc Hs']; subst. cbn.
  rewrite (py_decimal_digit c Hc), int_body_digits by done.
  cbn. unfold horner at 2. repeat f_equal; lia.
Qed.
End IntStrFacts.

Lemma digits_fuel_ascii fuel n acc :
  Forall ascii_digit acc -> Forall ascii_digit (digits_fuel fuel n acc).
Proof.
  revert n acc. induction fuel as [|f IH]; intros n acc Hacc; [done|].
  cbn [digits_fuel].
  assert (Forall ascii_digit ((48 + n mod 10)%N :: acc)).
  { constructor; [| done]. unfold ascii_digit.
    pose proof (N.mod_upper_bound n 10 ltac:(done)).
    generalize dependent (n mod 10)%N. intros; lia. }
  destruct (n <? 10)%N; auto.
Qed.

Lemma digits_fuel_value fuel n acc :
  (n < 2 ^ N.of_nat fuel)%N ->
  fold_left horner (digits_fuel fuel n acc) 0
  = fold_left horner acc (Z.of_N n).
Proof.
  revert n acc. induction fuel as [|f IH]; intros n acc Hn.
  - cbn in *. assert (n = 0%N) as -> by lia. done.
  - cbn [digits_fuel]. destruct (N.ltb_spec n 10) as [Hlt | Hge].
    + cbn. f_equal. unfold horner. rewrite N.mod_small by done. lia.
    + rewrite IH.
      * cbn. f_equal. unfold horner.
        rewrite N2Z.inj_add, N2Z.inj_mod, N2Z.inj_div. cbn.
        pose proof (Z.div_mod (Z.of_N n) 10). lia.
      * apply N.Div0.div_lt_upper_bound.
        rewrite Nat2N.inj_succ, N.pow_succ_r' in Hn. lia.
Qed.

Lemma size_nat_size p : Pos.size_nat p = Pos.to_nat (Pos.size p).
Proof. induction p; cbn; rewrite ?Pos2Nat.inj_succ; auto. Qed.

Lemma digits_of_bound n : (n < 2 ^ N.of_nat (S (N.size_nat n)))%N.
Proof.
  destruct n as [|p]; [done|]. cbn [N.size_nat].
  rewrite size_nat_size, Nat2N.inj_succ, positive_nat_N.
  pose proof (N.size_gt (N.pos p)) as Hs. cbn [N.size] in Hs.
  rewrite N.pow_succ_r'. lia.
Qed.

Lemma digits_of_ascii n : Forall ascii_digit (digits_of n).
Proof. apply digits_fuel_ascii. constructor. Qed.

Lemma digits_fuel_nonempty fuel n acc :
  acc <> [] -> digits_fuel fuel n acc <> [].
Proof.
  revert n acc. induction fuel as [|f IH]; intros n acc Hacc; [done|].
  cbn [digits_fuel]. destruct (n <? 10)%N; [done|]. now apply IH.
Qed.

Lemma digits_of_nonempty n : digits_of n <> [].
Proof.
  unfold digits_of. cbn [digits_fuel]. destruct (n <? 10)%N; [done|].
  now apply digits_fuel_nonempty.
Qed.

Lemma digits_of_value n : fold_left horner (digits_of n) 0 = Z.of_N n.
Proof. unfold digits_of. now rewrite digits_fuel_value by apply digits_of_bound. Qed.

Section IntRoundTrip.
Context `{PyRuntime}.

(** [int(str(z)) == z] *)
Lemma py_int_str z : py_int (py_str_int z) = Some z.
Proof.
  unfold py_int, py_str_int.
  pose proof (digits_of_ascii (Z.abs_N z)) as Hd.
  pose proof (digits_of_nonempty (Z.abs_N z)) as Hne.
  rewrite strip_id.
  2:{ apply Forall_app. split.
      - destruct (z <? 0); repeat constructor.
        rewrite py_isspace_ascii by done. reflexivity.
      - eapply Forall_impl; [exact Hd|]. apply py_isspace_digit. }
  destruct (Z.ltb_spec z 0) as [Hneg | Hpos]; cbn [app].
  - rewrite N.eqb_refl, int_unsigned_digits, digits_of_value by done.
    cbn. f_equal. lia.
  - destruct (digits_of (Z.abs_N z)) as [|c s] eqn:E; [done|].
    inversion Hd as [|? ? Hc _]; subst.
    assert ((c =? 45)%N = false) as -> by (apply N.eqb_neq; unfold ascii_digit in Hc; lia).
    assert ((c =? 43)%N = false) as -> by (apply N.eqb_neq; unfold ascii_digit in Hc; lia).
    rewrite int_unsigned_digits by done.
    rewrite <- E, digits_of_value. f_equal. lia.
Qed.

Lemma py_str_int_inj z z' : py_str_int z = py_str_int z' -> z = z'.
Proof.
  intros E. apply (f_equal py_int) in E. rewrite !py_int_str in E.
  congruence.
Qed.
End IntRoundTrip.

(* ===================================================================== *)
(** * Persistence *)
(* ===================================================================== *)

Section DictFacts.
Context {Key V : Type} `{EqDecision Key}.

Lemma dict_set_fresh (d : list (Key * V)) k v :
  k ∉ d.*1 -> Dict.set d k v = d ++ [(k, v)].
Proof.
  induction d as [|[k' v'] d IH]; intros Hk; [done|].
  cbn in *. apply not_elem_of_cons in Hk as [Hne Hk].
  destruct (decide (k' = k)); [congruence|]. now rewrite IH.
Qed.

Lemma dict_fold_fresh (l acc : list (Key * V)) :
  NoDup (acc.*1 ++ l.*1) ->
  fold_left (fun d '(k, v) => Dict.set d k v) l acc = acc ++ l.
Proof.
  revert acc. induction l as [|[k v] l IH]; intros acc Hnd.
  - now rewrite app_nil_r.
  - cbn in *. apply NoDup_app in Hnd as (Ha & Hdisj & Hl).
    apply NoDup_cons in Hl as [Hk Hl].
    rewrite dict_set_fresh.
    2:{ intros Hin. apply (Hdisj _ Hin). left. }
    rewrite IH, <- app_assoc; [done|].
    rewrite fmap_app. cbn. rewrite <- app_assoc. cbn.
    apply NoDup_app. repeat split; [done | | now apply NoDup_cons].
    intros x Hx Hx'. apply (Hdisj _ Hx). exact Hx'.
Qed.

(** Inserting pairs with distinct keys builds the list of the pairs. *)
Lemma dict_of_pairs_nodup (l : list (Key * V)) :
  NoDup l.*1 -> Dict.of_pairs l = l.
Proof. intros Hnd. unfold Dict.of_pairs. now rewrite dict_fold_fresh. Qed.
End DictFacts.

Section JsonFacts.
Lemma py_to_json_list (l : list pyval) (js : list json) :
  Forall2 (fun x j => py_to_json x = Some j) l js ->
  py_to_json (PyList l) = Some (JArr js).
Proof.
  intros Hl. cbn.
  enough (E : (fix go (l : list pyval) : option (list json) :=
                 match l with
                 | [] => Some []
                 | x :: l' =>
                   match py_to_json x, go l' with
                   | Some j, Some js => Some (j :: js)
                   | _, _ => None
                   end
                 end) l = Some js) by now rewrite E.
  induction Hl as [|x j l js Hx _ IH]; [done|]. now rewrite Hx, IH.
Qed.

Lemma py_to_json_dict (d : list (pykey * pyval)) (o : list (pystr * json)) :
  Forall2 (fun kx kj => json_key kx.1 = kj.1 /\ py_to_json kx.2 = Some kj.2)
    d o ->
  py_to_json (PyDict d) = Some (JObj o).
Proof.
  intros Hd. cbn.
  enough (E : (fix go (d : list (pykey * pyval))
                 : option (list (pystr * json)) :=
                 match d with
                 | [] => Some []
                 | (k, x) :: d' =>
                   match py_to_json x, go d' with
                   | Some j, Some js => Some ((json_key k, j) :: js)
                   | _, _ => None
                   end
                 end) d = Some o) by now rewrite E.
  induction Hd as [|[k x] [s j] d o [Hk Hx] _ IH]; [done|].
  cbn in *. now rewrite Hx, IH, Hk.
Qed.

Lemma json_to_py_obj (o : list (pystr * json)) :
  json_to_py (JObj o)
  = PyDict (Dict.of_pairs ((fun kj => (KStr kj.1, json_to_py kj.2)) <$> o)).
Proof.
  cbn. do 2 f_equal. induction o as [|[k x] o IH]; [done|].
  cbn. now rewrite IH.
Qed.

Lemma json_stable_list (l : list pyval) :
  Forall json_stable l -> json_stable (PyList l).
Proof.
  intros Hl.
  assert (exists js, Forall2 (fun x j => py_to_json x = Some j) l js
                     /\ json_to_py <$> js = l) as (js & Hjs & Hback).
  { induction Hl as [|x l (j & Hj & Hb) _ (js & Hjs & Hback)].
    - exists []. split; [constructor | done].
    - exists (j :: js). split; [now constructor | cbn; congruence]. }
  exists (JArr js). split; [now apply py_to_json_list|].
  cbn. now rewrite <- Hback.
Qed.

(** A dictionary with distinct string keys and stable values is stable. *)
Lemma json_stable_dict (d : list (pykey * pyval)) :
  Forall is_str_key d.*1 -> NoDup d.*1 -> Forall json_stable d.*2 ->
  json_stable (PyDict d).
Proof.
  intros Hk Hnd Hv.
  assert (exists o,
    Forall2 (fun kx kj => json_key kx.1 = kj.1
                          /\ py_to_json kx.2 = Some kj.2) d o
    /\ (fun kj => (KStr kj.1, json_to_py kj.2)) <$> o = d)
    as (o & Ho & Hback).
  { clear Hnd. induction d as [|[k x] d IH].
    - exists []. split; [constructor | done].
    - cbn in *. inversion Hk as [|? ? Hk1 Hk2]; subst.
      inversion Hv as [|? ? (j & Hj & Hb) Hv2]; subst.
      destruct (IH Hk2 Hv2) as (o & Ho & Hback).
      destruct k as [z|s]; [done|].
      exists ((s, j) :: o). split; [constructor; [done|exact Ho] |].
      cbn. now rewrite Hback. }
  exists (JObj o). split; [now apply py_to_json_dict|].
  rewrite json_to_py_obj, Hback. f_equal. now apply dict_of_pairs_nodup.
Qed.
End JsonFacts.

Section AggregateFacts.
Context `{PyRuntime}.

Lemma json_stable_strs (l : list pystr) : json_stable (py_strs l).
Proof.
  apply json_stable_list, Forall_fmap, Forall_forall.
  intros s _. now exists (JStr s).
Qed.

Lemma json_stable_sample e : json_stable (py_of_sample e).
Proof.
  apply json_stable_dict.
  - repeat constructor.
  - refine (bool_decide_unpack _ _). vm_compute. exact I.
  - repeat constructor; try apply json_stable_strs.
    all: eexists; split; reflexivity.
Qed.

Lemma json_stable_rule r : json_stable (py_of_rule r).
Proof.
  apply json_stable_dict.
  - repeat constructor.
  - refine (bool_decide_unpack _ _). vm_compute. exact I.
  - repeat constructor; try apply json_stable_strs.
    all: eexists; split; reflexivity.
Qed.

Lemma json_stable_record r : json_stable (py_of_record r).
Proof.
  apply json_stable_dict.
  - repeat constructor.
  - refine (bool_decide_unpack _ _). vm_compute. exact I.
  - repeat constructor; try apply json_stable_strs.
    all: eexists; split; reflexivity.
Qed.

Lemma json_stable_inter_data log : json_stable (py_of_inter_data log).
Proof.
  apply json_stable_list, Forall_fmap, Forall_forall.
  intros e _. apply json_stable_sample.
Qed.

Lemma json_stable_rules rules : json_stable (py_of_rules rules).
Proof.
  apply json_stable_list, Forall_fmap, Forall_forall.
  intros e _. apply json_stable_rule.
Qed.

Lemma json_stable_atoms (l : list pyatom) :
  json_stable (PyList (atom_value <$> l)).
Proof.
  apply json_stable_list, Forall_fmap, Forall_forall.
  intros [| | | |] _; eexists; split; reflexivity.
Qed.

Lemma py_set_atoms (l : list pyatom) :
  py_set (PyList (atom_value <$> l)) = Ret (PySet (list_to_set l)).
Proof.
  unfold py_set.
  assert (mapM value_atom (atom_value <$> l) = Some l) as ->; [| done].
  apply mapM_Some. apply Forall2_fmap_l, Forall_Forall2_diag, Forall_forall.
  now intros [| | | |] _.
Qed.

(** An integer-keyed dictionary with distinct keys and stable values
    comes back, once its keys are converted with [int]. *)
Lemma int_keys_dump (d : list (Z * pyval)) :
  NoDup d.*1 -> Forall json_stable d.*2 ->
  exists j,
    py_to_json (PyDict (prod_map KInt id <$> d)) = Some j
    /\ int_keys (json_to_py j) = Ret (PyDict (prod_map KInt id <$> d)).
Proof.
  intros Hnd Hv.
  assert (exists o : list (pystr * json),
    Forall2 (fun kx kj => json_key kx.1 = kj.1
                          /\ py_to_json kx.2 = Some kj.2)
      (prod_map KInt id <$> d) o
    /\ (fun kj => (KStr kj.1, json_to_py kj.2)) <$> o
       = prod_map (fun z => KStr (py_str_int z)) id <$> d)
    as (o & Ho & Hback).
  { clear Hnd. induction d as [|[k x] d IH].
    - exists []. split; [constructor | done].
    - cbn in *. inversion Hv as [|? ? (j & Hj & Hb) Hv2]; subst.
      destruct (IH Hv2) as (o & Ho & Hback).
      exists ((py_str_int k, j) :: o).
      split; [constructor; [done|exact Ho] |].
      cbn. now rewrite Hback. }
  exists (JObj o). split; [now apply py_to_json_dict|].
  assert (Hfst : forall (f : Z -> pykey) (d : list (Z * pyval)),
            (prod_map f id <$> d).*1 = f <$> d.*1).
  { intros f d'. rewrite <- !list_fmap_compose. now apply list_fmap_ext. }
  rewrite json_to_py_obj, Hback, dict_of_pairs_nodup.
  2:{ rewrite Hfst. apply NoDup_fmap_2; [| done].
      intros z z' E. injection E. apply py_str_int_inj. }
  unfold int_keys.
  assert (mapM
            (fun kv : pykey * pyval =>
               match kv.1 with
               | KStr s => (fun z => (KInt z, kv.2)) <$> py_int s
               | KInt z => Some (KInt z, kv.2)
               end)
            (prod_map (fun z => KStr (py_str_int z)) id <$> d)
          = Some (prod_map KInt id <$> d)) as ->.
  { apply mapM_Some, Forall2_fmap, Forall_Forall2_diag, Forall_forall.
    intros [k x] _. cbn. now rewrite py_int_str. }
  rewrite dict_of_pairs_nodup; [done|].
  rewrite Hfst. apply NoDup_fmap_2; [| done]. now intros z z' [=].
Qed.

Lemma py_of_history_dump (h : gmap Z GameRecord) :
  exists j,
    py_to_json (py_of_history h) = Some j
    /\ int_keys (json_to_py j) = Ret (py_of_history h).
Proof.
  destruct (int_keys_dump (prod_map id py_of_record <$> map_to_list h))
    as (j & Hj & Hb).
  - rewrite <- list_fmap_compose.
    erewrite list_fmap_ext; [apply NoDup_fst_map_to_list|]. now intros [].
  - rewrite <- list_fmap_compose. apply Forall_fmap, Forall_forall.
    intros [k r] _. apply json_stable_record.
  - rewrite <- list_fmap_compose in Hj, Hb. exists j. split.
    + rewrite <- Hj. unfold py_of_history.
      do 2 f_equal; try (apply list_fmap_ext; now intros []).
    + rewrite Hb. unfold py_of_history.
      do 2 f_equal; try (apply list_fmap_ext; now intros []).
Qed.
End AggregateFacts.
Section SaveLoad.
Context `{PyRuntime}.

(** A save that meets no fault leaves the document in the file. *)
Lemma _save_data_writes data filename w j :
  wfault w filename = NoFault ->
  py_to_json (data_to_save data filename w) = Some j ->
  returns (_save_data data filename)
    (fun _ w' => disk w' !! filename = Some (FJson j) /\ frame w w') w.
Proof.
  intros Hf Hj. unfold returns, _save_data, try_except, open_write, json_dump.
  rewrite bind_run. cbn. rewrite bind_run, Hf. cbn. rewrite Hj, Hf. cbn.
  split; [apply lookup_insert_eq | done].
Qed.

(** Loading a file that holds a document returns what [load_value] makes
    of it. *)
Lemma _load_data_reads filename is_set is_scalar w j v :
  disk w !! filename = Some (FJson j) ->
  load_value filename is_set is_scalar (json_to_py j) = Ret v ->
  _load_data filename is_set is_scalar w = (w, Ret v).
Proof.
  intros Hd Hv. unfold _load_data, try_except, json_load, lift.
  rewrite bind_run, Hd, Hv. reflexivity.
Qed.

Lemma round_trip_intro data filename is_set is_scalar v w j :
  wfault w filename = NoFault ->
  py_to_json (data_to_save data filename w) = Some j ->
  load_value filename is_set is_scalar (json_to_py j) = Ret v ->
  round_trip data filename is_set is_scalar v w.
Proof.
  intros Hf Hj Hv. unfold round_trip. apply returns_bind.
  eapply returns_mono; [exact (_save_data_writes _ _ _ j Hf Hj)|].
  intros [] w' [Hd _]. cbn.
  unfold returns. now rewrite (_load_data_reads _ _ _ _ _ _ Hd Hv).
Qed.

(** [_load_data] never raises. *)
Lemma _load_data_returns filename is_set is_scalar w :
  exists v w', _load_data filename is_set is_scalar w = (w', Ret v).
Proof.
  unfold _load_data, try_except.
  destruct ((json_load filename ≫= _) w) as [w' [v|e]]; [eauto|].
  destruct e; cbn; eauto.
Qed.

(** A missing file, or one that is not JSON, gives the default of the
    aggregate, after a warning. *)
Lemma _load_data_default filename is_set is_scalar w :
  disk w !! filename = None \/ disk w !! filename = Some FGarbled ->
  _load_data filename is_set is_scalar w
  = (with_journal (cons WARNING) w,
     Ret (default_value filename is_set is_scalar)).
Proof.
  intros Hd. unfold _load_data, try_except, json_load.
  rewrite bind_run. now destruct Hd as [-> | ->].
Qed.

(** A file whose bytes are not text takes the second clause. *)
Lemma _load_data_critical filename is_set is_scalar w :
  disk w !! filename = Some FUndecodable ->
  _load_data filename is_set is_scalar w
  = (with_journal (cons ERROR) w, Ret (critical_value filename is_set)).
Proof.
  intros Hd. unfold _load_data, try_except, json_load.
  rewrite bind_run. now rewrite Hd.
Qed.

Lemma float_to_int_exact f z z' :
  float_to_int f = Ret z -> float_exact_int f = Some z' -> z' = z.
Proof.
  destruct f as [s|s| |s m e]; cbn; try congruence.
  destruct (0 <=? e); [congruence|].
  destruct (_ =? 0); congruence.
Qed.
End SaveLoad.

(** C1 (as amended). Without write faults, saving and loading back gives the
    very value saved for the processed-message set, the sample log, the
    game-record window, the learned-mode flag and the smart rules. A
    last-prediction timestamp comes back as an integer: an integer
    unchanged, a float truncated toward zero, hence equal to what was saved
    exactly when that float had an integral value. *)
Theorem save_load_round_trip `{PyRuntime} (w : World) :
  (forall filename, wfault w filename = NoFault) ->
  (forall s, round_trip (PySet s) processed_json true false (PySet s) w)
  /\ (forall log,
        round_trip (py_of_inter_data log) inter_data_json false false
          (py_of_inter_data log) w)
  /\ (forall h,
        round_trip (py_of_history h) sequential_history_json false false
          (py_of_history h) w)
  /\ round_trip (PyBool (is_inter_mode_active (self w)))
       inter_mode_status_json false true
       (PyBool (is_inter_mode_active (self w))) w
  /\ (forall rules,
        round_trip (py_of_rules rules) smart_rules_json false false
          (py_of_rules rules) w)
  /\ (forall z,
        round_trip (PyInt z) last_prediction_time_json false true (PyInt z) w)
  /\ (forall f z,
        float_to_int f = Ret z ->
        round_trip (PyFloat f) last_prediction_time_json false true
          (PyInt z) w
        /\ (py_eq (PyInt z) (PyFloat f) = true <-> float_exact_int f <> None)).
Proof.
  intros Hf.
  split; [| split; [| split; [| split; [| split; [| split]]]]].
  - intros s. destruct (json_stable_atoms (elements s)) as (j & Hj & Hb).
    eapply round_trip_intro; [apply Hf | exact Hj |].
    rewrite Hb. unfold load_value.
    now rewrite py_set_atoms, list_to_set_elements_L.
  - intros log. destruct (json_stable_inter_data log) as (j & Hj & Hb).
    eapply round_trip_intro; [apply Hf | exact Hj |]. now rewrite Hb.
  - intros h. destruct (py_of_history_dump h) as (j & Hj & Hb).
    eapply round_trip_intro; [apply Hf | exact Hj |]. exact Hb.
  - eapply round_trip_intro; [apply Hf | reflexivity |]. reflexivity.
  - intros rules. destruct (json_stable_rules rules) as (j & Hj & Hb).
    eapply round_trip_intro; [apply Hf | exact Hj |]. now rewrite Hb.
  - intros z. eapply round_trip_intro; [apply Hf | reflexivity |].
    reflexivity.
  - intros f z Hz. split.
    + eapply round_trip_intro; [apply Hf | reflexivity |].
      cbn. now rewrite Hz.
    + cbn. destruct (float_exact_int f) as [z'|] eqn:E; [| done].
      rewrite (float_to_int_exact f z z' Hz E), Z.eqb_refl. done.
Qed.

Lemma save_load_round_trip_witness :
  (forall filename, wfault (quiet_world fresh_predictor) filename = NoFault)
  /\ round_trip (PyInt 7) last_prediction_time_json false true (PyInt 7)
       (quiet_world fresh_predictor).
Proof.
  split; [reflexivity|].
  exact (proj1 (proj2 (proj2 (proj2 (proj2 (proj2
           (save_load_round_trip (quiet_world fresh_predictor)
              (fun _ => eq_refl))))))) 7).
Defined.

(** The timestamp 1.5 does not survive: it is loaded back as [1]. *)
Lemma timestamp_round_trip_fails :
  ~ returns
      (_save_data (PyFloat (S754_finite false 3 (-1)))
         last_prediction_time_json;;
       _load_data last_prediction_time_json false true)
      (fun v _ => py_eq v (PyFloat (S754_finite false 3 (-1))) = true)
      (quiet_world fresh_predictor).
Proof. vm_compute. discriminate. Qed.

(** A prediction map keyed by game number comes back keyed by strings:
    [_load_data] converts the keys of the game-record window only. *)
Example predictions_keys_become_strings :
  let stored := PyDict [(KInt 52, PyDict [(KStr (py "status"), PyStr (py "pending"))])] in
  let loaded := PyDict [(KStr (py "52"), PyDict [(KStr (py "status"), PyStr (py "pending"))])] in
  round_trip stored predictions_json false false loaded
    (quiet_world fresh_predictor)
  /\ py_eq loaded stored = false.
Proof. vm_compute. split; reflexivity. Qed.

(* ===================================================================== *)
(** * Evaluating the tokenizer under any runtime *)
(* ===================================================================== *)

Section RegexFacts.
Context {A : Type}.

(** Maximal munch: when the run of [p] ends where the continuation
    accepts, the greedy star takes the whole run. *)
Lemma star_munch (p : N -> bool) (k : pystr -> pystr -> option A)
    (run rest acc : pystr) r :
  Forall (fun c => p c = true) run ->
  match rest with c :: _ => p c = false | [] => True end ->
  k (acc ++ run) rest = Some r ->
  Re.star p k acc (run ++ rest) = Some r.
Proof.
  intros Hrun Hrest. revert acc.
  induction Hrun as [|c run Hc _ IH]; intros acc Hk.
  - rewrite app_nil_r in Hk. cbn.
    destruct rest as [|c rest]; [done|]. cbn. now rewrite Hrest.
  - cbn. rewrite Hc, IH; [done|]. now rewrite <- app_assoc.
Qed.

Lemma plus_munch (p : N -> bool) (k : pystr -> pystr -> option A)
    (run rest : pystr) r :
  run <> [] ->
  Forall (fun c => p c = true) run ->
  match rest with c :: _ => p c = false | [] => True end ->
  k run rest = Some r ->
  Re.plus p k (run ++ rest) = Some r.
Proof.
  destruct run as [|c run]; [done|]. intros _ Hrun Hrest Hk.
  inversion Hrun as [|? ? Hc Hrun']; subst. cbn. rewrite Hc.
  now apply star_munch.
Qed.

Lemma search_here (m : pystr -> option A) s r :
  m s = Some r -> Re.search m s = Some r.
Proof. intros E. destruct s; cbn; now rewrite E. Qed.

Lemma search_next (m : pystr -> option A) c s :
  m (c :: s) = None -> Re.search m (c :: s) = Re.search m s.
Proof. intros E. cbn. now rewrite E. Qed.

Lemma findall_here (m : pystr -> option (A * nat)) c s a n :
  m (c :: s) = Some (a, n) ->
  Re.findall m (c :: s) = a :: Re.findall_skip m (n - 1) s.
Proof. intros E. unfold Re.findall. cbn. now rewrite E. Qed.
End RegexFacts.

Section Scenario.
Context `{PyRuntime}.

Lemma is_digit_ascii c : ascii_digit c -> is_digit c = true.
Proof. intros Hc. unfold is_digit. now rewrite py_decimal_digit. Qed.

Lemma is_digit_other c :
  (c < 128)%N /\ ascii_decimal c = None \/ In c bot_symbols ->
  is_digit c = false.
Proof.
  unfold is_digit. intros [[Hc Hd] | Hc].
  - now rewrite py_decimal_ascii, Hd.
  - now rewrite py_decimal_symbol.
Qed.

(** [int] of a string of ASCII digits. *)
Lemma py_int_digits (s : pystr) :
  s <> [] -> Forall ascii_digit s -> py_int s = Some (fold_left horner s 0).
Proof.
  intros Hne Hs. unfold py_int. rewrite strip_id.
  2:{ eapply Forall_impl; [exact Hs|]. apply py_isspace_digit. }
  destruct s as [|c s]; [done|].
  inversion Hs as [|? ? Hc _]; subst. unfold ascii_digit in Hc.
  assert ((c =? 45)%N = false) as -> by (apply N.eqb_neq; lia).
  assert ((c =? 43)%N = false) as -> by (apply N.eqb_neq; lia).
  now apply int_unsigned_digits.
Qed.

Ltac digits := repeat constructor; unfold ascii_digit; lia.

Ltac eval_py :=
  repeat match goal with
  | |- context [py ?s] =>
    let l := eval vm_compute in (py s) in change (py s) with l
  end.

Lemma game_number_of_hash_zero : extract_game_number (py "#N0.") = Some 0.
Proof.
  unfold extract_game_number. eval_py.
  rewrite (search_here match_hash_n _ [48%N]).
  - now rewrite py_int_digits by (done || digits).
  - apply (plus_munch _ _ [48%N] [46%N]); try done.
    + repeat constructor. apply is_digit_ascii. digits.
    + apply is_digit_other. left. done.
Qed.

(** [plus_munch] at a run and a rest given as literals. *)
Ltac munch run rest :=
  let a := eval vm_compute in run in
  let b := eval vm_compute in rest in
  apply (plus_munch _ _ a b).

Lemma game_number_of_blue_zero : extract_game_number (py "🔵0🔵") = Some 0.
Proof.
  unfold extract_game_number. eval_py.
  replace (Re.search match_hash_n [128309; 48; 128309]%N)
    with (@None pystr) by (vm_compute; reflexivity).
  rewrite (search_here match_blue _ [48%N]).
  - now rewrite py_int_digits by (done || digits).
  - munch (py "0") (py "🔵"); try done.
    + repeat constructor. apply is_digit_ascii. digits.
    + apply is_digit_other. right. cbn. tauto.
Qed.

Lemma scenario_game_number : extract_game_number scenario_message = Some 50.
Proof.
  unfold extract_game_number, scenario_message. eval_py.
  rewrite (search_here match_hash_n _ [53; 48]%N).
  - now rewrite py_int_digits by (done || digits).
  - munch (py "50") (py ". (10♥️ 3♦️) ✅"); try done.
    + repeat constructor; apply is_digit_ascii; digits.
    + apply is_digit_other. left. done.
Qed.

(** A string with no white space at either end is its own strip. *)
Lemma strip_ends (s : pystr) c t c' t' :
  s = c :: t -> rev s = c' :: t' ->
  py_isspace c = false -> py_isspace c' = false ->
  strip s = s.
Proof.
  intros Hs Hr Hc Hc'. unfold strip.
  rewrite Hs at 1. rewrite lstrip_head by done. rewrite <- Hs, Hr.
  rewrite lstrip_head by done. rewrite <- Hr. apply rev_involutive.
Qed.

Lemma scenario_first_group :
  extract_first_parentheses_content scenario_message
  = Some (py "10♥️ 3♦️").
Proof.
  unfold extract_first_parentheses_content, scenario_message. eval_py.
  match goal with
  | |- context [Re.search match_paren ?s] =>
    let r := eval vm_compute in (Re.search match_paren s) in
    change (Re.search match_paren s) with r
  end.
  cbv iota beta. f_equal.
  eapply strip_ends; [reflexivity | vm_compute; reflexivity | |].
  - now rewrite py_isspace_ascii.
  - apply py_isspace_symbol. cbn. tauto.
Qed.

Lemma scenario_cards :
  exists rest,
    extract_card_details (py "10♥️ 3♦️") = (ten, heart) :: rest.
Proof.
  unfold extract_card_details, ten, heart. eval_py.
  match goal with
  | |- context [replace ?a ?b ?s] =>
    let r := eval vm_compute in (replace a b s) in
    change (replace a b s) with r
  end.
  match goal with
  | |- context [Re.findall match_card (?c :: ?s)] =>
    assert (E : match_card (c :: s)
                = Some (([49; 48]%N, [9829; 65039]%N), 4%nat))
  end.
  { unfold match_card.
    rewrite (plus_munch _ _ [49; 48]%N [9829; 65039; 32; 51; 9830; 65039]%N
               (([49; 48]%N, [9829; 65039]%N), 4%nat)); try done.
    - repeat constructor; apply is_digit_ascii; digits.
    - apply is_digit_other. right. cbn. tauto. }
  rewrite (findall_here _ _ _ _ _ E). cbn [map]. eauto.
Qed.
End Scenario.

(* ===================================================================== *)
(** * The claims *)
(* ===================================================================== *)

Section Claims.
Context `{PyRuntime}.
Variable gap_rule : Z -> pystr -> M (option pystr).

Lemma contains_char_spec c (s : pystr) : contains_char c s = true <-> c ∈ s.
Proof.
  unfold contains_char. rewrite existsb_exists. split.
  - intros (x & Hx & E). apply N.eqb_eq in E. subst.
    now apply list_elem_of_In.
  - intros Hc. exists c. split; [now apply list_elem_of_In | apply N.eqb_refl].
Qed.

Lemma passes_guards_Some message w game_number :
  passes_guards message w = Some game_number
  <-> channel_set (target_channel_id (self w)) = true
      /\ extract_game_number message = Some game_number
      /\ game_number <> 0.
Proof.
  unfold passes_guards. destruct (channel_set _).
  - destruct (extract_game_number message) as [[| |]|]; split;
      try (intros (? & ? & ?)); try intros ?; try congruence;
      repeat split; congruence.
  - split; [done | now intros (? & _)].
Qed.

Lemma passes_guards_None message w :
  passes_guards message w = None
  <-> channel_set (target_channel_id (self w)) = false
      \/ extract_game_number message = None
      \/ extract_game_number message = Some 0.
Proof.
  unfold passes_guards. destruct (channel_set _).
  - destruct (extract_game_number message) as [[| |]|]; split;
      try (intros [? | [? | ?]]); try intros ?; try congruence; auto.
  - split; auto.
Qed.

(** C2 (as amended). Processing a message that carries a lead pair writes
    the record of its game anew, whatever was there: the stored cards
    become this message's lead pair and the stored date the clock reading
    of this processing. So processing the same message twice leaves the
    stored cards as they were and refreshes the date. *)
Theorem game_record_last_write_wins game_number message content w :
  extract_first_parentheses_content message = Some content ->
  content <> [] ->
  length (get_first_two_cards content) = 2%nat ->
  returns (collect_inter_data game_number message)
    (fun _ w1 =>
       sequential_history (self w1) !! game_number
       = Some {| cartes := get_first_two_cards content;
                 date := clock w (tick w) |}
       /\ returns (collect_inter_data game_number message)
            (fun _ w2 =>
               sequential_history (self w2) !! game_number
               = Some {| cartes := get_first_two_cards content;
                         date := clock w1 (tick w1) |}) w1) w.
Proof.
  intros Hc Hne Hlen.
  eapply returns_mono;
    [exact (collect_inter_data_record _ _ w _ Hc Hne Hlen)|].
  intros [] w1 Hw1. split; [exact Hw1|].
  exact (collect_inter_data_record _ _ w1 _ Hc Hne Hlen).
Qed.

(** C3 (as amended). When the source channel is bound
    ([target_channel_id] is set) and the message has a non-zero game
    number, [should_predict] runs [collect_inter_data] before its
    pending and completion checks and changes nothing but the log
    afterwards: the Correlator step has run whether or not the message is
    pending, finished, or predicted upon, and whatever
    [prediction_channel_id] is. With the source channel unbound, or with
    no game number or game number zero, [should_predict] returns before
    the Correlator step and changes nothing. *)
Theorem correlator_runs_after_guards message w :
  (forall game_number,
     channel_set (target_channel_id (self w)) = true ->
     extract_game_number message = Some game_number ->
     game_number <> 0 ->
     exists w1,
       collect_inter_data game_number message w = (w1, Ret ())
       /\ returns (should_predict gap_rule message)
            (fun _ w' => same_but_log w1 w') w)
  /\ (channel_set (target_channel_id (self w)) = false
      \/ extract_game_number message = None
      \/ extract_game_number message = Some 0 ->
      should_predict gap_rule message w = (w, Ret no_prediction)).
Proof.
  split.
  - intros g Hch Hg Hnz.
    assert (Hp : passes_guards message w = Some g)
      by now apply passes_guards_Some.
    destruct (should_predict_collects gap_rule _ _ _ Hp) as (w1 & E & Hr).
    exists w1. split; [exact E|].
    eapply returns_mono; [exact Hr|]. now intros d w' (Hs & _).
  - intros Hg. apply should_predict_guarded. now apply passes_guards_None.
Qed.

(** C4. In every reachable state no two samples of the log share their
    outcome game, and a message whose game number is already an outcome
    of the log gets no second sample. *)
Theorem outcome_games_unique w :
  reachable gap_rule w ->
  NoDup (outcome_games (self w))
  /\ forall message game_number,
       extract_game_number message = Some game_number ->
       game_number ∈ outcome_games (self w) ->
       returns (should_predict gap_rule message)
         (fun _ w' => inter_data (self w') = inter_data (self w)) w
       /\ returns (collect_inter_data game_number message)
            (fun _ w' => inter_data (self w') = inter_data (self w)) w.
Proof.
  intros Hr. split; [now apply (reachable_outcomes_unique gap_rule)|].
  intros message g Hg Hin. split.
  - eapply returns_mono; [apply (should_predict_log gap_rule)|].
    intros d w' [E | (e & g' & Hg' & _ & _ & Hn)]; [exact E|].
    congruence.
  - eapply returns_mono; [apply collect_inter_data_log|].
    intros d w' ([E | (e & _ & _ & Hn)] & _); [exact E | done].
Qed.

(** C5 (as amended). After [collect_inter_data] has processed a message
    of game [G] that has a first parenthesised group, [G] not being an
    outcome of the log yet, no record of the history is of a game below
    [G - 50]; a record of game [K] with [K + 50 < G] is then gone from
    the lookups. *)
Theorem history_pruned game_number message content w :
  extract_first_parentheses_content message = Some content ->
  content <> [] ->
  game_number ∉ outcome_games (self w) ->
  returns (collect_inter_data game_number message)
    (fun _ w' =>
       (forall k r, sequential_history (self w') !! k = Some r ->
                    game_number - 50 <= k)
       /\ (forall k, k + 50 < game_number ->
                     sequential_history (self w') !! k = None)) w.
Proof.
  intros Hc Hne Hnew.
  eapply returns_mono;
    [exact (collect_inter_data_prunes _ _ _ _ Hc Hne Hnew)|].
  intros [] w' Hw'. split; [exact Hw'|].
  intros k Hk. destruct (sequential_history (self w') !! k) as [r|] eqn:E;
    [| done].
  apply Hw' in E. lia.
Qed.

(** C8. A message with a pending indicator, and a message with neither
    completion indicator, gets no prediction. *)
Theorem no_prediction_unless_finished message w :
  (0x1F550%N ∈ message \/ 0x23F0%N ∈ message)
  \/ ((0x2705%N ∉ message) /\ (0x1F530%N ∉ message)) ->
  (should_predict gap_rule message w).2 = Ret no_prediction.
Proof.
  intros Hm.
  assert (Hi : has_pending_indicators message = true
               \/ has_completion_indicators message = false).
  { unfold has_pending_indicators, has_completion_indicators.
    destruct Hm as [[Hp | Hp] | [Hc1 Hc2]].
    - left. apply contains_char_spec in Hp. now rewrite Hp.
    - left. apply contains_char_spec in Hp. rewrite Hp.
      apply orb_true_r.
    - right. apply orb_false_intro.
      + destruct (contains_char 9989 message) eqn:E; [| done].
        now apply contains_char_spec in E.
      + destruct (contains_char 128304 message) eqn:E; [| done].
        now apply contains_char_spec in E. }
  destruct (passes_guards message w) as [g|] eqn:Hg.
  - destruct (should_predict_collects gap_rule _ _ _ Hg) as (w1 & _ & Hr).
    unfold returns in Hr.
    destruct (should_predict gap_rule message w) as [w' [d|e]]; [| done].
    cbn. f_equal. now apply Hr.
  - now rewrite (should_predict_guarded gap_rule _ _ Hg).
Qed.

(** C10. The markers [#N0.] and the zero between blue circles give game
    number 0, and [should_predict] treats a message of game 0 as one
    without a game number: it returns [(False, None, None)] at once and
    leaves the world as it was, the Correlator not having run. *)
Theorem game_zero_is_no_game :
  extract_game_number (py "#N0.") = Some 0
  /\ extract_game_number (py "🔵0🔵") = Some 0
  /\ forall message w,
       extract_game_number message = Some 0 ->
       should_predict gap_rule message w = (w, Ret no_prediction)
       /\ forall message',
            extract_game_number message' = None ->
            should_predict gap_rule message' w
            = should_predict gap_rule message w.
Proof.
  split; [apply game_number_of_hash_zero|].
  split; [apply game_number_of_blue_zero|].
  intros message w Hz.
  assert (E : should_predict gap_rule message w = (w, Ret no_prediction)).
  { apply should_predict_guarded, passes_guards_None. auto. }
  split; [exact E|]. intros message' Hn. rewrite E.
  apply should_predict_guarded, passes_guards_None. auto.
Qed.
End Claims.

(* ===================================================================== *)
(** * Learned rules *)
(* ===================================================================== *)

Section DictMore.
Context {Key V : Type} `{EqDecision Key}.

Lemma dict_get_set (d : list (Key * V)) k v k' :
  Dict.get (Dict.set d k v) k'
  = if decide (k = k') then Some v else Dict.get d k'.
Proof.
  induction d as [|[k0 v0] d IH]; cbn.
  - destruct (decide (k = k')); done.
  - destruct (decide (k0 = k)) as [-> | Hne]; cbn.
    + destruct (decide (k = k')); done.
    + destruct (decide (k0 = k')) as [-> | Hne'].
      * destruct (decide (k = k')); [congruence | done].
      * exact IH.
Qed.

Lemma dict_set_keys (d : list (Key * V)) k v :
  (Dict.set d k v).*1 = if decide (k ∈ d.*1) then d.*1 else d.*1 ++ [k].
Proof.
  induction d as [|[k0 v0] d IH]; cbn.
  - destruct (decide (k ∈ [])) as [Hin | _]; [| done].
    now apply elem_of_nil in Hin.
  - destruct (decide (k0 = k)) as [-> | Hne]; cbn.
    + destruct (decide (k ∈ k :: d.*1)) as [_ | Hn]; [done|].
      exfalso. apply Hn. left.
    + rewrite IH. destruct (decide (k ∈ d.*1)) as [Hin | Hn].
      * destruct (decide (k ∈ k0 :: d.*1)) as [_ | Hn']; [done|].
        exfalso. apply Hn'. now right.
      * destruct (decide (k ∈ k0 :: d.*1)) as [Hin' | _]; [| done].
        apply elem_of_cons in Hin' as [-> | Hin']; done.
Qed.

Lemma dict_get_Some (d : list (Key * V)) k v :
  NoDup d.*1 -> Dict.get d k = Some v <-> (k, v) ∈ d.
Proof.
  induction d as [|[k0 v0] d IH]; cbn; intros Hnd.
  - split; [done | intros Hin; now apply elem_of_nil in Hin].
  - apply NoDup_cons in Hnd as [Hk0 Hnd].
    destruct (decide (k0 = k)) as [-> | Hne].
    + split.
      * intros [= ->]. left.
      * intros Hin. apply elem_of_cons in Hin as [[= ->] | Hin]; [done|].
        exfalso. apply Hk0. apply list_elem_of_fmap. now exists (k, v).
    + rewrite IH by done. split.
      * now right.
      * intros Hin. apply elem_of_cons in Hin as [[= <- <-] | Hin]; done.
Qed.
End DictMore.

Section Counting.
Implicit Types (t : list pystr) (ts ks seen : list (list pystr)).

Lemma occurrences_cons t x ts :
  occurrences t (x :: ts)
  = (if decide (x = t) then 1 else 0) + occurrences t ts.
Proof.
  unfold occurrences. rewrite filter_cons.
  destruct (decide (x = t)); cbn [length]; lia.
Qed.

Lemma occurrences_nonneg t ts : 0 <= occurrences t ts.
Proof. unfold occurrences. lia. Qed.

Lemma occurrences_pos t ts : 0 < occurrences t ts <-> t ∈ ts.
Proof.
  induction ts as [|x ts IH].
  - unfold occurrences. rewrite filter_nil. cbn.
    split; [lia | intros Hin; now apply elem_of_nil in Hin].
  - rewrite occurrences_cons, elem_of_cons.
    pose proof (occurrences_nonneg t ts).
    destruct (decide (x = t)) as [-> | Hne].
    + split; [auto | lia].
    + rewrite Z.add_0_l, IH. split; [auto | intros [? | ?]; congruence].
Qed.

Lemma first_index_cons_ne t x ts :
  x <> t -> first_index t (x :: ts) = S (first_index t ts).
Proof. intros Hne. cbn. now destruct (decide (x = t)). Qed.

Lemma fold_bump_keys ks (acc : list (list pystr * Z)) :
  (fold_left bump ks acc).*1 = acc.*1 ++ new_keys acc.*1 ks.
Proof.
  revert acc. induction ks as [|t ks IH]; intros acc; cbn.
  - now rewrite app_nil_r.
  - rewrite IH. unfold bump at 1 2. rewrite dict_set_keys.
    destruct (decide (t ∈ acc.*1)); [done|]. now rewrite <- app_assoc.
Qed.

Lemma fold_bump_get ks (acc : list (list pystr * Z)) t :
  Dict.get (fold_left bump ks acc) t
  = if decide (occurrences t ks = 0) then Dict.get acc t
    else Some (default 0 (Dict.get acc t) + occurrences t ks).
Proof.
  revert acc. induction ks as [|x ks IH]; intros acc.
  - cbn. reflexivity.
  - cbn [fold_left]. rewrite IH, occurrences_cons. unfold bump.
    rewrite dict_get_set. pose proof (occurrences_nonneg t ks).
    destruct (decide (x = t)) as [-> | Hne];
      repeat case_decide; cbn; try lia; try done; f_equal; lia.
Qed.

Lemma new_keys_spec seen ks t :
  t ∈ new_keys seen ks <-> t ∈ ks /\ t ∉ seen.
Proof.
  revert seen. induction ks as [|x ks IH]; intros seen; cbn.
  - split; [intros Hin; now apply elem_of_nil in Hin | intros [Hin _]].
    now apply elem_of_nil in Hin.
  - destruct (decide (x ∈ seen)) as [Hx | Hx].
    + rewrite IH, elem_of_cons. split; [tauto|].
      intros [[-> | Hin] Hn]; [done | tauto].
    + rewrite !elem_of_cons, IH, elem_of_app, list_elem_of_singleton.
      split.
      * intros [-> | [Hin Hn]]; [tauto|]. split; [tauto|]. tauto.
      * intros [[-> | Hin] Hn]; [tauto|].
        destruct (decide (t = x)); [tauto|]. right. tauto.
Qed.

Lemma new_keys_NoDup seen ks : NoDup (new_keys seen ks).
Proof.
  revert seen. induction ks as [|x ks IH]; intros seen; cbn.
  - constructor.
  - destruct (decide (x ∈ seen)); [apply IH|].
    apply NoDup_cons. split; [| apply IH].
    rewrite new_keys_spec, elem_of_app, list_elem_of_singleton. tauto.
Qed.

Lemma StronglySorted_impl_elem {A} (R R' : relation A) (l : list A) :
  (forall a b, a ∈ l -> b ∈ l -> R a b -> R' a b) ->
  StronglySorted R l -> StronglySorted R' l.
Proof.
  intros HR Hs. induction Hs as [|a l Hs IH Ha]; constructor.
  - apply IH. intros x y Hx Hy. apply HR; now right.
  - apply Forall_forall. intros b Hb. apply HR; [left | now right |].
    rewrite Forall_forall in Ha. now apply Ha.
Qed.

(** The keys are added in the order in which they are first seen. *)
Lemma new_keys_sorted seen ks :
  StronglySorted (fun a b => (first_index a ks < first_index b ks)%nat)
    (new_keys seen ks).
Proof.
  revert seen. induction ks as [|x ks IH]; intros seen; cbn [new_keys].
  - constructor.
  - destruct (decide (x ∈ seen)) as [Hx | Hx].
    + eapply StronglySorted_impl_elem; [| apply IH].
      intros a b Ha Hb Hab. apply new_keys_spec in Ha as [_ Ha].
      apply new_keys_spec in Hb as [_ Hb].
      cbn beta in *. rewrite !first_index_cons_ne by congruence. lia.
    + constructor.
      * eapply StronglySorted_impl_elem; [| apply IH].
        intros a b Ha Hb Hab. apply new_keys_spec in Ha as [_ Ha].
        apply new_keys_spec in Hb as [_ Hb].
        rewrite elem_of_app, list_elem_of_singleton in Ha, Hb.
        cbn beta in *.
        rewrite !first_index_cons_ne by (intros ->; tauto). lia.
      * apply Forall_forall. intros b Hb.
        apply new_keys_spec in Hb as [_ Hb].
        rewrite elem_of_app, list_elem_of_singleton in Hb.
        rewrite (first_index_cons_ne b) by (intros ->; tauto).
        cbn. rewrite decide_True by done. lia.
Qed.

Lemma declencheur_counts_fold log :
  declencheur_counts log = fold_left bump (triggers log) [].
Proof.
  unfold declencheur_counts, triggers.
  generalize (@nil (list pystr * Z)).
  induction log as [|e log IH]; intros acc; [done|]. cbn. apply IH.
Qed.

Lemma declencheur_counts_keys log :
  (declencheur_counts log).*1 = new_keys [] (triggers log).
Proof. now rewrite declencheur_counts_fold, fold_bump_keys. Qed.

Lemma declencheur_counts_NoDup log : NoDup (declencheur_counts log).*1.
Proof. rewrite declencheur_counts_keys. apply new_keys_NoDup. Qed.

(** The dictionary of the counting loop holds each trigger of the log
    with the number of its occurrences. *)
Lemma declencheur_counts_elem log t c :
  (t, c) ∈ declencheur_counts log
  <-> t ∈ triggers log /\ c = occurrences t (triggers log).
Proof.
  rewrite <- dict_get_Some by apply declencheur_counts_NoDup.
  rewrite declencheur_counts_fold, fold_bump_get. cbn.
  pose proof (occurrences_pos t (triggers log)) as Hp.
  pose proof (occurrences_nonneg t (triggers log)).
  case_decide as Hz.
  - split; [done|]. intros [Hin _]. apply Hp in Hin. lia.
  - split.
    + intros [= <-]. split; [apply Hp; lia | lia].
    + intros [_ ->]. f_equal; lia.
Qed.

Lemma declencheur_counts_sorted log :
  StronglySorted
    (fun x y => (first_index x.1 (triggers log)
                 < first_index y.1 (triggers log))%nat)
    (declencheur_counts log).
Proof.
  pose proof (new_keys_sorted [] (triggers log)) as Hs.
  rewrite <- declencheur_counts_keys in Hs.
  induction (declencheur_counts log) as [|x l IH]; [constructor|].
  cbn in Hs. apply StronglySorted_cons in Hs as [Hx Hs].
  constructor; [now apply IH|].
  now rewrite Forall_fmap in Hx.
Qed.
End Counting.

Section Sorting.
Variable ts : list (list pystr).

Lemma insert_desc_perm x l : insert_desc x l ≡ₚ x :: l.
Proof.
  induction l as [|y l IH]; cbn; [done|].
  destruct (y.2 <=? x.2); [done|]. rewrite IH. apply Permutation_swap.
Qed.

Lemma sorted_desc_perm l : sorted_desc l ≡ₚ l.
Proof.
  induction l as [|x l IH]; cbn; [done|].
  now rewrite insert_desc_perm, IH.
Qed.

(** Insertion keeps the order, provided the inserted item was seen before
    all the others: that is the stability of the sort. *)
Lemma insert_desc_sorted x l :
  StronglySorted (outranks ts) l ->
  Forall (first_seen ts x) l ->
  StronglySorted (outranks ts) (insert_desc x l).
Proof.
  intros Hs Hx. induction Hs as [|y l Hs IH Hy]; cbn.
  - repeat constructor.
  - apply Forall_cons in Hx as [Hxy Hx].
    destruct (Z.leb_spec y.2 x.2) as [Hle | Hgt].
    + constructor; [now constructor|].
      assert (Hxy' : outranks ts x y)
        by (unfold outranks, first_seen in *; lia).
      constructor; [exact Hxy'|].
      rewrite Forall_forall in Hy, Hx |- *. intros z Hz.
      specialize (Hy z Hz). specialize (Hx z Hz).
      unfold outranks, first_seen in *. lia.
    + constructor; [now apply IH|].
      rewrite insert_desc_perm. constructor; [| exact Hy].
      unfold outranks. lia.
Qed.

Lemma sorted_desc_sorted l :
  StronglySorted (first_seen ts) l ->
  StronglySorted (outranks ts) (sorted_desc l).
Proof.
  induction 1 as [|x l Hs IH Hx]; cbn; [constructor|].
  apply insert_desc_sorted; [exact IH|]. now rewrite sorted_desc_perm.
Qed.
End Sorting.


Section TopRules.
Context `{PyRuntime}.

Lemma top_rules_unfold log :
  top_rules log = to_rule <$> take 3 (sorted_desc (declencheur_counts log)).
Proof. reflexivity. Qed.

Lemma sorted_counts_elem log t c :
  (t, c) ∈ sorted_desc (declencheur_counts log)
  <-> t ∈ triggers log /\ c = occurrences t (triggers log).
Proof. now rewrite sorted_desc_perm, declencheur_counts_elem. Qed.

Lemma sorted_counts_sorted log :
  StronglySorted (outranks (triggers log))
    (sorted_desc (declencheur_counts log)).
Proof. apply sorted_desc_sorted, declencheur_counts_sorted. Qed.

Lemma outranks_ranks log x y :
  x ∈ sorted_desc (declencheur_counts log) ->
  y ∈ sorted_desc (declencheur_counts log) ->
  outranks (triggers log) x y ->
  ranks_before (triggers log) x.1 y.1.
Proof.
  destruct x as [t1 c1], y as [t2 c2]. intros Hx Hy.
  apply sorted_counts_elem in Hx as [_ ->].
  apply sorted_counts_elem in Hy as [_ ->]. exact id.
Qed.

Lemma top_rules_elem log r :
  r ∈ top_rules log ->
  (cards r, count r) ∈ take 3 (sorted_desc (declencheur_counts log)).
Proof.
  rewrite top_rules_unfold. intros Hr.
  apply list_elem_of_fmap in Hr as ([t c] & -> & Hx). exact Hx.
Qed.

Lemma elem_of_take_list {A} (l : list A) n x : x ∈ take n l -> x ∈ l.
Proof.
  intros Hx. rewrite <- (take_drop n l). apply elem_of_app. now left.
Qed.

(** The characterisation of the rules [top_rules] selects. *)
Lemma top_rules_spec log :
  let ts := triggers log in
  let rules := top_rules log in
  (length rules <= 3)%nat
  /\ NoDup (cards <$> rules)
  /\ (forall r, r ∈ rules ->
        cards r ∈ ts /\ count r = occurrences (cards r) ts)
  /\ StronglySorted
       (fun r1 r2 => ranks_before ts (cards r1) (cards r2)) rules
  /\ (forall t, t ∈ ts -> t ∉ cards <$> rules ->
        length rules = 3%nat
        /\ forall r, r ∈ rules -> ranks_before ts (cards r) t).
Proof.
  intros ts rules. subst ts rules.
  set (sorted := sorted_desc (declencheur_counts log)).
  assert (Hsorted : StronglySorted (outranks (triggers log))
                      (take 3 sorted ++ drop 3 sorted)).
  { rewrite take_drop. apply sorted_counts_sorted. }
  split; [| split; [| split; [| split]]].
  - rewrite top_rules_unfold, length_fmap, length_take. lia.
  - rewrite top_rules_unfold, <- list_fmap_compose.
    change (cards ∘ to_rule) with (@fst (list pystr) Z).
    rewrite fmap_take. eapply sublist_NoDup; [| apply sublist_take].
    unfold sorted. rewrite sorted_desc_perm.
    apply declencheur_counts_NoDup.
  - intros r Hr. apply top_rules_elem, (elem_of_take_list _ 3) in Hr.
    now apply sorted_counts_elem in Hr.
  - rewrite top_rules_unfold.
    apply (StronglySorted_fmap to_rule
             (fun x y => ranks_before (triggers log) x.1 y.1)).
    { now intros [] []. }
    eapply StronglySorted_impl_elem;
      [| exact (StronglySorted_app_1_l _ _ _ Hsorted)].
    intros a b Ha Hb.
    apply outranks_ranks; apply (elem_of_take_list _ 3); assumption.
  - intros t Ht Hnot.
    assert (Hin : (t, occurrences t (triggers log)) ∈ sorted)
      by now apply sorted_counts_elem.
    rewrite <- (take_drop 3 sorted) in Hin.
    apply elem_of_app in Hin as [Hin | Hin].
    { exfalso. apply Hnot. rewrite top_rules_unfold.
      apply list_elem_of_fmap.
      exists (to_rule (t, occurrences t (triggers log))).
      split; [done|]. apply list_elem_of_fmap. eauto. }
    split.
    + rewrite top_rules_unfold, length_fmap, length_take.
      assert (3 < length sorted)%nat; [| unfold sorted in *; lia].
      destruct (decide (3 < length sorted)%nat) as [|Hle]; [done|].
      rewrite drop_ge in Hin by lia. now apply elem_of_nil in Hin.
    + intros r Hr. apply top_rules_elem in Hr.
      apply (outranks_ranks log (cards r, count r)
               (t, occurrences t (triggers log))).
      * apply (elem_of_take_list _ 3). exact Hr.
      * now apply sorted_counts_elem.
      * now apply (StronglySorted_app_1_elem_of _ _ _ _ _ Hsorted).
Qed.
End TopRules.


Section LearningScenario.
Context `{PyRuntime}.

Lemma occurrences_two (t t' : list pystr) (ts : list (list pystr)) :
  t <> t' ->
  occurrences t ts + occurrences t' ts <= Z.of_nat (length ts).
Proof.
  intros Hne. induction ts as [|x ts IH].
  - unfold occurrences. rewrite !filter_nil. cbn. lia.
  - rewrite !occurrences_cons. cbn [length].
    destruct (decide (x = t)), (decide (x = t')); try congruence; lia.
Qed.

(** A trigger seen three times among four samples heads the rules. *)
Lemma three_of_four_heads log (t : list pystr) :
  length log = 4%nat ->
  occurrences t (triggers log) = 3 ->
  head (top_rules log) = Some {| cards := t; count := 3 |}.
Proof.
  intros Hlen Hocc.
  assert (Hin : (t, 3) ∈ sorted_desc (declencheur_counts log)).
  { apply sorted_counts_elem. split; [| done].
    apply occurrences_pos. lia. }
  pose proof (sorted_counts_sorted log) as Hs.
  rewrite top_rules_unfold.
  destruct (sorted_desc (declencheur_counts log)) as [|[t' c'] rest] eqn:E.
  { now apply elem_of_nil in Hin. }
  cbn. f_equal. unfold to_rule. cbn.
  apply elem_of_cons in Hin as [[= <- <-] | Hin]; [done|].
  apply StronglySorted_cons in Hs as [Hx _].
  rewrite Forall_forall in Hx. specialize (Hx _ Hin).
  assert (Hx' : (t', c') ∈ sorted_desc (declencheur_counts log))
    by (rewrite E; left).
  apply sorted_counts_elem in Hx' as [_ Hc'].
  destruct (decide (t' = t)) as [-> | Hne]; [congruence|].
  pose proof (occurrences_two t' t (triggers log) Hne) as Hsum.
  unfold triggers in Hsum at 3. rewrite length_fmap, Hlen in Hsum.
  unfold outranks in Hx. cbn in Hx. lia.
Qed.

(** C7. [analyze_and_set_smart_rules] replaces the rules, whatever they
    were, by the distinct trigger pairs of the log with the most
    occurrences: at most three, each with its number of occurrences, in
    descending order of occurrences, a tie going to the pair seen first;
    a pair left out ranks after each of the three. A pair seen three
    times among four samples, such as (7♦️, 9♠️), heads them with count
    3. *)
Theorem smart_rules_are_top_three initial_load w :
  let ts := triggers (inter_data (self w)) in
  let rules :=
    smart_rules (self (analyze_and_set_smart_rules initial_load w).1) in
  (forall previous load,
     smart_rules
       (self (analyze_and_set_smart_rules load
                (with_self (set_smart_rules previous) w)).1)
     = rules)
  /\ (length rules <= 3)%nat
  /\ NoDup (cards <$> rules)
  /\ (forall r, r ∈ rules ->
        cards r ∈ ts /\ count r = occurrences (cards r) ts)
  /\ StronglySorted
       (fun r1 r2 => ranks_before ts (cards r1) (cards r2)) rules
  /\ (forall t, t ∈ ts -> t ∉ cards <$> rules ->
        length rules = 3%nat
        /\ forall r, r ∈ rules -> ranks_before ts (cards r) t)
  /\ (length (inter_data (self w)) = 4%nat ->
      occurrences seven_nine ts = 3 ->
      head rules = Some {| cards := seven_nine; count := 3 |}).
Proof.
  intros ts rules.
  assert (Hrules : rules = top_rules (inter_data (self w))).
  { subst rules. now destruct (analyze_keeps_log initial_load w) as [_ ->]. }
  destruct (top_rules_spec (inter_data (self w)))
    as (H1 & H2 & H3 & H4 & H5).
  rewrite Hrules.
  split; [| split; [| split; [| split; [| split; [| split]]]]];
    try assumption.
  - intros previous load.
    now destruct (analyze_keeps_log load
                    (with_self (set_smart_rules previous) w)) as [_ ->].
  - intros Hlen Hocc. now apply three_of_four_heads.
Qed.
End LearningScenario.

Lemma smart_rules_are_top_three_witness :
  let w := quiet_world (set_inter_data learning_log fresh_predictor) in
  length (inter_data (self w)) = 4%nat
  /\ occurrences seven_nine (triggers (inter_data (self w))) = 3
  /\ head (smart_rules (self (analyze_and_set_smart_rules false w).1))
     = Some {| cards := seven_nine; count := 3 |}.
Proof.
  cbv zeta.
  assert (Hlen : length (inter_data
                   (self (quiet_world
                      (set_inter_data learning_log fresh_predictor))))
                 = 4%nat) by reflexivity.
  assert (Hocc : occurrences seven_nine
                   (triggers (inter_data
                      (self (quiet_world
                         (set_inter_data learning_log fresh_predictor)))))
                 = 3) by (vm_compute; reflexivity).
  split; [exact Hlen | split; [exact Hocc |]].
  exact (proj2 (proj2 (proj2 (proj2 (proj2 (proj2
           (smart_rules_are_top_three false
              (quiet_world (set_inter_data learning_log fresh_predictor))))))))
           Hlen Hocc).
Defined.

(* ===================================================================== *)
(** * Decisions, the handler and the load defaults *)
(* ===================================================================== *)

Section Decisions.
Context `{PyRuntime}.
Variable gap_rule : Z -> pystr -> M (option pystr).

(** A decision of [should_predict] is "no prediction", or it fires with
    the game number of the message. *)
Lemma should_predict_decision message w :
  returns (should_predict gap_rule message)
    (fun d _ =>
       d = no_prediction
       \/ exists game_number v,
            extract_game_number message = Some game_number
            /\ d = (true, Some game_number, Some v)) w.
Proof.
  destruct (passes_guards message w) as [g|] eqn:Hg.
  - destruct (should_predict_collects gap_rule _ _ _ Hg) as (w1 & E & Hr).
    eapply returns_mono; [exact Hr|]. cbn.
    intros d w' (_ & _ & [Hd | (v & Hd)]); [now left | right].
    exists g, v. split; [| done].
    now apply passes_guards_Some in Hg.
  - unfold returns. rewrite (should_predict_guarded gap_rule _ _ Hg).
    now left.
Qed.

Lemma scenario_fires w :
  channel_set (target_channel_id (self w)) = true ->
  (should_predict gap_rule scenario_message w).2
  = Ret (true, Some 50, Some K).
Proof.
  intros Hch.
  enough (Hr : returns (should_predict gap_rule scenario_message)
                 (fun d _ => d = (true, Some 50, Some K)) w).
  { unfold returns in Hr.
    destruct (should_predict gap_rule scenario_message w) as [w' [d|e]];
      [cbn in Hr |- *; now rewrite Hr | done]. }
  unfold should_predict. apply returns_bind, returns_get_world.
  rewrite Hch, scenario_game_number. cbn [negb].
  destruct (collect_inter_data_returns 50 scenario_message w) as (w1 & E).
  apply returns_bind, (returns_of_run _ _ _ _ _ E).
  replace (has_pending_indicators scenario_message) with false
    by (vm_compute; reflexivity).
  replace (has_completion_indicators scenario_message) with true
    by (vm_compute; reflexivity).
  cbn [negb]. rewrite scenario_first_group.
  destruct scenario_cards as (rest & Hcards).
  assert (Hten : existsb
            (fun vc : pystr * pystr =>
               bool_decide (vc.1 = ten) && bool_decide (vc.2 = heart))
            ((ten, heart) :: rest) = true).
  { cbn [existsb fst snd]. now rewrite !bool_decide_eq_true_2. }
  replace (py "10♥️ 3♦️") with (49%N :: py "0♥️ 3♦️") in *
    by (vm_compute; reflexivity).
  rewrite Hcards.
  repeat run_step.
  all: try reflexivity.
  all: try congruence.
  all: discriminate.
Qed.

Variable _verify_prediction_common : pystr -> bool -> M (option Action).
Variable make_prediction : Z -> pystr -> M pystr.
Variable process_prediction_action : Action -> M ().

(** The new-prediction action of the handler is for the game two after
    the message's. *)
Lemma new_prediction_action message is_edited w w' a :
  _process_channel_message gap_rule _verify_prediction_common
    make_prediction process_prediction_action message is_edited w
  = (w', Ret (Some a)) ->
  exists game_number,
    extract_game_number message = Some game_number
    /\ type a = py "new_prediction"
    /\ predicted_game a = game_number + 2.
Proof.
  unfold _process_channel_message.
  destruct message as [|c message]; [discriminate|].
  rewrite bind_run.
  destruct (_verify_prediction_common _ _ w) as [w1 [va|e]];
    [| discriminate].
  rewrite bind_run.
  destruct (match va with
            | Some a0 => process_prediction_action a0
            | None => mret ()
            end w1) as [w2 [[]|e]]; [| discriminate].
  rewrite bind_run.
  pose proof (should_predict_decision (c :: message) w2) as Hd.
  unfold returns in Hd.
  destruct (should_predict gap_rule (c :: message) w2) as [w3 [d|e]];
    [| discriminate].
  destruct Hd as [-> | (g & v & Hg & ->)]; [discriminate|].
  cbn. rewrite bind_run.
  destruct (make_prediction g v w3) as [w4 [text|e]]; [| discriminate].
  rewrite bind_run.
  destruct (process_prediction_action _ w4) as [w5 [[]|e]];
    [| discriminate].
  cbn. intros [= _ <-]. exists g. now repeat split.
Qed.

(** When [should_predict] fires, the handler builds the new-prediction
    action for the game two after the message's and hands it to
    [process_prediction_action]: it ends as the delivery of that action
    ends. *)
Lemma handler_emits message is_edited w w1 va w2 w3 game_number v w4 text :
  message <> [] ->
  _verify_prediction_common message is_edited w = (w1, Ret va) ->
  match va with
  | Some a0 => process_prediction_action a0
  | None => mret ()
  end w1 = (w2, Ret ()) ->
  should_predict gap_rule message w2
  = (w3, Ret (true, Some game_number, Some v)) ->
  make_prediction game_number v w3 = (w4, Ret text) ->
  _process_channel_message gap_rule _verify_prediction_common
    make_prediction process_prediction_action message is_edited w
  = let action := {| type := py "new_prediction";
                     predicted_game := game_number + 2;
                     new_message := text |} in
    match process_prediction_action action w4 with
    | (w5, Ret _) => (w5, Ret (Some action))
    | (w5, Raise e) => (w5, Raise e)
    end.
Proof.
  intros Hne Hv Hp Hd Hm. unfold _process_channel_message.
  destruct message as [|c message]; [done|].
  rewrite bind_run, Hv, bind_run, Hp, bind_run, Hd. cbn.
  rewrite bind_run, Hm, bind_run.
  now destruct (process_prediction_action _ w4) as [w5 [[]|e]].
Qed.


(** C9, on the input it fails for. A rules file, or a timestamp file,
    whose bytes are not text is not caught by the first [except] clause:
    the second one returns an empty dictionary, where the first one
    returns the empty list for the rules and [0.0] for the timestamp. *)
Theorem load_undecodable_gives_dictionary w :
  (_load_data smart_rules_json false false
     (with_disk (insert smart_rules_json FUndecodable) w)).2
  = Ret (PyDict [])
  /\ default_value smart_rules_json false false = PyList []
  /\ (_load_data last_prediction_time_json false true
        (with_disk (insert last_prediction_time_json FUndecodable) w)).2
     = Ret (PyDict [])
  /\ default_value last_prediction_time_json false true
     = PyFloat float_zero.
Proof.
  repeat split.
  - rewrite _load_data_critical; [reflexivity | apply lookup_insert_eq].
  - rewrite _load_data_critical; [reflexivity | apply lookup_insert_eq].
Qed.
End Decisions.


(** A timestamp file holding a number too large for a float ([1e999] is read
    as infinity) takes the second clause as well. *)
Example load_infinite_timestamp :
  (_load_data last_prediction_time_json false true
     (with_disk (insert last_prediction_time_json
                   (FJson (JFloat (S754_infinity false))))
        (quiet_world fresh_predictor))).2
  = Ret (PyDict []).
Proof. vm_compute. reflexivity. Qed.

(* ===================================================================== *)
(** * Witnesses and counterexamples, under the basic runtime *)
(* ===================================================================== *)



Lemma game_record_last_write_wins_witness :
  let message := py "#N10. (5♦️ 6♣️) ✅" in
  let content := py "5♦️ 6♣️" in
  let w := quiet_world fresh_predictor in
  extract_first_parentheses_content message = Some content
  /\ content <> []
  /\ length (get_first_two_cards content) = 2%nat
  /\ returns (collect_inter_data 10 message)
       (fun _ w1 =>
          sequential_history (self w1) !! 10
          = Some {| cartes := get_first_two_cards content;
                    date := clock w (tick w) |}
          /\ returns (collect_inter_data 10 message)
               (fun _ w2 =>
                  sequential_history (self w2) !! 10
                  = Some {| cartes := get_first_two_cards content;
                            date := clock w1 (tick w1) |}) w1) w.
Proof.
  cbv zeta.
  assert (Hc : extract_first_parentheses_content (py "#N10. (5♦️ 6♣️) ✅")
               = Some (py "5♦️ 6♣️")) by (vm_compute; reflexivity).
  assert (Hne : py "5♦️ 6♣️" <> []) by (vm_compute; discriminate).
  assert (Hlen : length (get_first_two_cards (py "5♦️ 6♣️")) = 2%nat)
    by (vm_compute; reflexivity).
  split; [exact Hc | split; [exact Hne | split; [exact Hlen |]]].
  exact (game_record_last_write_wins 10 _ _ (quiet_world fresh_predictor)
           Hc Hne Hlen).
Defined.

(** C2, as stated, fails: a record written for game 10 is overwritten by a
    later message of game 10 with another lead pair; and processing that
    very message again changes the stored date. *)
Lemma first_write_wins_fails :
  let w := quiet_world
             (set_sequential_history {[ 10 := sample_record ]}
                fresh_predictor) in
  let message := py "#N10. (5♦️ 6♣️) ✅" in
  let w1 := (collect_inter_data 10 message w).1 in
  let w2 := (collect_inter_data 10 message w1).1 in
  sequential_history (self w) !! 10 = Some sample_record
  /\ extract_game_number message = Some 10
  /\ sequential_history (self w1) !! 10
     = Some {| cartes := [py "5♦️"; py "6♣️"]; date := py "0" |}
  /\ sequential_history (self w1) !! 10 <> sequential_history (self w) !! 10
  /\ sequential_history (self w2) !! 10 <> sequential_history (self w1) !! 10.
Proof. vm_compute. repeat split; congruence. Qed.

Lemma correlator_runs_after_guards_witness :
  let message := py "#N10. (K♠️ 2♥️) 🕐" in
  channel_set (target_channel_id (self bound_world)) = true
  /\ extract_game_number message = Some 10
  /\ 10 <> 0
  /\ exists w1,
       collect_inter_data 10 message bound_world = (w1, Ret ())
       /\ returns (should_predict no_gap_rule message)
            (fun _ w' => same_but_log w1 w') bound_world.
Proof.
  cbv zeta.
  assert (H1 : channel_set (target_channel_id (self bound_world)) = true)
    by (vm_compute; reflexivity).
  assert (H2 : extract_game_number (py "#N10. (K♠️ 2♥️) 🕐") = Some 10)
    by (vm_compute; reflexivity).
  assert (H3 : 10 <> 0) by lia.
  split; [exact H1 | split; [exact H2 | split; [exact H3 |]]].
  exact (proj1 (correlator_runs_after_guards no_gap_rule _ bound_world)
           10 H1 H2 H3).
Defined.

(** C3, as stated, fails: with no source channel bound, or with game number
    zero, the message has a game number and yet the Correlator step does not
    run: [should_predict] leaves the history empty where
    [collect_inter_data] would have recorded the game. *)
Lemma correlator_skipped_by_guards :
  let unbound := quiet_world fresh_predictor in
  let message := py "#N5. (A♠️ 2♥️) ✅" in
  let zero := py "#N0. (A♠️ 2♥️) ✅" in
  (extract_game_number message = Some 5
   /\ should_predict no_gap_rule message unbound = (unbound, Ret no_prediction)
   /\ sequential_history (self (collect_inter_data 5 message unbound).1) !! 5
      <> sequential_history (self unbound) !! 5)
  /\ (extract_game_number zero = Some 0
      /\ should_predict no_gap_rule zero bound_world
         = (bound_world, Ret no_prediction)
      /\ sequential_history
           (self (collect_inter_data 0 zero bound_world).1) !! 0
         <> sequential_history (self bound_world) !! 0).
Proof. vm_compute. repeat split; congruence. Qed.

Lemma outcome_games_unique_witness :
  reachable no_gap_rule two_games_world
  /\ outcome_games (self two_games_world) = [3]
  /\ NoDup (outcome_games (self two_games_world)).
Proof.
  assert (Hr : reachable no_gap_rule two_games_world).
  { do 2 apply reach_message. apply reach_channel. now apply reach_fresh. }
  split; [exact Hr | split; [vm_compute; reflexivity |]].
  exact (proj1 (outcome_games_unique no_gap_rule two_games_world Hr)).
Defined.

Lemma history_pruned_witness :
  let message := py "#N100. (5♦️ 6♣️) ✅" in
  let content := py "5♦️ 6♣️" in
  extract_first_parentheses_content message = Some content
  /\ content <> []
  /\ (100 ∉ outcome_games (self old_game_world))
  /\ returns (collect_inter_data 100 message)
       (fun _ w' =>
          (forall k r, sequential_history (self w') !! k = Some r ->
                       100 - 50 <= k)
          /\ (forall k, k + 50 < 100 ->
                        sequential_history (self w') !! k = None))
       old_game_world.
Proof.
  cbv zeta.
  assert (Hc : extract_first_parentheses_content (py "#N100. (5♦️ 6♣️) ✅")
               = Some (py "5♦️ 6♣️")) by (vm_compute; reflexivity).
  assert (Hne : py "5♦️ 6♣️" <> []) by (vm_compute; discriminate).
  assert (Hnew : 100 ∉ outcome_games (self old_game_world))
    by (vm_compute; apply not_elem_of_nil).
  split; [exact Hc | split; [exact Hne | split; [exact Hnew |]]].
  exact (history_pruned 100 _ _ old_game_world Hc Hne Hnew).
Defined.

(** C5, as stated, fails: a message of game 100 without a parenthesised
    group leaves the record of game 1 in the history. *)
Lemma history_kept_without_group :
  let message := py "#N100. ✅" in
  extract_game_number message = Some 100
  /\ sequential_history
       (self (collect_inter_data 100 message old_game_world).1) !! 1
     = Some sample_record
  /\ 1 < 100 - 50.
Proof. vm_compute. repeat split; congruence. Qed.

Lemma no_prediction_unless_finished_witness :
  let message := py "#N10. (K♠️ 2♥️) 🕐" in
  ((0x1F550%N ∈ message \/ 0x23F0%N ∈ message)
   \/ ((0x2705%N ∉ message) /\ (0x1F530%N ∉ message)))
  /\ (should_predict no_gap_rule message bound_world).2 = Ret no_prediction.
Proof.
  cbv zeta.
  assert (Hm : (0x1F550%N ∈ py "#N10. (K♠️ 2♥️) 🕐"
                \/ 0x23F0%N ∈ py "#N10. (K♠️ 2♥️) 🕐")
               \/ ((0x2705%N ∉ py "#N10. (K♠️ 2♥️) 🕐")
                   /\ (0x1F530%N ∉ py "#N10. (K♠️ 2♥️) 🕐"))).
  { left. left. refine (bool_decide_unpack _ _). vm_compute. exact I. }
  split; [exact Hm |].
  exact (no_prediction_unless_finished no_gap_rule _ bound_world Hm).
Defined.

Lemma game_zero_is_no_game_witness :
  extract_game_number (py "#N0.") = Some 0
  /\ should_predict no_gap_rule (py "#N0.") bound_world
     = (bound_world, Ret no_prediction).
Proof.
  assert (Hz : extract_game_number (py "#N0.") = Some 0)
    by (vm_compute; reflexivity).
  split; [exact Hz |].
  exact (proj1 (proj2 (proj2 (game_zero_is_no_game no_gap_rule))
                  (py "#N0.") bound_world Hz)).
Defined.

(* ===================================================================== *)
(** * Further properties of the persistence layer *)
(* ===================================================================== *)

Section PersistenceMore.
Context `{PyRuntime}.

(** A save changes no file but its own. *)
Lemma _save_data_other data filename w :
  returns (_save_data data filename)
    (fun _ w' =>
       frame w w'
       /\ forall other, other <> filename ->
            disk w' !! other = disk w !! other) w.
Proof.
  unfold returns, _save_data, try_except, open_write, json_dump.
  rewrite bind_run. cbn. rewrite bind_run.
  destruct (wfault w filename) eqn:E; cbn.
  - destruct (py_to_json _); cbn; [rewrite E; cbn |];
      (split; [done|]); intros other Hne;
      rewrite ?lookup_insert_ne by done; reflexivity.
  - now split.
  - destruct (py_to_json _); cbn; [rewrite E; cbn |];
      (split; [done|]); intros other Hne;
      rewrite ?lookup_insert_ne by done; reflexivity.
Qed.

(** A save that meets no fault leaves its document in its file and the
    other files as they were. *)
Lemma _save_data_disk data filename w j :
  wfault w filename = NoFault ->
  py_to_json (data_to_save data filename w) = Some j ->
  returns (_save_data data filename)
    (fun _ w' =>
       frame w w'
       /\ disk w' !! filename = Some (FJson j)
       /\ forall other, other <> filename ->
            disk w' !! other = disk w !! other) w.
Proof.
  intros Hf Hj.
  pose proof (_save_data_other data filename w) as Ho.
  pose proof (_save_data_writes data filename w j Hf Hj) as Hw.
  unfold returns in *.
  destruct (_save_data data filename w) as [w' [[]|e]]; [| done].
  destruct Ho as [Hfr Ho], Hw as [Hw _]. auto.
Qed.

(** X1. [_save_data] and [_save_all_data] never raise, and change nothing
    but the disk and the log: the predictor object is as it was. *)
Theorem saves_always_return w :
  (forall data filename,
     exists w', _save_data data filename w = (w', Ret ())
                /\ self w' = self w)
  /\ exists w', _save_all_data w = (w', Ret ()) /\ self w' = self w.
Proof.
  split.
  - intros data filename.
    destruct (_save_data_frame data filename w) as (w' & E & Hs & _). eauto.
  - pose proof (returns_save_all_data (fun _ w' => frame w w') w
                  (fun _ F => F)) as Hr.
    apply returns_run in Hr as ([] & w' & E & Hs & _). eauto.
Qed.

(** X2. [_load_data] never raises. For a file that is missing or does not
    hold JSON it logs a warning and returns the default of the aggregate:
    the empty set for the processed messages, [0.0] for the timestamp,
    [False] for the mode flag, the empty list for the samples and the
    rules, the empty dictionary for the history, the predictions and the
    channel configuration. *)
Theorem load_always_returns w :
  (forall filename is_set is_scalar,
     exists v w', _load_data filename is_set is_scalar w = (w', Ret v))
  /\ (forall filename is_set is_scalar,
        disk w !! filename = None \/ disk w !! filename = Some FGarbled ->
        exists v,
          _load_data filename is_set is_scalar w
          = (with_journal (cons WARNING) w, Ret v)
          /\ (filename = processed_json -> is_set = true -> v = PySet ∅)
          /\ (filename = last_prediction_time_json -> is_set = false ->
              is_scalar = true -> v = PyFloat (S754_zero false))
          /\ (filename = inter_mode_status_json -> is_set = false ->
              is_scalar = true -> v = PyBool false)
          /\ (filename = inter_data_json -> is_set = false ->
              is_scalar = false -> v = PyList [])
          /\ (filename = smart_rules_json -> is_set = false ->
              is_scalar = false -> v = PyList [])
          /\ (filename = sequential_history_json -> is_set = false ->
              is_scalar = false -> v = PyDict [])
          /\ (filename = predictions_json -> is_set = false ->
              is_scalar = false -> v = PyDict [])
          /\ (filename = channels_config_json -> is_set = false ->
              is_scalar = false -> v = PyDict [])).
Proof.
  split; [intros; apply _load_data_returns|].
  intros filename is_set is_scalar Hd.
  exists (default_value filename is_set is_scalar).
  split; [now apply _load_data_default|].
  repeat split; intros -> ->; try intros ->; reflexivity.
Qed.

End PersistenceMore.

Lemma load_always_returns_witness :
  disk (quiet_world fresh_predictor) !! smart_rules_json = None
  /\ exists v,
       _load_data smart_rules_json false false (quiet_world fresh_predictor)
       = (with_journal (cons WARNING) (quiet_world fresh_predictor), Ret v)
       /\ v = PyList [].
Proof.
  assert (Hd : disk (quiet_world fresh_predictor) !! smart_rules_json = None)
    by reflexivity.
  split; [exact Hd|].
  destruct (proj2 (load_always_returns (quiet_world fresh_predictor))
              smart_rules_json false false (or_introl Hd))
    as (v & E & _ & _ & _ & _ & Hv & _).
  exists v. split; [exact E | now apply Hv].
Defined.

Section Restart.
Context `{PyRuntime}.

Lemma stored_load filename is_set is_scalar v w :
  stored filename is_set is_scalar v w ->
  _load_data filename is_set is_scalar w = (w, Ret v).
Proof. intros (j & Hd & Hv). exact (_load_data_reads _ _ _ _ _ _ Hd Hv). Qed.

(** What a flush without write faults leaves on the disk. *)
Lemma _save_all_data_stored w :
  (forall filename, wfault w filename = NoFault) ->
  returns _save_all_data
    (fun _ w' =>
       frame w w'
       /\ stored processed_json true false
            (PySet (processed_messages (self w))) w'
       /\ stored inter_data_json false false
            (py_of_inter_data (inter_data (self w))) w'
       /\ stored sequential_history_json false false
            (py_of_history (sequential_history (self w))) w'
       /\ stored inter_mode_status_json false true
            (PyBool (is_inter_mode_active (self w))) w'
       /\ stored smart_rules_json false false
            (py_of_rules (smart_rules (self w))) w') w.
Proof.
  intros Hf. unfold _save_all_data.
  apply returns_bind, returns_get_world.
  (* predictions *)
  apply returns_bind.
  eapply returns_mono; [apply _save_data_other|].
  intros [] w1 (F1 & _). cbn beta.
  (* processed *)
  destruct (json_stable_atoms (elements (processed_messages (self w))))
    as (j2 & Hj2 & Hb2).
  apply returns_bind.
  eapply returns_mono;
    [apply (_save_data_disk _ processed_json w1 j2);
     [destruct F1 as (_ & -> & _); apply Hf | exact Hj2] |].
  intros [] w2 (F2 & D2 & _). cbn beta.
  (* timestamp *)
  apply returns_bind.
  eapply returns_mono; [apply _save_data_other|].
  intros [] w3 (F3 & O3). cbn beta.
  (* samples *)
  destruct (json_stable_inter_data (inter_data (self w))) as (j4 & Hj4 & Hb4).
  apply returns_bind.
  eapply returns_mono;
    [apply (_save_data_disk _ inter_data_json w3 j4);
     [destruct F1 as (_ & E1 & _), F2 as (_ & E2 & _), F3 as (_ & E3 & _);
      rewrite E3, E2, E1; apply Hf | exact Hj4] |].
  intros [] w4 (F4 & D4 & O4). cbn beta.
  (* history *)
  destruct (py_of_history_dump (sequential_history (self w)))
    as (j5 & Hj5 & Hb5).
  apply returns_bind.
  eapply returns_mono;
    [apply (_save_data_disk _ sequential_history_json w4 j5);
     [destruct F1 as (_ & E1 & _), F2 as (_ & E2 & _), F3 as (_ & E3 & _),
        F4 as (_ & E4 & _);
      rewrite E4, E3, E2, E1; apply Hf | exact Hj5] |].
  intros [] w5 (F5 & D5 & O5). cbn beta.
  (* flag *)
  assert (F05 : frame w w5) by eauto 10 using frame_trans.
  assert (Hs5 : self w5 = self w) by apply F05.
  apply returns_bind.
  eapply returns_mono;
    [apply (_save_data_disk _ inter_mode_status_json w5
              (JObj [(py "active", JBool (is_inter_mode_active (self w)))]));
     [destruct F05 as (_ & E5 & _); rewrite E5; apply Hf
     | unfold data_to_save; cbn; now rewrite Hs5] |].
  intros [] w6 (F6 & D6 & O6). cbn beta.
  (* rules *)
  destruct (json_stable_rules (smart_rules (self w))) as (j7 & Hj7 & Hb7).
  assert (F06 : frame w w6) by eauto using frame_trans.
  eapply returns_mono;
    [apply (_save_data_disk _ smart_rules_json w6 j7);
     [destruct F06 as (_ & E6 & _); rewrite E6; apply Hf | exact Hj7] |].
  intros [] w7 (F7 & D7 & O7). cbn beta.
  split; [eauto using frame_trans|].
  split; [| split; [| split; [| split]]].
  - exists j2. split.
    + rewrite O7, O6, O5, O4, O3 by done. exact D2.
    + rewrite Hb2. unfold load_value.
      now rewrite py_set_atoms, list_to_set_elements_L.
  - exists j4. split.
    + rewrite O7, O6, O5 by done. exact D4.
    + now rewrite Hb4.
  - exists j5. split.
    + rewrite O7, O6 by done. exact D5.
    + exact Hb5.
  - eexists. split.
    + rewrite O7 by done. exact D6.
    + reflexivity.
  - exists j7. split; [exact D7 | now rewrite Hb7].
Qed.

(** X3. A flush survives a restart. After [_save_all_data] has met no
    write fault, loading the files gives back the processed messages, the
    samples, the history, the mode flag and the rules of the predictor,
    whatever the predictions and the timestamp hold: a value of theirs that
    cannot be written does not stop the flush of the others. *)
Theorem flush_then_reload w :
  (forall filename, wfault w filename = NoFault) ->
  returns _save_all_data
    (fun _ w' =>
       self w' = self w
       /\ _load_data processed_json true false w'
          = (w', Ret (PySet (processed_messages (self w))))
       /\ _load_data inter_data_json false false w'
          = (w', Ret (py_of_inter_data (inter_data (self w))))
       /\ _load_data sequential_history_json false false w'
          = (w', Ret (py_of_history (sequential_history (self w))))
       /\ _load_data inter_mode_status_json false true w'
          = (w', Ret (PyBool (is_inter_mode_active (self w))))
       /\ _load_data smart_rules_json false false w'
          = (w', Ret (py_of_rules (smart_rules (self w))))) w.
Proof.
  intros Hf.
  eapply returns_mono; [exact (_save_all_data_stored w Hf)|].
  intros [] w' ((Hs & _) & S1 & S2 & S3 & S4 & S5).
  auto 10 using stored_load.
Qed.


(** X4. A failed save is survived as well. When the file cannot be opened
    it stays as it was. When the writing fails after the file was opened,
    or the value cannot be written as JSON, the file is left cut off,
    and the next load gives the default of the aggregate, not an
    exception. *)
Theorem failed_save_then_load data filename is_set is_scalar w :
  (wfault w filename = OpenFails ->
   returns (_save_data data filename) (fun _ w' => disk w' = disk w) w)
  /\ (wfault w filename = WriteFails
      \/ (wfault w filename = NoFault
          /\ py_to_json (data_to_save data filename w) = None) ->
      returns (_save_data data filename;;
               _load_data filename is_set is_scalar)
        (fun v w' =>
           v = default_value filename is_set is_scalar
           /\ self w' = self w) w).
Proof.
  split.
  - intros Hf. unfold returns, _save_data, try_except, open_write.
    rewrite bind_run. cbn. rewrite bind_run, Hf. reflexivity.
  - intros Hf. apply returns_bind.
    assert (Hs : returns (_save_data data filename)
                   (fun _ w' => disk w' !! filename = Some FGarbled
                                /\ self w' = self w) w).
    { unfold returns, _save_data, try_except, open_write, json_dump.
      rewrite bind_run. cbn. rewrite bind_run.
      destruct Hf as [Hf | [Hf Hj]]; rewrite Hf; cbn.
      - destruct (py_to_json _); cbn; [rewrite Hf; cbn |];
          (split; [apply lookup_insert_eq | done]).
      - rewrite Hj. cbn. split; [apply lookup_insert_eq | done]. }
    eapply returns_mono; [exact Hs|].
    intros [] w' [Hd Hself]. unfold returns.
    rewrite _load_data_default by auto. cbn. auto.
Qed.

End Restart.

Lemma failed_save_then_load_witness :
  let w := quiet_world fresh_predictor in
  let data := PyList [PySet ∅] in
  (wfault w smart_rules_json = WriteFails
   \/ (wfault w smart_rules_json = NoFault
       /\ py_to_json (data_to_save data smart_rules_json w) = None))
  /\ returns (_save_data data smart_rules_json;;
              _load_data smart_rules_json false false)
       (fun v w' =>
          v = default_value smart_rules_json false false
          /\ self w' = self w) w.
Proof.
  cbv zeta.
  assert (Hf : wfault (quiet_world fresh_predictor) smart_rules_json
               = WriteFails
               \/ (wfault (quiet_world fresh_predictor) smart_rules_json
                   = NoFault
                   /\ py_to_json
                        (data_to_save (PyList [PySet ∅]) smart_rules_json
                           (quiet_world fresh_predictor)) = None))
    by (right; split; reflexivity).
  split; [exact Hf|].
  exact (proj2 (failed_save_then_load (PyList [PySet ∅]) smart_rules_json
                  false false (quiet_world fresh_predictor)) Hf).
Defined.

Lemma flush_then_reload_witness :
  (forall filename, wfault two_games_world filename = NoFault)
  /\ returns _save_all_data
       (fun _ w' =>
          _load_data inter_data_json false false w'
          = (w', Ret (py_of_inter_data (inter_data (self two_games_world)))))
       two_games_world.
Proof.
  assert (Hf : forall filename, wfault two_games_world filename = NoFault)
    by (intros; vm_compute; reflexivity).
  split; [exact Hf|].
  eapply returns_mono; [exact (flush_then_reload two_games_world Hf)|].
  intros [] w' (_ & _ & E & _). exact E.
Defined.

(* ===================================================================== *)
(** * The tokenizer's cards *)
(* ===================================================================== *)

Section TokenizerFacts.
Context `{PyRuntime}.

Lemma star_inv {A} p (k : pystr -> pystr -> option A) acc s r :
  Re.star p k acc s = Some r ->
  exists g rest,
    s = g ++ rest /\ forallb p g = true /\ k (acc ++ g) rest = Some r.
Proof.
  revert acc. induction s as [|c s IH]; intros acc Hs; cbn in Hs.
  - exists [], []. now rewrite (app_nil_r acc).
  - destruct (p c) eqn:Hp.
    + destruct (Re.star p k (acc ++ [c]) s) as [r'|] eqn:E.
      * injection Hs as <-. apply IH in E as (g & rest & -> & Hg & Hk).
        exists (c :: g), rest. rewrite <- app_assoc in Hk. cbn.
        now rewrite Hp.
      * exists [], (c :: s). now rewrite (app_nil_r acc).
    + exists [], (c :: s). now rewrite (app_nil_r acc).
Qed.

Lemma plus_inv {A} p (k : pystr -> pystr -> option A) s r :
  Re.plus p k s = Some r ->
  exists g rest,
    s = g ++ rest /\ g <> [] /\ forallb p g = true /\ k g rest = Some r.
Proof.
  destruct s as [|c s]; cbn; [done|].
  destruct (p c) eqn:Hp; [| done].
  intros (g & rest & -> & Hg & Hk)%star_inv.
  exists (c :: g), rest. cbn. now rewrite Hp.
Qed.

Lemma search_inv {A} (m : pystr -> option A) s r :
  Re.search m s = Some r -> exists t, t `suffix_of` s /\ m t = Some r.
Proof.
  induction s as [|c s IH]; cbn.
  - destruct (m []) eqn:E; [| done]. intros [= <-]. now exists [].
  - destruct (m (c :: s)) eqn:E.
    + intros [= <-]. now exists (c :: s).
    + intros (t & Ht & Hm)%IH. exists t. split; [| done].
      now apply suffix_cons_r.
Qed.

Lemma findall_skip_inv {A} (m : pystr -> option (A * nat)) skip s a :
  a ∈ Re.findall_skip m skip s ->
  exists t n, t `suffix_of` s /\ m t = Some (a, n).
Proof.
  revert skip. induction s as [|c s IH]; intros skip; cbn.
  - intros Hin. inversion Hin.
  - destruct skip as [|k].
    + destruct (m (c :: s)) as [[b n]|] eqn:E.
      * intros [-> | Hin]%elem_of_cons.
        -- now exists (c :: s), n.
        -- apply IH in Hin as (t & n' & Ht & Hm).
           exists t, n'. split; [now apply suffix_cons_r | done].
      * intros (t & n' & Ht & Hm)%IH.
        exists t, n'. split; [now apply suffix_cons_r | done].
    + intros (t & n' & Ht & Hm)%IH.
      exists t, n'. split; [now apply suffix_cons_r | done].
Qed.

Lemma match_suit_inv s su : match_suit s = Some su -> su ∈ suits.
Proof.
  unfold match_suit. destruct s as [|a [|b s]]; try done.
  destruct (_ && _)%N eqn:E; [| done]. intros [= <-].
  apply andb_true_iff in E as [Hb Ha]. apply N.eqb_eq in Hb as ->.
  repeat (apply orb_true_iff in Ha as [Ha | Ha]);
    apply N.eqb_eq in Ha as ->; vm_compute; set_solver.
Qed.

Lemma is_digit_upper c : is_digit c = true -> upper_char c = c.
Proof.
  unfold is_digit, upper_char. intros Hd.
  destruct ((97 <=? c) && (c <=? 122))%N eqn:E; [| done].
  apply andb_true_iff in E as [H1 H2].
  apply N.leb_le in H1, H2.
  rewrite py_decimal_ascii in Hd by lia.
  unfold ascii_decimal in Hd.
  destruct ((48 <=? c) && (c <=? 57))%N eqn:E'; [| done].
  apply andb_true_iff in E' as [H3 H4]. apply N.leb_le in H3, H4. lia.
Qed.

Lemma digits_upper g : forallb is_digit g = true -> upper g = g.
Proof.
  unfold upper. induction g as [|c g IH]; cbn; [done|].
  intros [Hc Hg]%andb_true_iff. now rewrite is_digit_upper, IH.
Qed.

Lemma is_face_upper c : is_face c = true -> [upper_char c] ∈ faces.
Proof.
  unfold is_face. intros Hc.
  repeat (apply orb_true_iff in Hc as [Hc | Hc]);
    apply N.eqb_eq in Hc as ->; vm_compute; set_solver.
Qed.

Lemma match_card_inv s value costume n :
  match_card s = Some ((value, costume), n) ->
  is_rank (upper value) /\ costume ∈ suits.
Proof.
  unfold match_card.
  destruct (Re.plus _ _ s) as [r|] eqn:E.
  - intros [= ->]. apply plus_inv in E as (g & rest & -> & Hne & Hg & Hk).
    destruct (match_suit rest) as [su|] eqn:Hsu; [| done].
    injection Hk as <- <- _. split; [| now apply match_suit_inv in Hsu].
    left. now rewrite digits_upper.
  - destruct s as [|c rest]; [done|].
    destruct (is_face c) eqn:Hf; [| done].
    destruct (match_suit rest) as [su|] eqn:Hsu; [| done].
    intros [= <- <- _]. split; [| now apply match_suit_inv in Hsu].
    right. now apply is_face_upper.
Qed.

Lemma extract_card_details_inv content value costume :
  (value, costume) ∈ extract_card_details content ->
  is_rank value /\ costume ∈ suits.
Proof.
  unfold extract_card_details.
  intros ([v c] & [= -> ->] & Hin)%list_elem_of_fmap.
  apply findall_skip_inv in Hin as (t & n & _ & Hm).
  now apply match_card_inv in Hm.
Qed.

Lemma get_first_two_cards_cards content :
  Forall is_card (get_first_two_cards content).
Proof.
  unfold get_first_two_cards. apply Forall_forall.
  intros card ([v c] & -> & Hin)%list_elem_of_fmap.
  apply elem_of_take_list, extract_card_details_inv in Hin as [Hv Hc].
  now exists v, c.
Qed.

Lemma first_K_card_inv message value costume :
  first_K_card message = Some (value, costume) ->
  value = K /\ costume ∈ suits.
Proof.
  unfold first_K_card.
  destruct (extract_first_parentheses_content message) as [[|c0 content]|];
    try done.
  intros Hf. apply find_some in Hf as [Hin Hk].
  apply bool_decide_eq_true in Hk.
  apply list_elem_of_In, extract_card_details_inv in Hin as [_ Hc]. done.
Qed.

(** X5. The cards the tokenizer returns are normalised. Every card of
    [extract_card_details] has one of the four suit signs, never the heavy
    heart, and a rank that is a run of decimal digits or an upper-case face
    ([A], [K], [Q], [J], or the Kelvin sign the case-blind letter class lets
    through). [get_first_two_cards] gives at most two cards, each such a
    rank followed by such a suit; and the card
    [check_value_K_in_first_parentheses] finds has rank [K] exactly. *)
Theorem cards_are_normalized content :
  (forall value costume,
     (value, costume) ∈ extract_card_details content ->
     is_rank value /\ costume ∈ suits /\ costume <> heavy_heart)
  /\ (length (get_first_two_cards content) <= 2)%nat
  /\ Forall is_card (get_first_two_cards content)
  /\ (forall message value costume,
        first_K_card message = Some (value, costume) ->
        value = K /\ costume ∈ suits).
Proof.
  split; [| split; [| split]].
  - intros value costume [Hv Hc]%extract_card_details_inv.
    split; [done | split; [done|]]. intros ->. revert Hc.
    unfold suits. rewrite !elem_of_cons, elem_of_nil. vm_compute.
    intuition discriminate.
  - unfold get_first_two_cards. rewrite length_map, length_take. lia.
  - apply get_first_two_cards_cards.
  - intros message. apply first_K_card_inv.
Qed.
End TokenizerFacts.

Lemma cards_are_normalized_witness :
  (py "K", heart) ∈ extract_card_details (py "5♣️ k❤️")
  /\ is_rank (py "K") /\ heart ∈ suits /\ heart <> heavy_heart.
Proof.
  assert (Hin : (py "K", heart) ∈ extract_card_details (py "5♣️ k❤️"))
    by (vm_compute; set_solver).
  split; [exact Hin|].
  exact (proj1 (cards_are_normalized (py "5♣️ k❤️")) (py "K") heart Hin).
Defined.

(* ===================================================================== *)
(** * More on the Correlator *)
(* ===================================================================== *)

Section CorrelatorMore.
Context `{PyRuntime}.

Ltac run_collect :=
  unfold collect_inter_data, check_value_K_in_first_parentheses,
    record_game, drop_obsolete;
  repeat first [ run_step | apply returns_save_all_data; intros ? ? ].

(** X6. [collect_inter_data] never raises, and of the predictor it
    changes nothing but the history and the sample log: the predictions,
    the processed messages, the timestamp, the channel configuration, the
    mode flag and the rules are as they were. *)
Theorem collect_changes_only_learning game_number message w :
  returns (collect_inter_data game_number message)
    (fun _ w' => only_learning (self w) (self w')) w.
Proof.
  run_collect; cbn in *.
  all: try match goal with
       | F : frame _ _ |- _ => destruct F as (Hs & _); rewrite Hs; cbn
       end.
  all: unfold only_learning; cbn; tauto.
Qed.

Lemma first_K_card_group message card :
  first_K_card message = Some card ->
  exists c0 content,
    extract_first_parentheses_content message = Some (c0 :: content).
Proof.
  unfold first_K_card.
  destruct (extract_first_parentheses_content message) as [[|c0 content]|];
    try done.
  eauto.
Qed.

(** What the Correlator does when a King follows a recorded lead pair. *)
Lemma collect_inter_data_learns game_number message w value costume trigger :
  first_K_card message = Some (value, costume) ->
  sequential_history (self w) !! (game_number - 2) = Some trigger ->
  game_number ∉ outcome_games (self w) ->
  returns (collect_inter_data game_number message)
    (fun _ w' =>
       exists stamp,
         inter_data (self w')
         = inter_data (self w)
             ++ [ {| numero_resultat := game_number;
                     declencheur := cartes trigger;
                     numero_declencheur := game_number - 2;
                     carte_k := value ++ costume;
                     date_resultat := stamp |} ]
         /\ (stamp = clock w (tick w) \/ stamp = clock w (S (tick w)))
         /\ ((forall filename, wfault w filename = NoFault) ->
             stored inter_data_json false false
               (py_of_inter_data (inter_data (self w'))) w')) w.
Proof.
  intros Hk Ht Hnew.
  destruct (first_K_card_group _ _ Hk) as (c0 & content & Hc).
  apply is_duplicate_false in Hnew.
  unfold collect_inter_data, check_value_K_in_first_parentheses. rewrite Hc, Hk.
  unfold record_game, drop_obsolete.
  destruct (length _ =? 2)%nat.
  all: repeat first [ run_step ]; cbn in *.
  all: rewrite ?lookup_insert_ne in * by lia.
  all: try congruence.
  all: match goal with
       | |- returns _save_all_data _ ?w1 =>
         pose proof (returns_save_all_data (fun _ w2 => frame w1 w2) w1
                       (fun _ F => F)) as Hr;
         apply returns_run in Hr as ([] & w2 & E & F);
         apply (returns_of_run _ _ _ _ _ E);
         pose proof (_save_all_data_stored w1) as Hst;
         unfold returns in Hst; rewrite E in Hst
       end.
  all: repeat run_step; cbn.
  all: destruct F as (Hs & _).
  all: eexists; split; [rewrite Hs; cbn; repeat f_equal; congruence|].
  all: split; [eauto; fail|].
  all: intros Hf; destruct (Hst Hf) as (_ & _ & (j & Hd & Hv) & _).
  all: exists j; cbn; split; [exact Hd|].
  all: rewrite Hs; exact Hv.
Qed.

Lemma collect_inter_data_skips game_number message w :
  first_K_card message = None
  \/ sequential_history (self w) !! (game_number - 2) = None
  \/ game_number ∈ outcome_games (self w) ->
  returns (collect_inter_data game_number message)
    (fun _ w' => inter_data (self w') = inter_data (self w)) w.
Proof.
  intros Hno. run_collect; cbn in *.
  all: try reflexivity.
  all: rewrite ?lookup_insert_ne in * by lia.
  all: exfalso.
  all: match goal with
       | E : existsb _ _ = false |- _ => apply is_duplicate_false in E
       end.
  all: destruct Hno as [Hno | [Hno | Hno]]; congruence || contradiction.
Qed.

(** X7. What the Correlator learns. When the first group holds a King,
    the history has a record two games earlier and the game is not yet an
    outcome of the log, [collect_inter_data] appends exactly one sample:
    this game, the cards of the earlier record as trigger, the King with
    its suit, stamped with a clock reading of this call; and without write
    faults the sample file holds the new log at once. When one of the
    three conditions fails, the log stays as it was. *)
Theorem correlator_learns_exactly game_number message w :
  (forall costume trigger,
     first_K_card message = Some (K, costume) ->
     sequential_history (self w) !! (game_number - 2) = Some trigger ->
     game_number ∉ outcome_games (self w) ->
     returns (collect_inter_data game_number message)
       (fun _ w' =>
          exists stamp,
            inter_data (self w')
            = inter_data (self w)
                ++ [ {| numero_resultat := game_number;
                        declencheur := cartes trigger;
                        numero_declencheur := game_number - 2;
                        carte_k := K ++ costume;
                        date_resultat := stamp |} ]
            /\ (stamp = clock w (tick w) \/ stamp = clock w (S (tick w)))
            /\ ((forall filename, wfault w filename = NoFault) ->
                _load_data inter_data_json false false w'
                = (w', Ret (py_of_inter_data (inter_data (self w')))))) w)
  /\ (first_K_card message = None
      \/ sequential_history (self w) !! (game_number - 2) = None
      \/ game_number ∈ outcome_games (self w) ->
      returns (collect_inter_data game_number message)
        (fun _ w' => inter_data (self w') = inter_data (self w)) w).
Proof.
  split; [| apply collect_inter_data_skips].
  intros costume trigger Hk Ht Hnew.
  eapply returns_mono; [exact (collect_inter_data_learns _ _ _ _ _ _ Hk Ht Hnew)|].
  intros [] w' (stamp & Hlog & Hstamp & Hst). exists stamp.
  split; [exact Hlog | split; [exact Hstamp|]].
  intros Hf. apply stored_load, Hst, Hf.
Qed.

(** The Correlator keeps the learning state well formed. *)
Lemma collect_inter_data_ok game_number message w :
  learning_ok (self w) ->
  returns (collect_inter_data game_number message)
    (fun _ w' => learning_ok (self w')) w.
Proof.
  intros [Hh Hl].
  assert (Hins : forall content,
            (length (get_first_two_cards content) =? 2)%nat = true ->
            forall g d k r,
              <[g := {| cartes := get_first_two_cards content; date := d |}]>
                (sequential_history (self w)) !! k = Some r ->
              record_ok r).
  { intros content Hlen g d k r Hk.
    destruct (decide (g = k)) as [-> | Hne].
    - rewrite lookup_insert_eq in Hk. injection Hk as <-.
      split; [now apply Nat.eqb_eq | apply get_first_two_cards_cards].
    - rewrite lookup_insert_ne in Hk by done. eauto. }
  run_collect; cbn in *.
  all: try match goal with
       | F : frame _ _ |- _ => destruct F as (Hs & _); rewrite Hs; cbn
       end.
  all: split.
  all: try (intros k r Hk;
            try apply map_lookup_filter_Some in Hk as [Hk _]; cbn in Hk;
            first [ now apply Hh in Hk
                  | eapply Hins; [| exact Hk]; assumption ]).
  all: try exact Hl.
  all: apply Forall_app; split; [exact Hl|].
  all: apply Forall_singleton.
  all: match goal with
       | E : first_K_card _ = Some _ |- _ =>
         apply first_K_card_inv in E as [-> Hsuit]
       end.
  all: match goal with
       | E : _ !! _ = Some ?g |- _ =>
         rewrite ?lookup_insert_ne in E by lia;
         apply Hh in E as [Hg1 Hg2]
       end.
  all: unfold sample_ok; cbn; eauto 10.
Qed.
End CorrelatorMore.

Lemma correlator_learns_exactly_witness :
  let message := py "#N3. (K♥️ 2♣️) ✅" in
  let trigger :=
    {| cartes := [py "7♦️"; py "9♠️"]; date := digits_of 0 |} in
  first_K_card message = Some (K, heart)
  /\ sequential_history (self one_game_world) !! (3 - 2) = Some trigger
  /\ (3 ∉ outcome_games (self one_game_world))
  /\ returns (collect_inter_data 3 message)
       (fun _ w' =>
          exists stamp,
            inter_data (self w')
            = [ {| numero_resultat := 3;
                   declencheur := [py "7♦️"; py "9♠️"];
                   numero_declencheur := 1;
                   carte_k := py "K♥️";
                   date_resultat := stamp |} ])
       one_game_world.
Proof.
  cbv zeta.
  assert (Hk : first_K_card (py "#N3. (K♥️ 2♣️) ✅") = Some (K, heart))
    by (vm_compute; reflexivity).
  assert (Ht : sequential_history (self one_game_world) !! (3 - 2)
               = Some {| cartes := [py "7♦️"; py "9♠️"];
                         date := digits_of 0 |})
    by (vm_compute; reflexivity).
  assert (Hnew : 3 ∉ outcome_games (self one_game_world))
    by (vm_compute; apply not_elem_of_nil).
  split; [exact Hk | split; [exact Ht | split; [exact Hnew|]]].
  eapply returns_mono;
    [exact (proj1 (correlator_learns_exactly 3 (py "#N3. (K♥️ 2♣️) ✅")
                     one_game_world) heart _ Hk Ht Hnew)|].
  intros [] w' (stamp & Hlog & _). exists stamp.
  rewrite Hlog. vm_compute. reflexivity.
Defined.

(* ===================================================================== *)
(** * The learning state of a running bot *)
(* ===================================================================== *)

Section LearningState.
Context `{PyRuntime}.
Variable gap_rule : Z -> pystr -> M (option pystr).

(** The analysis, whether it returns or raises, touches neither the
    history nor the log, sets the rules, and sets the flag by the log. *)
Lemma analyze_ends initial_load w :
  ends (analyze_and_set_smart_rules initial_load)
    (fun w' =>
       sequential_history (self w') = sequential_history (self w)
       /\ inter_data (self w') = inter_data (self w)
       /\ smart_rules (self w') = top_rules (inter_data (self w))
       /\ is_inter_mode_active (self w')
          = match top_rules (inter_data (self w)) with
            | _ :: _ => true
            | [] => if initial_load then is_inter_mode_active (self w)
                    else false
            end) w.
Proof.
  unfold analyze_and_set_smart_rules.
  apply ends_bind, returns_get_world.
  apply ends_bind, returns_modify.
  apply ends_bind.
  eapply returns_mono with
    (Q := fun _ w' =>
            sequential_history (self w') = sequential_history (self w)
            /\ inter_data (self w') = inter_data (self w)
            /\ smart_rules (self w') = top_rules (inter_data (self w))
            /\ is_inter_mode_active (self w')
               = match top_rules (inter_data (self w)) with
                 | _ :: _ => true
                 | [] => if initial_load then is_inter_mode_active (self w)
                         else false
                 end).
  { destruct (top_rules (inter_data (self w))) eqn:E;
      [destruct initial_load|]; cbn; repeat run_step; cbn; rewrite ?E; auto. }
  intros [] w1 Hw1.
  apply ends_bind, returns_get_world.
  apply ends_bind, returns_save_data. intros w2 (Hs2 & _).
  apply ends_bind, returns_save_data. intros w3 (Hs3 & _).
  unfold ends, lift. cbn. now rewrite Hs3, Hs2.
Qed.

Lemma set_channel_id_keeps_learning channel_id channel_type w :
  returns (set_channel_id channel_id channel_type)
    (fun _ w' =>
       sequential_history (self w') = sequential_history (self w)
       /\ inter_data (self w') = inter_data (self w)) w.
Proof.
  unfold set_channel_id, _save_channels_config.
  repeat first [ run_step | apply returns_save_data; intros ? (Hs & _) ].
  all: cbn; try rewrite Hs; done.
Qed.

Lemma inter_default_keeps_learning w :
  returns inter_default
    (fun _ w' =>
       sequential_history (self w') = sequential_history (self w)
       /\ inter_data (self w') = inter_data (self w)) w.
Proof.
  unfold inter_default.
  repeat first [ run_step | apply returns_save_data; intros ? (Hs & _) ].
  now rewrite Hs.
Qed.

Lemma should_predict_ok message w :
  learning_ok (self w) ->
  learning_ok (self (should_predict gap_rule message w).1).
Proof.
  intros Hok.
  destruct (passes_guards message w) as [g|] eqn:Hg.
  - destruct (should_predict_collects gap_rule _ _ _ Hg) as (w1 & E & Hr).
    pose proof (collect_inter_data_ok g message w Hok) as Hc.
    unfold returns in Hc, Hr. rewrite E in Hc.
    destruct (should_predict gap_rule message w) as [w' [d|e]]; [| done].
    destruct Hr as ((Hs & _) & _). cbn. now rewrite Hs.
  - now rewrite (should_predict_guarded gap_rule _ _ Hg).
Qed.

Lemma learning_ok_same p p' :
  sequential_history p' = sequential_history p ->
  inter_data p' = inter_data p ->
  learning_ok p -> learning_ok p'.
Proof. unfold learning_ok. now intros -> ->. Qed.

Lemma reachable_learning_ok w :
  reachable gap_rule w -> learning_ok (self w).
Proof.
  induction 1 as [w Hw | m w _ IH | g m w _ IH | b w _ IH
                 | c t w _ IH | w _ IH | w w' _ IH Hs].
  - rewrite Hw. split; [| constructor]. intros k r Hk.
    cbn in Hk. now rewrite lookup_empty in Hk.
  - now apply should_predict_ok.
  - pose proof (collect_inter_data_ok g m w IH) as Hr.
    unfold returns in Hr.
    now destruct (collect_inter_data g m w) as [w' [d|e]].
  - destruct (analyze_ends b w) as (Hh & Hl & _).
    exact (learning_ok_same _ _ Hh Hl IH).
  - pose proof (set_channel_id_keeps_learning c t w) as Hr.
    unfold returns in Hr.
    destruct (set_channel_id c t w) as [w' [d|e]]; [| done].
    destruct Hr as [Hh Hl]. exact (learning_ok_same _ _ Hh Hl IH).
  - pose proof (inter_default_keeps_learning w) as Hr.
    unfold returns in Hr.
    destruct (inter_default w) as [w' [d|e]]; [| done].
    destruct Hr as [Hh Hl]. exact (learning_ok_same _ _ Hh Hl IH).
  - now rewrite Hs.
Qed.

(** X8. The learning state of a running bot is well formed. Started
    without files and run on any messages and operator actions, the bot
    holds only records of exactly two cards, and only samples whose trigger
    game is the outcome game minus two, whose trigger is two cards, and whose
    King card is [K] followed by one of the four suits. *)
Theorem learning_state_well_formed w :
  reachable gap_rule w ->
  (forall k r, sequential_history (self w) !! k = Some r ->
     length (cartes r) = 2%nat /\ Forall is_card (cartes r))
  /\ (forall e, e ∈ inter_data (self w) ->
        numero_declencheur e = numero_resultat e - 2
        /\ length (declencheur e) = 2%nat
        /\ Forall is_card (declencheur e)
        /\ exists costume, costume ∈ suits /\ carte_k e = K ++ costume).
Proof.
  intros [Hh Hl]%reachable_learning_ok. split; [exact Hh|].
  intros e He. exact (proj1 (Forall_forall _ _) Hl e He).
Qed.

(** The texts of rules that have two cards each. *)
Lemma rule_texts_returns rules :
  Forall (fun r => length (cards r) = 2%nat) rules ->
  exists texts,
    rule_texts rules = Ret texts /\ length texts = length rules.
Proof.
  induction 1 as [|r rules Hr _ (texts & E & Hlen)]; cbn.
  - now exists [].
  - unfold rule_text. destruct (cards r) as [|c0 [|c1 [|]]]; try done.
    rewrite E. eexists. split; [reflexivity | cbn; now rewrite Hlen].
Qed.

Lemma top_rules_two_cards log :
  Forall sample_ok log ->
  Forall (fun r => length (cards r) = 2%nat) (top_rules log).
Proof.
  intros Hl. apply Forall_forall. intros r Hr.
  destruct (top_rules_spec log) as (_ & _ & Hin & _).
  destruct (Hin r Hr) as [Ht _]. unfold triggers in Ht.
  apply list_elem_of_fmap in Ht as (e & -> & He).
  exact (proj1 (proj2 (proj1 (Forall_forall _ _) Hl e He))).
Qed.

Lemma top_rules_nil log : top_rules log = [] <-> log = [].
Proof.
  split; [| now intros ->].
  destruct log as [|e log]; [done|]. intros Hnil. exfalso.
  assert (Hin : (declencheur e,
                 occurrences (declencheur e) (triggers (e :: log)))
                ∈ sorted_desc (declencheur_counts (e :: log))).
  { apply sorted_counts_elem. split; [| done]. cbn. left. }
  rewrite top_rules_unfold in Hnil. apply fmap_nil_inv in Hnil.
  destruct (sorted_desc _) as [|x l]; [inversion Hin | done].
Qed.

(** What the analysis does in a well-formed state. *)
Lemma analyze_returns initial_load w :
  learning_ok (self w) ->
  returns (analyze_and_set_smart_rules initial_load)
    (fun texts w' =>
       length texts = length (smart_rules (self w'))
       /\ smart_rules (self w') = top_rules (inter_data (self w))
       /\ is_inter_mode_active (self w')
          = match inter_data (self w) with
            | _ :: _ => true
            | [] => if initial_load then is_inter_mode_active (self w)
                    else false
            end) w.
Proof.
  intros [_ Hl].
  pose proof (analyze_ends initial_load w) as He.
  destruct (rule_texts_returns _ (top_rules_two_cards _ Hl))
    as (texts & Et & Hlen).
  assert (Hr : returns (analyze_and_set_smart_rules initial_load)
                 (fun t _ => t = texts) w).
  { unfold analyze_and_set_smart_rules.
    repeat first [ run_step | apply returns_save_data; intros ? ? ].
    all: cbn in *; unfold returns, lift; cbn in *.
    all: first [rewrite Et; reflexivity | congruence]. }
  unfold ends in He. unfold returns in *.
  destruct (analyze_and_set_smart_rules initial_load w) as [w' [t|e]];
    [| done]. cbn in He. subst t.
  destruct He as (_ & _ & Hrules & Hflag).
  rewrite Hrules, Hlen. split; [done | split; [done|]].
  rewrite Hflag.
  destruct (inter_data (self w)) as [|e log] eqn:El.
  - now rewrite (proj2 (top_rules_nil []) eq_refl).
  - destruct (top_rules (e :: log)) eqn:Et'; [| done].
    now apply top_rules_nil in Et'.
Qed.

(** X9. The analysis of a running bot. In a state the bot can reach,
    [analyze_and_set_smart_rules] returns normally (no rule lacks a card for
    its text), with one text per rule; it turns the mode on when the log
    has a sample, whatever [initial_load] is; with an empty log it turns the
    mode off, unless [initial_load] is set, which leaves the flag alone. *)
Theorem analysis_of_a_running_bot initial_load w :
  reachable gap_rule w ->
  returns (analyze_and_set_smart_rules initial_load)
    (fun texts w' =>
       length texts = length (smart_rules (self w'))
       /\ smart_rules (self w') = top_rules (inter_data (self w))
       /\ (inter_data (self w) <> [] ->
           is_inter_mode_active (self w') = true)
       /\ (inter_data (self w) = [] ->
           smart_rules (self w') = []
           /\ is_inter_mode_active (self w')
              = (initial_load && is_inter_mode_active (self w)))) w.
Proof.
  intros Hok%reachable_learning_ok.
  eapply returns_mono; [exact (analyze_returns initial_load w Hok)|].
  intros texts w' (Hlen & Hrules & Hflag).
  split; [done | split; [done|]]. rewrite Hrules, Hflag.
  destruct (inter_data (self w)); [| done].
  split; [done|]. intros _. split; [done | now destruct initial_load].
Qed.
End LearningState.

Lemma learning_state_well_formed_witness :
  reachable no_gap_rule two_games_world
  /\ forall e, e ∈ inter_data (self two_games_world) ->
       numero_declencheur e = numero_resultat e - 2
       /\ length (declencheur e) = 2%nat.
Proof.
  assert (Hr : reachable no_gap_rule two_games_world).
  { do 2 apply reach_message. apply reach_channel. now apply reach_fresh. }
  split; [exact Hr|]. intros e He.
  destruct (proj2 (learning_state_well_formed no_gap_rule two_games_world Hr)
              e He) as (H1 & H2 & _).
  split; [exact H1 | exact H2].
Defined.

Lemma analysis_of_a_running_bot_witness :
  reachable no_gap_rule two_games_world
  /\ returns (analyze_and_set_smart_rules false)
       (fun texts w' =>
          length texts = length (smart_rules (self w'))
          /\ smart_rules (self w')
             = top_rules (inter_data (self two_games_world)))
       two_games_world.
Proof.
  assert (Hr : reachable no_gap_rule two_games_world).
  { do 2 apply reach_message. apply reach_channel. now apply reach_fresh. }
  split; [exact Hr|].
  eapply returns_mono;
    [exact (analysis_of_a_running_bot no_gap_rule false two_games_world Hr)|].
  intros texts w' (H1 & H2 & _). split; [exact H1 | exact H2].
Defined.

(* ===================================================================== *)
(** * The markers of a message *)
(* ===================================================================== *)

Section Markers.
Context `{PyRuntime}.

Lemma search_skip {A} (m : pystr -> option A) prefix s :
  Forall (fun c => forall t, m (c :: t) = None) prefix ->
  Re.search m (prefix ++ s) = Re.search m s.
Proof.
  induction 1 as [|c prefix Hc _ IH]; [done|].
  cbn [app]. now rewrite search_next.
Qed.

Lemma search_none {A} (m : pystr -> option A) s :
  m [] = None ->
  Forall (fun c => forall t, m (c :: t) = None) s ->
  Re.search m s = None.
Proof.
  intros Hnil Hs. rewrite <- (app_nil_r s), search_skip by done.
  cbn. now rewrite Hnil.
Qed.

Lemma not_elem_heads {A} (m : pystr -> option A) (c : N) s :
  (forall d t, d <> c -> m (d :: t) = None) ->
  c ∉ s -> Forall (fun d => forall t, m (d :: t) = None) s.
Proof.
  intros Hm Hs. apply Forall_forall. intros d Hd t. apply Hm.
  intros ->. contradiction.
Qed.

Lemma match_hash_n_head d t : d <> 35%N -> match_hash_n (d :: t) = None.
Proof.
  intros Hd. unfold match_hash_n. destruct t; [done|].
  apply N.eqb_neq in Hd. now rewrite Hd.
Qed.

Lemma match_hash_t_head d t : d <> 35%N -> match_hash_t (d :: t) = None.
Proof.
  intros Hd. unfold match_hash_t. destruct t; [done|].
  apply N.eqb_neq in Hd. now rewrite Hd.
Qed.

Lemma match_blue_head d t : d <> 0x1F535%N -> match_blue (d :: t) = None.
Proof.
  intros Hd. unfold match_blue. apply N.eqb_neq in Hd. now rewrite Hd.
Qed.

Lemma match_paren_head d t : d <> 40%N -> match_paren (d :: t) = None.
Proof.
  intros Hd. unfold match_paren. apply N.eqb_neq in Hd. now rewrite Hd.
Qed.

Lemma digits_munch {A} (k : pystr -> pystr -> option A) n rest r :
  match rest with c :: _ => is_digit c = false | [] => True end ->
  k (digits_of n) rest = Some r ->
  Re.plus is_digit k (digits_of n ++ rest) = Some r.
Proof.
  intros Hrest Hk. apply plus_munch; try done.
  - apply digits_of_nonempty.
  - eapply Forall_impl; [apply digits_of_ascii|]. apply is_digit_ascii.
Qed.

Lemma py_int_digits_of n : py_int (digits_of n) = Some (Z.of_N n).
Proof.
  rewrite py_int_digits, digits_of_value;
    [done | apply digits_of_nonempty | apply digits_of_ascii].
Qed.

(** X11. The number written in a marker is the number read. In a message
    whose text before the marker has no [#], [extract_game_number] reads
    the number of [#N<number>.] (or [#n<number>.]) and [extract_total_score]
    the number of [#T<number>] (or [#t<number>]), whatever follows; when
    the message has no [#] at all, [extract_game_number] reads the number
    between the first two blue circles; and it finds no game in a message
    with neither [#] nor a blue circle. *)
Theorem markers_are_read_back prefix n rest :
  35%N ∉ prefix ->
  extract_game_number (prefix ++ py "#N" ++ digits_of n ++ py "." ++ rest)
  = Some (Z.of_N n)
  /\ extract_game_number (prefix ++ py "#n" ++ digits_of n ++ py "." ++ rest)
     = Some (Z.of_N n)
  /\ (match rest with c :: _ => is_digit c = false | [] => True end ->
      extract_total_score (prefix ++ py "#T" ++ digits_of n ++ rest)
      = Some (Z.of_N n)
      /\ extract_total_score (prefix ++ py "#t" ++ digits_of n ++ rest)
         = Some (Z.of_N n))
  /\ (35%N ∉ rest -> 0x1F535%N ∉ prefix ->
      extract_game_number
        (prefix ++ py "🔵" ++ digits_of n ++ py "🔵" ++ rest)
      = Some (Z.of_N n))
  /\ (0x1F535%N ∉ prefix -> extract_game_number prefix = None).
Proof.
  intros Hp.
  pose proof (not_elem_heads _ _ _ match_hash_n_head Hp) as Hn.
  pose proof (not_elem_heads _ _ _ match_hash_t_head Hp) as Ht.
  assert (Hdot : is_digit 46 = false) by (apply is_digit_other; left; done).
  assert (Hblue : is_digit 0x1F535 = false).
  { apply is_digit_other. right. cbn. tauto. }
  split; [| split; [| split; [| split]]].
  - unfold extract_game_number. rewrite search_skip by done.
    rewrite (search_here match_hash_n _ (digits_of n)).
    + apply py_int_digits_of.
    + change (py "#N") with [35; 78]%N. change (py ".") with [46%N]. cbn.
      apply digits_munch; [exact Hdot | cbn; reflexivity].
  - unfold extract_game_number. rewrite search_skip by done.
    rewrite (search_here match_hash_n _ (digits_of n)).
    + apply py_int_digits_of.
    + change (py "#n") with [35; 110]%N. change (py ".") with [46%N]. cbn.
      apply digits_munch; [exact Hdot | cbn; reflexivity].
  - intros Hrest. split.
    + unfold extract_total_score. rewrite search_skip by done.
      rewrite (search_here match_hash_t _ (digits_of n)).
      * apply py_int_digits_of.
      * change (py "#T") with [35; 84]%N. cbn. now apply digits_munch.
    + unfold extract_total_score. rewrite search_skip by done.
      rewrite (search_here match_hash_t _ (digits_of n)).
      * apply py_int_digits_of.
      * change (py "#t") with [35; 116]%N. cbn. now apply digits_munch.
  - intros Hr Hb. unfold extract_game_number.
    change (py "🔵") with [0x1F535%N].
    rewrite (search_none match_hash_n).
    + rewrite (search_skip match_blue)
        by exact (not_elem_heads _ _ _ match_blue_head Hb).
      rewrite (search_here match_blue _ (digits_of n)).
      * apply py_int_digits_of.
      * cbn. apply digits_munch; [exact Hblue | cbn; reflexivity].
    + reflexivity.
    + apply (not_elem_heads _ _ _ match_hash_n_head).
      rewrite !not_elem_of_app. repeat split; try done.
      * intros Hin. apply list_elem_of_singleton in Hin. discriminate.
      * intros Hin.
        apply (proj1 (Forall_forall _ _) (digits_of_ascii n)) in Hin.
        unfold ascii_digit in Hin. lia.
      * intros Hin. apply list_elem_of_singleton in Hin. discriminate.
  - intros Hb. unfold extract_game_number.
    rewrite (search_none match_hash_n), (search_none match_blue);
      [done | done | | done | done].
    exact (not_elem_heads _ _ _ match_blue_head Hb).
Qed.

Lemma lstrip_split s :
  exists x, s = x ++ lstrip s
            /\ match lstrip s with
               | c :: _ => py_isspace c = false
               | [] => True
               end.
Proof.
  induction s as [|c s (x & Hs & Hh)]; [now exists []|].
  cbn. destruct (py_isspace c) eqn:E.
  - exists (c :: x). cbn. now rewrite <- Hs.
  - exists []. cbn. now rewrite E.
Qed.

Lemma strip_strip s : strip (strip s) = strip s.
Proof.
  unfold strip at 2 3.
  destruct (lstrip_split s) as (x & Hs & Hh).
  destruct (lstrip_split (rev (lstrip s))) as (y & Hr & Hh').
  destruct (lstrip (rev (lstrip s))) as [|c' t'] eqn:Eb; [done|].
  destruct (lstrip s) as [|c t] eqn:Ea; [now destruct y|].
  assert (Ha : c :: t = rev (c' :: t') ++ rev y).
  { rewrite <- rev_app_distr, <- Hr. now rewrite rev_involutive. }
  destruct (rev (c' :: t')) as [|c1 t1] eqn:Erev.
  { apply (f_equal (@length N)) in Erev. rewrite length_rev in Erev. done. }
  injection Ha as <- _.
  apply (strip_ends _ c t1 c' t'); try done.
  rewrite <- Erev. apply rev_involutive.
Qed.

Lemma lstrip_suffix s : lstrip s `suffix_of` s.
Proof. destruct (lstrip_split s) as (x & Hs & _). now exists x. Qed.

Lemma strip_elem c s : c ∈ strip s -> c ∈ s.
Proof.
  unfold strip. rewrite !list_elem_of_In, <- in_rev. intros Hin.
  destruct (lstrip_suffix (rev (lstrip s))) as (x & Hx).
  assert (Hin' : In c (rev (lstrip s))).
  { rewrite Hx. apply in_or_app. now right. }
  apply in_rev in Hin'.
  destruct (lstrip_suffix s) as (y & Hy). rewrite Hy.
  apply in_or_app. now right.
Qed.

(** X12. The first group of a message. When the text before the first
    opening parenthesis has none and the group has no closing parenthesis,
    [extract_first_parentheses_content] returns the group, stripped. A
    message without an opening parenthesis has no group. Whatever the
    message, a group that is returned holds no closing parenthesis and is
    its own strip. *)
Theorem first_group_is_read prefix group rest :
  40%N ∉ prefix ->
  (41%N ∉ group ->
   extract_first_parentheses_content
     (prefix ++ py "(" ++ group ++ py ")" ++ rest)
   = Some (strip group))
  /\ extract_first_parentheses_content prefix = None
  /\ (forall message content,
        extract_first_parentheses_content message = Some content ->
        (41%N ∉ content) /\ strip content = content).
Proof.
  intros Hp.
  pose proof (not_elem_heads _ _ _ match_paren_head Hp) as Hh.
  split; [| split].
  - intros Hg. unfold extract_first_parentheses_content.
    rewrite search_skip by done.
    rewrite (search_here match_paren _ (group, length group + 2)%nat);
      [done|].
    change (py "(") with [40%N]. change (py ")") with [41%N]. cbn.
    apply star_munch.
    + apply Forall_forall. intros c Hc. apply negb_true_iff, N.eqb_neq.
      now intros ->.
    + cbn. reflexivity.
    + cbn. reflexivity.
  - unfold extract_first_parentheses_content.
    now rewrite (search_none match_paren).
  - intros message content. unfold extract_first_parentheses_content.
    destruct (Re.search match_paren message) as [[g n]|] eqn:E; [| done].
    intros [= <-]. split; [| apply strip_strip].
    apply search_inv in E as (t & _ & Hm). unfold match_paren in Hm.
    destruct t as [|o t]; [done|]. destruct (o =? 40)%N; [| done].
    apply star_inv in Hm as (g' & rest' & -> & Hg' & Hk). cbn in Hk.
    destruct (then_char 41 g' rest') as [g''|] eqn:Et; [| done].
    injection Hk as -> _.
    unfold then_char in Et. destruct rest' as [|d rest']; [done|].
    destruct (d =? 41)%N; [| done]. injection Et as <-.
    intros Hin%strip_elem. apply list_elem_of_In in Hin.
    apply (proj1 (forallb_forall _ _) Hg'), negb_true_iff, N.eqb_neq in Hin.
    done.
Qed.
End Markers.

Lemma markers_are_read_back_witness :
  (35%N ∉ py "Jeu ")
  /\ extract_game_number
       (py "Jeu " ++ py "#N" ++ digits_of 50 ++ py "." ++ py " (10♥️ 3♦️) ✅")
     = Some 50.
Proof.
  assert (Hp : 35%N ∉ py "Jeu ").
  { intros Hin%list_elem_of_In. vm_compute in Hin. intuition discriminate. }
  split; [exact Hp|].
  exact (proj1 (markers_are_read_back (py "Jeu ") 50 (py " (10♥️ 3♦️) ✅") Hp)).
Defined.

Lemma first_group_is_read_witness :
  (40%N ∉ py "#N50. ")
  /\ (41%N ∉ py " 10♥️ 3♦️ ")
  /\ extract_first_parentheses_content
       (py "#N50. " ++ py "(" ++ py " 10♥️ 3♦️ " ++ py ")" ++ py " - (5♣️)")
     = Some (strip (py " 10♥️ 3♦️ ")).
Proof.
  assert (Hp : 40%N ∉ py "#N50. ").
  { intros Hin%list_elem_of_In. vm_compute in Hin. intuition discriminate. }
  assert (Hg : 41%N ∉ py " 10♥️ 3♦️ ").
  { intros Hin%list_elem_of_In. vm_compute in Hin. intuition discriminate. }
  split; [exact Hp | split; [exact Hg|]].
  exact (proj1 (first_group_is_read (py "#N50. ") (py " 10♥️ 3♦️ ")
                  (py " - (5♣️)") Hp) Hg).
Defined.

(* ===================================================================== *)
(** * Channel binding *)
(* ===================================================================== *)

Section Channels.
Context `{PyRuntime}.

Lemma dict_set_values {Key V} `{EqDecision Key} (P : V -> Prop)
    (d : list (Key * V)) k v :
  Forall P d.*2 -> P v -> Forall P (Dict.set d k v).*2.
Proof.
  induction d as [|[k0 v0] d IH]; cbn; intros Hd Hv.
  - now constructor.
  - inversion Hd; subst.
    destruct (decide (k0 = k)); cbn; constructor; auto.
Qed.

Lemma dict_set_str_keys (d : list (pykey * pyval)) s v :
  Forall is_str_key d.*1 -> Forall is_str_key (Dict.set d (KStr s) v).*1.
Proof.
  intros Hd. rewrite dict_set_keys. destruct (decide _); [done|].
  apply Forall_app. split; [done|]. now repeat constructor.
Qed.

Lemma dict_set_NoDup {Key V} `{EqDecision Key} (d : list (Key * V)) k v :
  NoDup d.*1 -> NoDup (Dict.set d k v).*1.
Proof.
  intros Hd. rewrite dict_set_keys. destruct (decide (k ∈ d.*1)); [done|].
  apply NoDup_app. split; [done|]. split; [| apply NoDup_singleton].
  intros x Hx Hx'%list_elem_of_singleton. congruence.
Qed.

Lemma json_stable_channel c : json_stable (py_of_channel c).
Proof. destruct c; eexists; split; reflexivity. Qed.

Lemma channel_keys_differ :
  KStr (py "target_channel_id") <> KStr (py "prediction_channel_id").
Proof. intros E. vm_compute in E. discriminate. Qed.

(** What [_save_channels_config] leaves in the configuration and, when the
    configuration can be written, on the disk. *)
Lemma _save_channels_config_spec w :
  returns _save_channels_config
    (fun _ w' =>
       let p := self w in
       let p' := self w' in
       p' = set_channels (config_data p') (target_channel_id p)
              (prediction_channel_id p) p
       /\ Dict.get (config_data p') (KStr (py "target_channel_id"))
          = Some (py_of_channel (target_channel_id p))
       /\ Dict.get (config_data p') (KStr (py "prediction_channel_id"))
          = Some (py_of_channel (prediction_channel_id p))
       /\ (forall key,
             key <> KStr (py "target_channel_id") ->
             key <> KStr (py "prediction_channel_id") ->
             Dict.get (config_data p') key = Dict.get (config_data p) key)
       /\ (wfault w channels_config_json = NoFault ->
           Forall is_str_key (config_data p).*1 ->
           NoDup (config_data p).*1 ->
           Forall json_stable (config_data p).*2 ->
           stored channels_config_json false false
             (PyDict (config_data p')) w')) w.
Proof.
  unfold _save_channels_config.
  apply returns_bind, returns_get_world.
  apply returns_bind, returns_modify.
  set (cfg := Dict.set (Dict.set _ _ _) _ _).
  set (w1 := with_self _ w).
  pose proof (_save_data_other (PyDict cfg) channels_config_json w1) as Ho.
  pose proof (_save_data_disk (PyDict cfg) channels_config_json w1) as Hd.
  unfold returns in *.
  destruct (_save_data (PyDict cfg) channels_config_json w1)
    as [w' [[]|e]]; [| done].
  destruct Ho as ((Hs & _) & _). cbn. rewrite Hs. cbn.
  split; [reflexivity|].
  split; [| split; [| split]].
  - unfold cfg. rewrite !dict_get_set.
    destruct (decide _) as [E|_]; [| now destruct (decide _)].
    now apply eq_sym, channel_keys_differ in E.
  - unfold cfg. rewrite dict_get_set. now destruct (decide _).
  - intros key Ht Hp. unfold cfg. rewrite !dict_get_set.
    destruct (decide _) as [E|_]; [congruence|].
    destruct (decide _) as [E|_]; [congruence | done].
  - intros Hf Hk Hnd Hv.
    destruct (json_stable_dict cfg) as (j & Hj & Hb).
    + unfold cfg. now do 2 apply dict_set_str_keys.
    + unfold cfg. now do 2 apply dict_set_NoDup.
    + unfold cfg.
      do 2 (apply dict_set_values; [| apply json_stable_channel]). done.
    + destruct (Hd j Hf Hj) as (_ & Hdisk & _).
      exists j. split; [exact Hdisk|]. rewrite Hb. reflexivity.
Qed.

(** X13. What [set_channel_id] binds. For the type [source] it sets the
    source channel, for [prediction] the prediction channel, leaves the
    other channel alone and returns [True]; the configuration dictionary
    then holds both identifiers under their keys and its other entries as
    they were. For any other type it returns [False] and changes nothing
    at all. It never raises and never touches the rest of the predictor. *)
Theorem set_channel_id_binds channel_id channel_type w :
  returns (set_channel_id channel_id channel_type)
    (fun ok w' =>
       let p := self w in
       let p' := self w' in
       (channel_type = py "source" ->
        ok = true /\ target_channel_id p' = Some channel_id
        /\ prediction_channel_id p' = prediction_channel_id p)
       /\ (channel_type = py "prediction" ->
           ok = true /\ prediction_channel_id p' = Some channel_id
           /\ target_channel_id p' = target_channel_id p)
       /\ (channel_type <> py "source" ->
           channel_type <> py "prediction" ->
           ok = false /\ w' = w)
       /\ (ok = true ->
           Dict.get (config_data p') (KStr (py "target_channel_id"))
           = Some (py_of_channel (target_channel_id p'))
           /\ Dict.get (config_data p') (KStr (py "prediction_channel_id"))
              = Some (py_of_channel (prediction_channel_id p'))
           /\ forall key,
                key <> KStr (py "target_channel_id") ->
                key <> KStr (py "prediction_channel_id") ->
                Dict.get (config_data p') key = Dict.get (config_data p) key)
       /\ predictions p' = predictions p
       /\ processed_messages p' = processed_messages p
       /\ last_prediction_time p' = last_prediction_time p
       /\ sequential_history p' = sequential_history p
       /\ inter_data p' = inter_data p
       /\ is_inter_mode_active p' = is_inter_mode_active p
       /\ smart_rules p' = smart_rules p
       /\ prediction_cooldown p' = prediction_cooldown p) w.
Proof.
  assert (Hne : py "prediction" <> py "source")
    by (intros E; vm_compute in E; discriminate).
  unfold set_channel_id.
  destruct (decide (channel_type = py "source")) as [-> | Hs];
    [| destruct (decide (channel_type = py "prediction")) as [-> | Hp]].
  - apply returns_bind, returns_modify.
    apply returns_bind, returns_logger.
    apply returns_bind.
    eapply returns_mono; [apply _save_channels_config_spec|].
    intros [] w' (Hself & Ht & Hp & Hk & _). cbn in *.
    rewrite Hself. cbn. repeat split; try done.
  - apply returns_bind, returns_modify.
    apply returns_bind, returns_logger.
    apply returns_bind.
    eapply returns_mono; [apply _save_channels_config_spec|].
    intros [] w' (Hself & Ht & Hp & Hk & _). cbn in *.
    rewrite Hself. cbn. repeat split; try done.
  - cbn. repeat split; try done.
Qed.

(** X14. A channel binding survives a restart. When the configuration
    file can be written and the configuration is one a load gave (string
    keys, values that JSON holds), the file [set_channel_id] leaves is read
    back by [_load_data] as a dictionary whose [target_channel_id] (for
    the type [source]) or [prediction_channel_id] (for [prediction]) is
    the identifier just bound, which is how [__init__] finds the channels
    again. *)
Theorem channel_binding_survives_restart channel_id w :
  wfault w channels_config_json = NoFault ->
  Forall is_str_key (config_data (self w)).*1 ->
  NoDup (config_data (self w)).*1 ->
  Forall json_stable (config_data (self w)).*2 ->
  returns (set_channel_id channel_id (py "source");;
           _load_data channels_config_json false false)
    (fun config _ =>
       py_get config (KStr (py "target_channel_id")) PyNone
       = Ret (PyInt channel_id)) w
  /\ returns (set_channel_id channel_id (py "prediction");;
              _load_data channels_config_json false false)
       (fun config _ =>
          py_get config (KStr (py "prediction_channel_id")) PyNone
          = Ret (PyInt channel_id)) w.
Proof.
  intros Hf Hk Hnd Hv.
  assert (Hne : py "prediction" <> py "source")
    by (intros E; vm_compute in E; discriminate).
  split.
  - apply returns_bind. unfold set_channel_id.
    destruct (decide (py "source" = py "source")); [| done].
    apply returns_bind, returns_modify.
    apply returns_bind, returns_logger.
    apply returns_bind.
    eapply returns_mono; [apply _save_channels_config_spec|].
    intros [] w' (_ & Ht & _ & _ & Hst). cbn in *.
    unfold returns. rewrite (stored_load _ _ _ _ _ (Hst Hf Hk Hnd Hv)).
    cbn. now rewrite Ht.
  - apply returns_bind. unfold set_channel_id.
    destruct (decide (py "prediction" = py "source")); [done|].
    destruct (decide (py "prediction" = py "prediction")); [| done].
    apply returns_bind, returns_modify.
    apply returns_bind, returns_logger.
    apply returns_bind.
    eapply returns_mono; [apply _save_channels_config_spec|].
    intros [] w' (_ & _ & Hp & _ & Hst). cbn in *.
    unfold returns. rewrite (stored_load _ _ _ _ _ (Hst Hf Hk Hnd Hv)).
    cbn. now rewrite Hp.
Qed.
End Channels.

Lemma channel_binding_survives_restart_witness :
  let w := quiet_world fresh_predictor in
  wfault w channels_config_json = NoFault
  /\ Forall is_str_key (config_data (self w)).*1
  /\ NoDup (config_data (self w)).*1
  /\ Forall json_stable (config_data (self w)).*2
  /\ returns (set_channel_id (-1001) (py "source");;
              _load_data channels_config_json false false)
       (fun config _ =>
          py_get config (KStr (py "target_channel_id")) PyNone
          = Ret (PyInt (-1001))) w.
Proof.
  cbv zeta.
  assert (Hf : wfault (quiet_world fresh_predictor) channels_config_json
               = NoFault) by reflexivity.
  assert (Hk : Forall is_str_key
                 (config_data (self (quiet_world fresh_predictor))).*1)
    by constructor.
  assert (Hnd : NoDup (config_data (self (quiet_world fresh_predictor))).*1)
    by constructor.
  assert (Hv : Forall json_stable
                 (config_data (self (quiet_world fresh_predictor))).*2)
    by constructor.
  split; [exact Hf | split; [exact Hk | split; [exact Hnd |
    split; [exact Hv|]]]].
  exact (proj1 (channel_binding_survives_restart (-1001)
                  (quiet_world fresh_predictor) Hf Hk Hnd Hv)).
Defined.

(* ===================================================================== *)
(** * The rule chain of [should_predict] *)
(* ===================================================================== *)

Section RuleChain.
Context `{PyRuntime}.

Lemma bind_ext {A B} (m : M A) (f g : A -> M B) w :
  (forall a w', f a w' = g a w') -> (m ≫= f) w = (m ≫= g) w.
Proof.
  intros E. rewrite !bind_run. destruct (m w) as [w' [a|e]]; auto.
Qed.

Lemma bind_ext_l {A B} (m1 m2 : M A) (f : A -> M B) w :
  m1 w = m2 w -> (m1 ≫= f) w = (m2 ≫= f) w.
Proof. intros E. rewrite !bind_run. now rewrite E. Qed.

(** X15. The third static rule never runs. In the chain of the static
    rules the branch of the gap rule stands after a branch with the same
    condition ([not predicted_value]), so [should_predict] behaves the same
    whatever the body of that rule does: its result and the state it leaves
    do not depend on it. *)
Theorem gap_rule_is_dead_code
    (gap1 gap2 : Z -> pystr -> M (option pystr)) message w :
  should_predict gap1 message w = should_predict gap2 message w.
Proof.
  unfold should_predict. apply bind_ext. intros w0 w1.
  destruct (negb (channel_set _)); [done|].
  destruct (extract_game_number message) as [[|g|g]|]; try done.
  all: apply bind_ext; intros [] w2.
  all: destruct (has_pending_indicators message); [done|].
  all: destruct (negb (has_completion_indicators message)); [done|].
  all: apply bind_ext_l.
  all: destruct (extract_first_parentheses_content message) as [[|c l]|];
    try done.
  all: apply bind_ext; intros w3 w4.
  all: apply bind_ext; intros pv w5.
  all: destruct (negb (value_set pv)); reflexivity.
Qed.
End RuleChain.

Lemma set_channel_id_binds_witness :
  returns (set_channel_id (-1001) (py "source"))
    (fun ok w' =>
       ok = true
       /\ target_channel_id (self w') = Some (-1001)
       /\ prediction_channel_id (self w') = None)
    (quiet_world fresh_predictor).
Proof.
  eapply returns_mono;
    [exact (set_channel_id_binds (-1001) (py "source")
              (quiet_world fresh_predictor))|].
  intros ok w' (Hsource & _). exact (Hsource eq_refl).
Defined.
